(** * VAT entry application: reconciliation engine and monthly ledger

    A shallow embedding of the computational core of [streamlit_app.py]
    (class [VatEntryApp]): the three derivations between base, VAT and
    total, the validation of a submitted triple, and the recomputation of
    the monthly balance with its carry-forward store.

    Amounts are Python [decimal.Decimal] values under the default context
    (28 significant digits, ROUND_HALF_EVEN, traps on InvalidOperation,
    DivisionByZero and Overflow).  The model keeps the numerical value of
    every result exactly as Python computes it; the sign of a zero is not
    tracked (Python's [-0.00] is the model's [0.00], which only changes a
    printed minus sign), and texts are ASCII. *)

From Stdlib Require Import ZArith Bool Ascii String List Lia.
From stdpp Require Import base tactics option list numbers strings pretty gmap fin_maps.

Local Open Scope string_scope.
Local Open Scope Z_scope.

(** ** Exceptions *)

Inductive exn :=
| InvalidOperation | DivisionByZero | Overflow      (* decimal signals that are trapped *)
| TypeError | ValueError | OverflowError.            (* builtin exceptions *)

Inductive result (A : Type) :=
| Ok (a : A)
| Raise (e : exn).
Arguments Ok {A} a.
Arguments Raise {A} e.

Definition bind {A B} (m : result A) (k : A -> result B) : result B :=
  match m with
  | Ok a => k a
  | Raise e => Raise e
  end.

Notation "'let*' x ':=' m 'in' k" := (bind m (fun x => k))
  (at level 10, x pattern, m at level 100, k at level 200).

(** ** Decimal numbers *)

Module Dec.

(** [Fin c e] is the number [c * 10^e]; [NaN true] is the signaling NaN. *)
Inductive Decimal :=
| Fin (c : Z) (e : Z)
| Inf (neg : bool)
| NaN (signaling : bool).

(** The default context. *)
Definition prec : Z := 28.
Definition Emax : Z := 999999.
Definition Emin : Z := -999999.
Definition Etiny : Z := Emin - prec + 1.
Definition Etop : Z := Emax - prec + 1.

Fixpoint ndigits_aux (fuel : nat) (n : Z) : Z :=
  match fuel with
  | O => 1
  | S f => if n <? 10 then 1 else 1 + ndigits_aux f (n / 10)
  end.

(** [len(self._int)]: the number of decimal digits of the coefficient. *)
Definition ndigits (c : Z) : Z :=
  ndigits_aux (S (Z.to_nat (Z.log2 (Z.abs c)))) (Z.abs c).

(** Division of the magnitude of [c] by [10^k], rounded to nearest, a tie
    going to the even quotient (ROUND_HALF_EVEN) or away from zero
    (ROUND_HALF_UP). *)
Definition round_half_even (c k : Z) : Z :=
  let m := Z.abs c in
  let q := m / 10 ^ k in
  let r := m mod 10 ^ k in
  let q' := if (10 ^ k <? 2 * r) || ((2 * r =? 10 ^ k) && Z.odd q) then q + 1 else q in
  Z.sgn c * q'.

Definition round_half_up (c k : Z) : Z :=
  let m := Z.abs c in
  let q := m / 10 ^ k in
  let r := m mod 10 ^ k in
  let q' := if 10 ^ k <=? 2 * r then q + 1 else q in
  Z.sgn c * q'.

(** [Decimal._fix]: round a finite result to the context. *)
Definition fix_ (c e : Z) : result Decimal :=
  if c =? 0 then Ok (Fin 0 (Z.min (Z.max e Etiny) Emax))
  else
    let exp_min := ndigits c + e - prec in
    if Etop <? exp_min then Raise Overflow
    else
      let exp_min := Z.max exp_min Etiny in
      if e <? exp_min then
        let coeff := round_half_even c (exp_min - e) in
        let '(coeff, exp_min) :=
          if prec <? ndigits coeff then (Z.quot coeff 10, exp_min + 1)
          else (coeff, exp_min) in
        if Etop <? exp_min then Raise Overflow else Ok (Fin coeff exp_min)
      else Ok (Fin c e).

(** [_check_nans] for a binary operation: a signaling NaN raises, a quiet
    one is the result. *)
Definition check_nans (a b : Decimal) : option (result Decimal) :=
  match a, b with
  | NaN true, _ | _, NaN true => Some (Raise InvalidOperation)
  | NaN false, _ | _, NaN false => Some (Ok (NaN false))
  | _, _ => None
  end.

Definition negate (a : Decimal) : Decimal :=
  match a with
  | Fin c e => Fin (- c) e
  | Inf s => Inf (negb s)
  | NaN s => NaN s
  end.

Definition is_neg (a : Decimal) : bool :=
  match a with
  | Fin c _ => c <? 0
  | Inf s => s
  | NaN _ => false
  end.

Definition is_zero (a : Decimal) : bool :=
  match a with
  | Fin c _ => c =? 0
  | _ => false
  end.

(** [a + b] *)
Definition add (a b : Decimal) : result Decimal :=
  match check_nans a b with
  | Some r => r
  | None =>
    match a, b with
    | Inf s1, Inf s2 => if Bool.eqb s1 s2 then Ok (Inf s1) else Raise InvalidOperation
    | Inf s, _ | _, Inf s => Ok (Inf s)
    | Fin c1 e1, Fin c2 e2 =>
        let e := Z.min e1 e2 in
        fix_ (c1 * 10 ^ (e1 - e) + c2 * 10 ^ (e2 - e)) e
    | _, _ => Ok (NaN false)
    end
  end.

(** [a - b] *)
Definition sub (a b : Decimal) : result Decimal := add a (negate b).

(** [a * b] *)
Definition mul (a b : Decimal) : result Decimal :=
  match check_nans a b with
  | Some r => r
  | None =>
    match a, b with
    | Inf s, x | x, Inf s =>
        if is_zero x then Raise InvalidOperation else Ok (Inf (xorb s (is_neg x)))
    | Fin c1 e1, Fin c2 e2 => fix_ (c1 * c2) (e1 + e2)
    | _, _ => Ok (NaN false)
    end
  end.

(** An exact quotient is brought as close to the ideal exponent as its
    trailing zeros allow. *)
Fixpoint strip_zeros (fuel : nat) (coeff exp ideal : Z) : Z * Z :=
  match fuel with
  | O => (coeff, exp)
  | S f =>
      if (exp <? ideal) && (coeff mod 10 =? 0)
      then strip_zeros f (coeff / 10) (exp + 1) ideal
      else (coeff, exp)
  end.

(** [a / b]: the quotient is computed to [prec + 1] digits with a sticky
    last digit, then rounded by the context. *)
Definition div (a b : Decimal) : result Decimal :=
  match check_nans a b with
  | Some r => r
  | None =>
    match a, b with
    | Inf _, Inf _ => Raise InvalidOperation
    | Inf s, x => Ok (Inf (xorb s (is_neg x)))
    | _, Inf _ => Ok (Fin 0 Etiny)
    | Fin c1 e1, Fin c2 e2 =>
        if c2 =? 0 then
          if c1 =? 0 then Raise InvalidOperation else Raise DivisionByZero
        else if c1 =? 0 then fix_ 0 (e1 - e2)
        else
          let shift := ndigits c2 - ndigits c1 + prec + 1 in
          let n := if 0 <=? shift then Z.abs c1 * 10 ^ shift else Z.abs c1 in
          let d := if 0 <=? shift then Z.abs c2 else Z.abs c2 * 10 ^ (- shift) in
          let q := n / d in
          let r := n mod d in
          let '(coeff, exp) :=
            if negb (r =? 0) then (if q mod 5 =? 0 then q + 1 else q, e1 - e2 - shift)
            else strip_zeros (Z.to_nat (ndigits q)) q (e1 - e2 - shift) (e1 - e2) in
          fix_ (Z.sgn c1 * Z.sgn c2 * coeff) exp
    | _, _ => Ok (NaN false)
    end
  end.

(** [abs(a)] *)
Definition abs (a : Decimal) : result Decimal :=
  match a with
  | NaN true => Raise InvalidOperation
  | NaN false => Ok (NaN false)
  | Inf _ => Ok (Inf false)
  | Fin c e => fix_ (Z.abs c) e
  end.

(** Three-way comparison of two numbers that are not NaN. *)
Definition cmp (a b : Decimal) : comparison :=
  match a, b with
  | Fin c1 e1, Fin c2 e2 =>
      let e := Z.min e1 e2 in
      (c1 * 10 ^ (e1 - e) ?= c2 * 10 ^ (e2 - e))
  | Inf true, Inf true | Inf false, Inf false => Eq
  | Inf true, _ | _, Inf false => Lt
  | _, _ => Gt
  end.

Definition is_nan (a : Decimal) : bool :=
  match a with NaN _ => true | _ => false end.

(** The ordering operators raise on a NaN operand. *)
Definition compare_with (f : comparison -> bool) (a b : Decimal) : result bool :=
  if is_nan a || is_nan b then Raise InvalidOperation else Ok (f (cmp a b)).

Definition lt := compare_with (fun c => match c with Lt => true | _ => false end).
Definition gt := compare_with (fun c => match c with Gt => true | _ => false end).
Definition ge := compare_with (fun c => match c with Lt => false | _ => true end).

(** [self._rescale(exp, rounding)] *)
Definition rescale (round : Z -> Z -> Z) (c e exp : Z) : Z :=
  if exp <=? e then c * 10 ^ (e - exp) else round c (exp - e).

(** [d.quantize(Decimal("0.01"), rounding=ROUND_HALF_UP)] *)
Definition quantize (d : Decimal) : result Decimal :=
  match d with
  | NaN true => Raise InvalidOperation
  | NaN false => Ok (NaN false)
  | Inf _ => Raise InvalidOperation
  | Fin c e =>
      if c =? 0 then fix_ 0 (-2)
      else
        let adjusted := e + ndigits c - 1 in
        if Emax <? adjusted then Raise InvalidOperation
        else if prec <? adjusted + 2 + 1 then Raise InvalidOperation
        else
          let c' := rescale round_half_up c e (-2) in
          if prec <? ndigits c' then Raise InvalidOperation
          else fix_ c' (-2)
  end.

End Dec.
Export Dec.

(** ** Texts and numbers *)

Module Text.

Definition code (a : ascii) : Z := Z.of_N (N_of_ascii a).

Definition is_digit (a : ascii) : bool := (48 <=? code a) && (code a <=? 57).

(** ASCII white space, as [str.strip] removes it. *)
Definition is_space (a : ascii) : bool :=
  ((9 <=? code a) && (code a <=? 13)) || ((28 <=? code a) && (code a <=? 32)).

Definition lower (a : ascii) : ascii :=
  if (65 <=? code a) && (code a <=? 90)
  then ascii_of_N (Z.to_N (code a + 32)) else a.

Fixpoint lstrip (l : list ascii) : list ascii :=
  match l with
  | a :: r => if is_space a then lstrip r else l
  | [] => []
  end.

Definition strip (l : list ascii) : list ascii := rev (lstrip (rev (lstrip l))).

Definition int_of_digits (l : list ascii) : Z :=
  fold_left (fun acc a => 10 * acc + (code a - 48)) l 0.

Fixpoint span_digits (l : list ascii) : list ascii * list ascii :=
  match l with
  | a :: r =>
      if is_digit a then let '(d, t) := span_digits r in (a :: d, t) else ([], l)
  | [] => ([], [])
  end.

(** The exponent after the letter E: an optional sign and at least one digit. *)
Definition parse_exponent (l : list ascii) : option Z :=
  let '(neg, l) :=
    match l with
    | "-"%char :: r => (true, r)
    | "+"%char :: r => (false, r)
    | _ => (false, l)
    end in
  match span_digits l with
  | ((_ :: _) as ds, []) => Some (if neg then - int_of_digits ds else int_of_digits ds)
  | _ => None
  end.

(** A number: digits with an optional fraction (at least one digit in
    all) and an optional exponent; the result is coefficient and exponent. *)
Definition parse_finite (l : list ascii) : option (Z * Z) :=
  let '(ip, r1) := span_digits l in
  let '(fp, r2) :=
    match r1 with
    | "."%char :: r => span_digits r
    | _ => ([], r1)
    end in
  match (ip ++ fp)%list with
  | [] => None
  | ds =>
      let exp :=
        match r2 with
        | [] => Some 0
        | a :: r => if Ascii.eqb (lower a) "e" then parse_exponent r else None
        end in
      match exp with
      | Some x => Some (int_of_digits ds, x - Z.of_nat (length fp))
      | None => None
      end
  end.

Definition all_digits (l : list ascii) : bool := forallb is_digit l.

(** [Inf], [Infinity], [NaN] and [sNaN] with optional diagnostic digits,
    in any letter case. *)
Definition parse_special (neg : bool) (l : list ascii) : option Decimal :=
  match map lower l with
  | ["i"; "n"; "f"]%char
  | ["i"; "n"; "f"; "i"; "n"; "i"; "t"; "y"]%char => Some (Inf neg)
  | ("n" :: "a" :: "n" :: d)%char => if all_digits d then Some (NaN false) else None
  | ("s" :: "n" :: "a" :: "n" :: d)%char => if all_digits d then Some (NaN true) else None
  | _ => None
  end.

(** [Decimal(value_str)] for a string: [None] stands for the
    InvalidOperation that an ill-formed string raises. *)
Definition Decimal_of_str (s : string) : option Decimal :=
  let l := filter (fun a => a <> "_"%char) (strip (list_ascii_of_string s)) in
  let '(neg, body) :=
    match l with
    | "-"%char :: r => (true, r)
    | "+"%char :: r => (false, r)
    | _ => (false, l)
    end in
  match parse_finite body with
  | Some (c, e) => Some (Fin (if neg then - c else c) e)
  | None => parse_special neg body
  end.

Definition pad2 (n : Z) : string :=
  if n <? 10 then "0" +:+ pretty n else pretty n.

Fixpoint group3_rev (l : list ascii) : list ascii :=
  match l with
  | a :: b :: c :: ((_ :: _) as r) => a :: b :: c :: ","%char :: group3_rev r
  | _ => l
  end.

(** Thousands separators, as the [,] of a format specification puts them. *)
Definition group3 (s : string) : string :=
  string_of_list_ascii (rev (group3_rev (rev (list_ascii_of_string s)))).

(** [format(d, ".2f")] and, with [commas], [format(d, ",.2f")]. *)
Definition format_fixed2 (commas : bool) (d : Decimal) : string :=
  match d with
  | Fin c e =>
      let c' := rescale round_half_even c e (-2) in
      let ip := pretty (Z.abs c' / 100) in
      (if c' <? 0 then "-" else "") +:+ (if commas then group3 ip else ip)
        +:+ "." +:+ pad2 (Z.abs c' mod 100)
  | Inf neg => if neg then "-Infinity" else "Infinity"
  | NaN s => if s then "sNaN" else "NaN"
  end.

Definition format_2f := format_fixed2 false.

End Text.
Export Text.

(** ** Python values *)

(** A float is the dyadic number [m * 2^e], an infinity or a NaN. *)
Inductive pyfloat :=
| FFin (m e : Z)
| FInf (neg : bool)
| FNan.

(** The values a transaction record (a JSON object) or a call of
    [quantize_decimal] can hold.  [VOther] is a JSON array or object. *)
Inductive pyval :=
| VNone
| VBool (b : bool)
| VInt (n : Z)
| VFloat (f : pyfloat)
| VStr (s : string)
| VDec (d : Decimal)
| VOther.

(** [Decimal(f)] for a float is exact. *)
Definition Decimal_of_float (f : pyfloat) : Decimal :=
  match f with
  | FFin m e => if 0 <=? e then Fin (m * 2 ^ e) 0 else Fin (m * 5 ^ (- e)) e
  | FInf neg => Inf neg
  | FNan => NaN false
  end.

(** The constructor [Decimal(d)].  A three-element array, which Python
    would read as a sign, digits and exponent triple, is not modelled. *)
Definition Decimal_of (d : pyval) : result Decimal :=
  match d with
  | VNone => Raise TypeError
  | VBool b => Ok (Fin (if b then 1 else 0) 0)
  | VInt n => Ok (Fin n 0)
  | VFloat f => Ok (Decimal_of_float f)
  | VStr s =>
      match Decimal_of_str s with
      | Some x => Ok x
      | None => Raise InvalidOperation
      end
  | VDec x => Ok x
  | VOther => Raise TypeError
  end.

(** ** Helper functions *)

Definition CURRENCY_SYMBOL : string := "€".
Definition COMPANIES : list string := ["SOL"; "HELO"].
Definition TRANSACTION_TYPES : list string := ["Sales"; "Imports"; "Local"].
Definition MONTH_NAMES : list string :=
  ["January"; "February"; "March"; "April"; "May"; "June"; "July";
   "August"; "September"; "October"; "November"; "December"].

Definition zero : Decimal := Fin 0 0.

(** [quantize_decimal(d)]: rounds to 2 decimal places for currency. *)
Definition quantize_decimal (d : pyval) : result Decimal :=
  match d with
  | VNone => Ok zero
  | _ =>
      match (let* x := Decimal_of d in quantize x) with
      | Ok r => Ok r
      | Raise TypeError | Raise InvalidOperation | Raise ValueError => Ok zero
      | Raise e => Raise e
      end
  end.

(** [format_curr(amount)] *)
Definition format_curr (amount : pyval) : string :=
  match quantize_decimal amount with
  | Ok q => CURRENCY_SYMBOL +:+ format_fixed2 true q
  | Raise _ => CURRENCY_SYMBOL +:+ " Error"
  end.

(** [datetime.date.today()], as far as the helpers look at it. *)
Record date := { d_year : Z; d_month : Z }.

(** [l.index(x)]; [None] stands for the ValueError. *)
Fixpoint index (x : string) (l : list string) : option Z :=
  match l with
  | [] => None
  | y :: r => if String.eqb x y then Some 0 else option_map Z.succ (index x r)
  end.

(** [get_month_year_str(year, month_name)]: the 'YYYY-MM' string. *)
Definition get_month_year_str (today : date) (year : Z) (month_name : string) : string :=
  match index month_name MONTH_NAMES with
  | Some i => let month_num := i + 1 in pretty year +:+ "-" +:+ pad2 month_num
  | None => pretty (d_year today) +:+ "-" +:+ pad2 (d_month today)
  end.

(** [strftime('%Y-%m')], the year zero-filled to four digits. *)
Definition strftime_Ym (y m : Z) : string :=
  (if y <? 10 then "000" else if y <? 100 then "00" else if y <? 1000 then "0" else "")
    +:+ pretty y +:+ "-" +:+ pad2 m.

(** The month of the day before the first of month [m] of year [y];
    before year 1 the subtraction raises OverflowError. *)
Definition month_before (y m : Z) : result (Z * Z) :=
  if 1 <? m then Ok (y, m - 1)
  else if 1 <? y then Ok (y - 1, 12)
  else Raise OverflowError.

(** [get_prev_month_year_str(year, month_name)]: the previous month's
    YYYY-MM string.  [datetime.date] refuses a year outside 1..9999 with a
    ValueError, which leads to the fallback on today's date. *)
Definition get_prev_month_year_str (today : date) (year : Z) (month_name : string)
  : result string :=
  let fallback :=
    let* (y, m) := month_before (d_year today) (d_month today) in
    Ok (strftime_Ym y m) in
  match index month_name MONTH_NAMES with
  | Some i =>
      let month_num := i + 1 in
      if (1 <=? year) && (year <=? 9999) then
        let* (y, m) := month_before year month_num in
        Ok (strftime_Ym y m)
      else fallback
  | None => fallback
  end.

(** ** The application object *)

Inductive widget :=
| company_combo | month_combo | year_spin | trans_combo | invoice_entry
| counterparty_combo | v_me_tvsh_entry | v_pa_tvsh_entry | tvsh_entry
| done_button | other_widget.

Inductive style := SUCCESS | DANGER | DEFAULT.

Record label := { text : string; bootstyle : style }.

(** The attributes of [VatEntryApp] that the calculations read or write.
    [has_*] is [hasattr(self, ...)] for an entry widget; [focus] is the
    widget that has the keyboard focus in the application, if any. *)
Record app := {
  vat_rate : Decimal;
  _calculating : bool;
  company_var : string;
  year_var : Z;
  month_var : string;
  v_me_tvsh_var : string;
  v_pa_tvsh_var : string;
  tvsh_var : string;
  has_v_me_tvsh_entry : bool;
  has_v_pa_tvsh_entry : bool;
  has_tvsh_entry : bool;
  focus : option widget;
  transactions : list (gmap string pyval);
  carry_forward_data : gmap string (gmap string Decimal);
  live_labels : gmap string (gmap string (gmap string label))
}.

Definition set_calculating (b : bool) (s : app) : app :=
  {| vat_rate := vat_rate s; _calculating := b; company_var := company_var s;
     year_var := year_var s; month_var := month_var s;
     v_me_tvsh_var := v_me_tvsh_var s; v_pa_tvsh_var := v_pa_tvsh_var s;
     tvsh_var := tvsh_var s; has_v_me_tvsh_entry := has_v_me_tvsh_entry s;
     has_v_pa_tvsh_entry := has_v_pa_tvsh_entry s; has_tvsh_entry := has_tvsh_entry s;
     focus := focus s; transactions := transactions s;
     carry_forward_data := carry_forward_data s; live_labels := live_labels s |}.

Definition set_v_me_tvsh_var (t : string) (s : app) : app :=
  {| vat_rate := vat_rate s; _calculating := _calculating s; company_var := company_var s;
     year_var := year_var s; month_var := month_var s;
     v_me_tvsh_var := t; v_pa_tvsh_var := v_pa_tvsh_var s;
     tvsh_var := tvsh_var s; has_v_me_tvsh_entry := has_v_me_tvsh_entry s;
     has_v_pa_tvsh_entry := has_v_pa_tvsh_entry s; has_tvsh_entry := has_tvsh_entry s;
     focus := focus s; transactions := transactions s;
     carry_forward_data := carry_forward_data s; live_labels := live_labels s |}.

Definition set_v_pa_tvsh_var (t : string) (s : app) : app :=
  {| vat_rate := vat_rate s; _calculating := _calculating s; company_var := company_var s;
     year_var := year_var s; month_var := month_var s;
     v_me_tvsh_var := v_me_tvsh_var s; v_pa_tvsh_var := t;
     tvsh_var := tvsh_var s; has_v_me_tvsh_entry := has_v_me_tvsh_entry s;
     has_v_pa_tvsh_entry := has_v_pa_tvsh_entry s; has_tvsh_entry := has_tvsh_entry s;
     focus := focus s; transactions := transactions s;
     carry_forward_data := carry_forward_data s; live_labels := live_labels s |}.

Definition set_tvsh_var (t : string) (s : app) : app :=
  {| vat_rate := vat_rate s; _calculating := _calculating s; company_var := company_var s;
     year_var := year_var s; month_var := month_var s;
     v_me_tvsh_var := v_me_tvsh_var s; v_pa_tvsh_var := v_pa_tvsh_var s;
     tvsh_var := t; has_v_me_tvsh_entry := has_v_me_tvsh_entry s;
     has_v_pa_tvsh_entry := has_v_pa_tvsh_entry s; has_tvsh_entry := has_tvsh_entry s;
     focus := focus s; transactions := transactions s;
     carry_forward_data := carry_forward_data s; live_labels := live_labels s |}.

Definition set_carry_forward_data (c : gmap string (gmap string Decimal)) (s : app) : app :=
  {| vat_rate := vat_rate s; _calculating := _calculating s; company_var := company_var s;
     year_var := year_var s; month_var := month_var s;
     v_me_tvsh_var := v_me_tvsh_var s; v_pa_tvsh_var := v_pa_tvsh_var s;
     tvsh_var := tvsh_var s; has_v_me_tvsh_entry := has_v_me_tvsh_entry s;
     has_v_pa_tvsh_entry := has_v_pa_tvsh_entry s; has_tvsh_entry := has_tvsh_entry s;
     focus := focus s; transactions := transactions s;
     carry_forward_data := c; live_labels := live_labels s |}.

Definition set_live_labels (l : gmap string (gmap string (gmap string label))) (s : app)
  : app :=
  {| vat_rate := vat_rate s; _calculating := _calculating s; company_var := company_var s;
     year_var := year_var s; month_var := month_var s;
     v_me_tvsh_var := v_me_tvsh_var s; v_pa_tvsh_var := v_pa_tvsh_var s;
     tvsh_var := tvsh_var s; has_v_me_tvsh_entry := has_v_me_tvsh_entry s;
     has_v_pa_tvsh_entry := has_v_pa_tvsh_entry s; has_tvsh_entry := has_tvsh_entry s;
     focus := focus s; transactions := transactions s;
     carry_forward_data := carry_forward_data s; live_labels := l |}.

(** Methods run in a state monad over the application object; an
    exception leaves the object as it was when it was raised. *)
Definition M (A : Type) : Type := app -> result A * app.

Definition ret {A} (a : A) : M A := fun s => (Ok a, s).

Definition bindM {A B} (m : M A) (k : A -> M B) : M B :=
  fun s =>
    match m s with
    | (Ok a, s') => k a s'
    | (Raise e, s') => (Raise e, s')
    end.

Definition lift {A} (r : result A) : M A := fun s => (r, s).
Definition get : M app := fun s => (Ok s, s).
Definition modify (f : app -> app) : M unit := fun s => (Ok tt, f s).
Definition when (b : bool) (m : M unit) : M unit := if b then m else ret tt.

Notation "'let!' x ':=' m 'in' k" := (bindM m (fun x => k))
  (at level 10, x pattern, m at level 100, k at level 200).
Notation "m1 ';;' m2" := (bindM m1 (fun _ => m2))
  (at level 100, m2 at level 200, right associativity).

(** ** Reconciliation engine *)

(** [_safely_get_decimal(var)]: the text of the variable as a Decimal,
    [None] when it is empty or ill-formed. *)
Definition _safely_get_decimal (value_str : string) : option Decimal :=
  if String.eqb value_str "" then None else Decimal_of_str value_str.

Definition _set_calculation_flag (state : bool) : M unit :=
  modify (set_calculating state).

(** [w.focus_get()]: the widget that has the focus in the application,
    whatever widget [w] it is asked of; [None] when no widget has it. *)
Definition focus_get (w : widget) (s : app) : option widget := focus s.

Definition not_ (o : option widget) : bool :=
  match o with Some _ => false | None => true end.

(** [_calculate_from_base]: VAT and total from the base amount.  Setting
    a variable runs the trace of the field that is set, which returns at
    once because [_calculating] is set. *)
Definition _calculate_from_base : M unit :=
  let! s := get in
  if _calculating s || negb (has_v_pa_tvsh_entry s) then ret tt
  else
    _set_calculation_flag true ;;
    let base := _safely_get_decimal (v_pa_tvsh_var s) in
    let! usable :=
      lift (match base with
            | Some b => ge b zero
            | None => Ok false
            end) in
    match base, usable with
    | Some base, true =>
        let! vat := lift (let* p := mul base (vat_rate s) in quantize_decimal (VDec p)) in
        let! total := lift (let* t := add base vat in quantize_decimal (VDec t)) in
        when (has_tvsh_entry s) (modify (set_tvsh_var (format_2f vat))) ;;
        when (has_v_me_tvsh_entry s) (modify (set_v_me_tvsh_var (format_2f total)))
    | _, _ =>
        when (has_tvsh_entry s && has_v_me_tvsh_entry s
              && not_ (focus_get tvsh_entry s) && not_ (focus_get v_me_tvsh_entry s))
          (modify (set_tvsh_var "") ;; modify (set_v_me_tvsh_var ""))
    end ;;
    _set_calculation_flag false.

(** [_calculate_from_vat]: base and total from the VAT amount. *)
Definition _calculate_from_vat : M unit :=
  let! s := get in
  if _calculating s || negb (has_tvsh_entry s) then ret tt
  else
    _set_calculation_flag true ;;
    let vat := _safely_get_decimal (tvsh_var s) in
    let! usable :=
      lift (match vat with
            | Some v =>
                let* nonneg := ge v zero in
                if nonneg then gt (vat_rate s) zero else Ok false
            | None => Ok false
            end) in
    match vat, usable with
    | Some vat, true =>
        let! base := lift (let* q := div vat (vat_rate s) in quantize_decimal (VDec q)) in
        let! total := lift (let* t := add base vat in quantize_decimal (VDec t)) in
        when (has_v_pa_tvsh_entry s) (modify (set_v_pa_tvsh_var (format_2f base))) ;;
        when (has_v_me_tvsh_entry s) (modify (set_v_me_tvsh_var (format_2f total)))
    | _, _ =>
        when (has_v_pa_tvsh_entry s && has_v_me_tvsh_entry s
              && not_ (focus_get v_pa_tvsh_entry s) && not_ (focus_get v_me_tvsh_entry s))
          (modify (set_v_pa_tvsh_var "") ;; modify (set_v_me_tvsh_var ""))
    end ;;
    _set_calculation_flag false.

(** [_calculate_from_total]: base and VAT from the total amount. *)
Definition _calculate_from_total : M unit :=
  let! s := get in
  if _calculating s || negb (has_v_me_tvsh_entry s) then ret tt
  else
    _set_calculation_flag true ;;
    let total := _safely_get_decimal (v_me_tvsh_var s) in
    let! denominator := lift (add (Fin 1 0) (vat_rate s)) in
    let! usable :=
      lift (match total with
            | Some t =>
                let* nonneg := ge t zero in
                if nonneg then gt denominator zero else Ok false
            | None => Ok false
            end) in
    match total, usable with
    | Some total, true =>
        let! base := lift (let* q := div total denominator in quantize_decimal (VDec q)) in
        let! vat := lift (let* r := sub total base in quantize_decimal (VDec r)) in
        when (has_v_pa_tvsh_entry s) (modify (set_v_pa_tvsh_var (format_2f base))) ;;
        when (has_tvsh_entry s) (modify (set_tvsh_var (format_2f vat)))
    | _, _ =>
        when (has_v_pa_tvsh_entry s && has_tvsh_entry s
              && not_ (focus_get v_pa_tvsh_entry s) && not_ (focus_get tvsh_entry s))
          (modify (set_v_pa_tvsh_var "") ;; modify (set_tvsh_var ""))
    end ;;
    _set_calculation_flag false.

(** What [_validate_inputs] returns: [(False, None, ...)] after showing
    the errors, or [(True, month_year, base, vat, total)]. *)
Inductive validation :=
| Rejected (errors : list string)
| Accepted (month_year : string) (base vat total : Decimal).

Definition msg_enter_amount : string :=
  "Enter at least one amount (Base, VAT, or Total).".
Definition msg_incomplete : string :=
  "Amounts invalid or incomplete. Check calculations.".
Definition msg_negative : string := "Amounts cannot be negative.".
Definition msg_inconsistent (base vat total : Decimal) : string :=
  "Amounts inconsistent (Base " +:+ format_2f base +:+ " + VAT " +:+ format_2f vat
    +:+ " != Total " +:+ format_2f total +:+ ").".

(** [_validate_inputs]: validates the input fields. *)
Definition _validate_inputs (today : date) (s : app) : result validation :=
  let month_year := get_month_year_str today (year_var s) (month_var s) in
  let base := _safely_get_decimal (v_pa_tvsh_var s) in
  let vat := _safely_get_decimal (tvsh_var s) in
  let total := _safely_get_decimal (v_me_tvsh_var s) in
  match base, vat, total with
  | None, None, None => Ok (Rejected [msg_enter_amount])
  | Some base, Some vat, Some total =>
      let* negative :=
        (let* b := lt base zero in
         if b then Ok true
         else let* v := lt vat zero in
              if v then Ok true else lt total zero) in
      if negative then Ok (Rejected [msg_negative])
      else
        let* inconsistent :=
          (let* sum := add base vat in
           let* diff := sub sum total in
           let* a := abs diff in
           gt a (Fin 1 (-2))) in
        if inconsistent then Ok (Rejected [msg_inconsistent base vat total])
        else
          let* base := quantize_decimal (VDec base) in
          let* vat := quantize_decimal (VDec vat) in
          let* total := quantize_decimal (VDec total) in
          Ok (Accepted month_year base vat total)
  | _, _, _ => Ok (Rejected [msg_incomplete])
  end.

(** ** Ledger aggregator *)

(** [monthly_totals]: company, then transaction type, then column. *)
Abbreviation totals := (gmap string (gmap string (gmap string Decimal))).

(** [monthly_totals[comp][t_type][key] += x] on nested defaultdicts. *)
Definition accumulate (m : totals) (comp t_type key : string) (x : Decimal)
  : result totals :=
  let by_type := default ∅ (m !! comp) in
  let by_column := default ∅ (by_type !! t_type) in
  let* v := add (default zero (by_column !! key)) x in
  Ok (<[comp := <[t_type := <[key := v]> by_column]> by_type]> m).

(** [v == s] for a string [s]. *)
Definition eq_str (v : option pyval) (s : string) : bool :=
  match v with
  | Some (VStr t) => String.eqb t s
  | _ => false
  end.

(** [v in l] for a list of strings [l]; the result is the string. *)
Definition in_list (v : pyval) (l : list string) : option string :=
  match v with
  | VStr t => if existsb (String.eqb t) l then Some t else None
  | _ => None
  end.

(** The body of the loop over [self.transactions]. *)
Definition add_transaction (current_month_year : string) (monthly_totals : totals)
    (trans : gmap string pyval) : result totals :=
  if eq_str (trans !! "month_year") current_month_year then
    match trans !! "company", trans !! "transaction_type" with
    | Some comp, Some t_type =>
        match in_list comp COMPANIES, in_list t_type TRANSACTION_TYPES with
        | Some comp, Some t_type =>
            let* base := quantize_decimal (default (VInt 0) (trans !! "base")) in
            let* vat := quantize_decimal (default (VInt 0) (trans !! "vat")) in
            let* total := quantize_decimal (default (VInt 0) (trans !! "total")) in
            let* m := accumulate monthly_totals comp t_type "v_pa_tvsh" base in
            let* m := accumulate m comp t_type "tvsh" vat in
            accumulate m comp t_type "v_me_tvsh" total
        | _, _ => Ok monthly_totals
        end
    | _, _ => Ok monthly_totals
    end
  else Ok monthly_totals.

Fixpoint recalculate_totals (current_month_year : string)
    (l : list (gmap string pyval)) (monthly_totals : totals) : result totals :=
  match l with
  | [] => Ok monthly_totals
  | trans :: rest =>
      let* m := add_transaction current_month_year monthly_totals trans in
      recalculate_totals current_month_year rest m
  end.

(** [data.get(t_type, {}).get(column, Decimal(0))] *)
Definition column_of (company_month_data : gmap string (gmap string Decimal))
    (t_type column : string) : Decimal :=
  default zero (default ∅ (company_month_data !! t_type) !! column).

(** [self.live_labels[company][row][column].config(...)], done only when
    the label is there. *)
Definition config (company row column : string) (f : label -> label) : M unit :=
  modify (fun s => set_live_labels (alter (alter (alter f column) row) company (live_labels s)) s).

Definition config_text (company row column : string) (t : string) : M unit :=
  config company row column (fun l => {| text := t; bootstyle := bootstyle l |}).

Definition config_bootstyle (company row column : string) (st : style) : M unit :=
  config company row column (fun l => {| text := text l; bootstyle := st |}).

Definition has_label (company row column : string) (s : app) : bool :=
  match live_labels s !! company with
  | Some rows =>
      match rows !! row with
      | Some columns =>
          match columns !! column with
          | Some _ => true
          | None => false
          end
      | None => false
      end
  | None => false
  end.

Definition amount_of (o : option Decimal) : pyval :=
  match o with
  | Some d => VDec d
  | None => VInt 0
  end.

(** The three labels of one transaction type. *)
Definition update_type_labels (company : string)
    (company_month_data : gmap string (gmap string Decimal)) (t_type : string) : M unit :=
  let type_data := default ∅ (company_month_data !! t_type) in
  config_text company t_type "v_me_tvsh" (format_curr (amount_of (type_data !! "v_me_tvsh"))) ;;
  config_text company t_type "v_pa_tvsh" (format_curr (amount_of (type_data !! "v_pa_tvsh"))) ;;
  config_text company t_type "tvsh" (format_curr (amount_of (type_data !! "tvsh"))).

Fixpoint for_each {A} (l : list A) (body : A -> M unit) : M unit :=
  match l with
  | [] => ret tt
  | x :: rest => body x ;; for_each rest body
  end.

(** The summary labels of a company: the surplus carried forward and the
    balance with its style (negative: surplus; positive: due). *)
Definition update_summary_labels (company : string)
    (prev_surplus_carried_forward current_balance : Decimal) : M unit :=
  config_text company "summary" "prev_surplus"
    (format_curr (VDec prev_surplus_carried_forward)) ;;
  let! s := get in
  when (has_label company "summary" "balance" s)
    (config_text company "summary" "balance" (format_curr (VDec current_balance)) ;;
     let! st :=
       lift (let* negative := lt current_balance zero in
             if negative then Ok SUCCESS
             else let* positive := gt current_balance zero in
                  Ok (if positive then DANGER else DEFAULT)) in
     config_bootstyle company "summary" "balance" st).

(** The carry-forward entry of a company for the current month: the
    negative balance is stored, any other balance removes the entry. *)
Definition update_carry_forward (company current_month_year : string)
    (current_balance : Decimal) : M unit :=
  modify (fun s =>
    match carry_forward_data s !! company with
    | Some _ => s
    | None => set_carry_forward_data (<[company := ∅]> (carry_forward_data s)) s
    end) ;;
  let! negative := lift (lt current_balance zero) in
  if negative then
    let! q := lift (quantize_decimal (VDec current_balance)) in
    modify (fun s =>
      let months := default ∅ (carry_forward_data s !! company) in
      set_carry_forward_data
        (<[company := <[current_month_year := q]> months]> (carry_forward_data s)) s)
  else
    modify (fun s =>
      let months := default ∅ (carry_forward_data s !! company) in
      match months !! current_month_year with
      | Some _ =>
          set_carry_forward_data
            (<[company := delete current_month_year months]> (carry_forward_data s)) s
      | None => s
      end).

(** The body of the loop over [COMPANIES]. *)
Definition update_company (monthly_totals : totals)
    (current_month_year prev_month_year : string) (company : string) : M unit :=
  let company_month_data := default ∅ (monthly_totals !! company) in
  let sales_vat := column_of company_month_data "Sales" "tvsh" in
  let imports_vat := column_of company_month_data "Imports" "tvsh" in
  let local_vat := column_of company_month_data "Local" "tvsh" in
  let! s := get in
  let prev_surplus_carried_forward :=
    default zero (default ∅ (carry_forward_data s !! company) !! prev_month_year) in
  let! current_month_net_vat :=
    lift (let* d := sub sales_vat imports_vat in sub d local_vat) in
  let! current_balance := lift (add prev_surplus_carried_forward current_month_net_vat) in
  for_each TRANSACTION_TYPES (update_type_labels company company_month_data) ;;
  update_summary_labels company prev_surplus_carried_forward current_balance ;;
  update_carry_forward company current_month_year current_balance.

(** The [try] block of [_update_live_data_display]. *)
Definition recompute (today : date) : M unit :=
  let! s := get in
  let current_month_year := get_month_year_str today (year_var s) (month_var s) in
  let! prev_month_year :=
    lift (get_prev_month_year_str today (year_var s) (month_var s)) in
  let! monthly_totals :=
    lift (recalculate_totals current_month_year (transactions s) ∅) in
  for_each COMPANIES (update_company monthly_totals current_month_year prev_month_year).

(** [_update_live_data_display]: recalculates and displays totals and
    balance for the selected month; an exception is reported and the run
    ends where it was raised. *)
Definition _update_live_data_display (today : date) (s : app) : app :=
  snd (recompute today s).

(** ** The application at start-up *)

Definition DEFAULT_VAT_RATE : Decimal := Fin 18 (-2).

Definition new_label : label := {| text := format_curr (VInt 0); bootstyle := DEFAULT |}.

(** The labels that [_create_live_data_display] makes for one company. *)
Definition company_labels : gmap string (gmap string label) :=
  <["summary" := <["balance" := new_label]> (<["prev_surplus" := new_label]> ∅)]>
    (foldr (fun trans_type rows =>
              <[trans_type := <["tvsh" := new_label]>
                                (<["v_pa_tvsh" := new_label]>
                                   (<["v_me_tvsh" := new_label]> ∅))]> rows)
           ∅ TRANSACTION_TYPES).

Definition initial_labels : gmap string (gmap string (gmap string label)) :=
  foldr (fun company m => <[company := company_labels]> m) ∅ COMPANIES.

(** [VatEntryApp.__init__] with no data file, after the widgets are made. *)
Definition new_app (today : date) : app :=
  {| vat_rate := DEFAULT_VAT_RATE; _calculating := false;
     company_var := "SOL"; year_var := d_year today;
     month_var := default "January" (MONTH_NAMES !! Z.to_nat (d_month today - 1));
     v_me_tvsh_var := ""; v_pa_tvsh_var := ""; tvsh_var := "";
     has_v_me_tvsh_entry := true; has_v_pa_tvsh_entry := true; has_tvsh_entry := true;
     focus := None; transactions := []; carry_forward_data := ∅;
     live_labels := initial_labels |}.

(** ** Rounding to cents, as the specification words it *)

(** [c * 10^e] in cents, rounded half up. *)
Definition cents (c e : Z) : Z := rescale round_half_up c e (-2).

(** The rounded amount fits the 28 digits of the context. *)
Definition fits (n : Z) : bool := Z.abs n <? 10 ^ prec.

(** Round-half-up to 2 decimal places; an amount whose rounded value does
    not fit the context, and an infinity, become 0. *)
Definition round2 (d : Decimal) : Decimal :=
  match d with
  | Fin c e => if fits (cents c e) then Fin (cents c e) (-2) else zero
  | Inf _ => zero
  | NaN true => zero
  | NaN false => NaN false
  end.

(** ** Notions used to state the properties *)

(** A derivation starts only when no other one is in progress and the
    widgets are there. *)
Definition ready (s : app) : Prop :=
  _calculating s = false /\ has_v_me_tvsh_entry s = true
  /\ has_v_pa_tvsh_entry s = true /\ has_tvsh_entry s = true.

(** What a call that derives nothing does to the two dependent fields
    [d1] and [d2]: it leaves both, or it clears both, and that only when
    no widget of the application has the focus. *)
Definition left_or_cleared (d1 d2 : app -> string) (s s' : app) : Prop :=
  (d1 s' = d1 s /\ d2 s' = d2 s)
  \/ (focus s = None /\ d1 s' = "" /\ d2 s' = "").

Definition base_usable (s : app) : Prop :=
  exists b, _safely_get_decimal (v_pa_tvsh_var s) = Some b /\ ge b zero = Ok true.

Definition vat_usable (s : app) : Prop :=
  exists v, _safely_get_decimal (tvsh_var s) = Some v /\ ge v zero = Ok true
            /\ gt (vat_rate s) zero = Ok true.

Definition total_usable (s : app) : Prop :=
  exists t den, _safely_get_decimal (v_me_tvsh_var s) = Some t
                /\ add (Fin 1 0) (vat_rate s) = Ok den
                /\ ge t zero = Ok true /\ gt den zero = Ok true.

(** Round-half-up to 2 decimal places of a finite number, with no limit
    on the number of digits. *)
Definition round2_exact (d : Decimal) : Decimal :=
  match d with
  | Fin c e => Fin (cents c e) (-2)
  | _ => d
  end.


(** A day on which the sample runs below take place. *)
Definition sample_day : date := {| d_year := 2026; d_month := 11 |}.

(** The entry form with the three amount fields filled in. *)
Definition form (base vat total : string) : app :=
  set_v_pa_tvsh_var base (set_tvsh_var vat (set_v_me_tvsh_var total (new_app sample_day))).





(** ** The ledger, company by company *)

Abbreviation label_rows := (gmap string (gmap string label)).
Abbreviation months := (gmap string Decimal).

(** The carry-forward entry of a company for a period. *)
Definition entry (store : gmap string months) (company period : string) : option Decimal :=
  match store !! company with
  | Some m => m !! period
  | None => None
  end.

(** The label of a company in a row and column of the live data. *)
Definition label_at (labels : gmap string label_rows) (company row column : string)
  : option label :=
  match labels !! company with
  | Some rows =>
      match rows !! row with
      | Some columns => columns !! column
      | None => None
      end
  | None => None
  end.

(** [carryForwardStore[company][period]], 0 when absent. *)
Definition prev_surplus (store : gmap string months) (company period : string) : Decimal :=
  default zero (default ∅ (store !! company) !! period).

(** [netVat = salesVat - importsVat - localVat] of a company's totals. *)
Definition net_vat (company_month_data : gmap string (gmap string Decimal))
  : result Decimal :=
  let* d := sub (column_of company_month_data "Sales" "tvsh")
                (column_of company_month_data "Imports" "tvsh") in
  sub d (column_of company_month_data "Local" "tvsh").

(** [balance = prevSurplus + netVat] *)
Definition company_balance (monthly_totals : totals) (store : gmap string months)
    (prev_month_year company : string) : result Decimal :=
  let* net := net_vat (default ∅ (monthly_totals !! company)) in
  add (prev_surplus store company prev_month_year) net.

Definition negative (d : Decimal) : bool :=
  match cmp d zero with Lt => true | _ => false end.

(** Writing the text or the style of one label of a company. *)
Definition set_text (row column t : string) (rows : label_rows) : label_rows :=
  alter (alter (fun l => {| text := t; bootstyle := bootstyle l |}) column) row rows.

Definition set_bootstyle (row column : string) (st : style) (rows : label_rows)
  : label_rows :=
  alter (alter (fun l => {| text := text l; bootstyle := st |}) column) row rows.

Definition type_texts (data : gmap string (gmap string Decimal)) (t_type : string)
    (rows : label_rows) : label_rows :=
  let type_data := default ∅ (data !! t_type) in
  set_text t_type "tvsh" (format_curr (amount_of (type_data !! "tvsh")))
    (set_text t_type "v_pa_tvsh" (format_curr (amount_of (type_data !! "v_pa_tvsh")))
       (set_text t_type "v_me_tvsh" (format_curr (amount_of (type_data !! "v_me_tvsh")))
          rows)).

Definition totals_texts (data : gmap string (gmap string Decimal)) (prev : Decimal)
    (rows : label_rows) : label_rows :=
  set_text "summary" "prev_surplus" (format_curr (VDec prev))
    (type_texts data "Local" (type_texts data "Imports" (type_texts data "Sales" rows))).

Definition has_balance_label (rows : option label_rows) : bool :=
  match rows with
  | Some r =>
      match r !! "summary" with
      | Some columns =>
          match columns !! "balance" with
          | Some _ => true
          | None => false
          end
      | None => false
      end
  | None => false
  end.

Definition balance_style (bal : Decimal) : result style :=
  let* neg := lt bal zero in
  if neg then Ok SUCCESS
  else let* pos := gt bal zero in Ok (if pos then DANGER else DEFAULT).

Definition months_after (cur : string) (bal : Decimal) (neg : bool) (m : option months)
  : option months :=
  if neg then Some (<[cur := round2 bal]> (default ∅ m))
  else Some (delete cur (default ∅ m)).

(** What the loop body does to the labels and the carry-forward months of
    its company, and whether it raises. *)
Definition company_step (monthly_totals : totals) (cur prev company : string)
    (c : option label_rows * option months)
  : result unit * (option label_rows * option months) :=
  let data := default ∅ (monthly_totals !! company) in
  let prevv := default zero (default ∅ (snd c) !! prev) in
  match net_vat data with
  | Raise e => (Raise e, c)
  | Ok net =>
      match add prevv net with
      | Raise e => (Raise e, c)
      | Ok bal =>
          let rows1 := totals_texts data prevv <$> fst c in
          if has_balance_label (fst c) then
            let rows2 := set_text "summary" "balance" (format_curr (VDec bal)) <$> rows1 in
            match balance_style bal with
            | Raise e => (Raise e, (rows2, snd c))
            | Ok st =>
                let rows3 := set_bootstyle "summary" "balance" st <$> rows2 in
                match lt bal zero with
                | Ok neg => (Ok tt, (rows3, months_after cur bal neg (snd c)))
                | Raise e => (Raise e, (rows3, Some (default ∅ (snd c))))
                end
            end
          else
            match lt bal zero with
            | Ok neg => (Ok tt, (rows1, months_after cur bal neg (snd c)))
            | Raise e => (Raise e, (rows1, Some (default ∅ (snd c))))
            end
      end
  end.

(** The part of the application that belongs to one company. *)
Definition component (company : string) (s : app) : option label_rows * option months :=
  (live_labels s !! company, carry_forward_data s !! company).

(** The attributes that the ledger never writes. *)
Definition same_form (s t : app) : Prop :=
  vat_rate s = vat_rate t /\ _calculating s = _calculating t
  /\ company_var s = company_var t /\ year_var s = year_var t
  /\ month_var s = month_var t /\ v_me_tvsh_var s = v_me_tvsh_var t
  /\ v_pa_tvsh_var s = v_pa_tvsh_var t /\ tvsh_var s = tvsh_var t
  /\ has_v_me_tvsh_entry s = has_v_me_tvsh_entry t
  /\ has_v_pa_tvsh_entry s = has_v_pa_tvsh_entry t
  /\ has_tvsh_entry s = has_tvsh_entry t /\ focus s = focus t
  /\ transactions s = transactions t.

(** A patch sets the text, the style, both or neither of a label. *)
Definition apply_patch (p : option string * option style) (l : label) : label :=
  {| text := default (text l) (fst p); bootstyle := default (bootstyle l) (snd p) |}.

Definition compose_patch (p q : option string * option style)
  : option string * option style :=
  (match fst p with Some t => Some t | None => fst q end,
   match snd p with Some t => Some t | None => snd q end).

Definition patch_rows (P : string -> string -> option string * option style)
    (rows : label_rows) : label_rows :=
  map_imap (fun r columns =>
              Some (map_imap (fun c l => Some (apply_patch (P r c) l)) columns)) rows.

(** A [datetime.date] has a year from 1 to 9999 and a month from 1 to 12. *)
Definition valid_date (d : date) : Prop :=
  1 <= d_year d <= 9999 /\ 1 <= d_month d <= 12.

(** A step that rewrites the labels of company [k] by [G] and its
    carry-forward months by [H]. *)
Definition acts (k : string) (G : label_rows -> label_rows)
    (H : option months -> option months) (s s' : app) : Prop :=
  same_form s s'
  /\ live_labels s' = alter G k (live_labels s)
  /\ carry_forward_data s' = partial_alter H k (carry_forward_data s).

(** A function on the labels of a company that is a patch. *)
Definition patchlike (G : label_rows -> label_rows) : Prop :=
  exists P, forall rows, G rows = patch_rows P rows.

(** The selected period and the run of the ledger on it. *)
Definition current_period (today : date) (s : app) : string :=
  get_month_year_str today (year_var s) (month_var s).

(** A transaction of a company, a period and a transaction type. *)
Definition matches (company period t_type : string) (trans : gmap string pyval) : bool :=
  eq_str (trans !! "company") company
  && eq_str (trans !! "month_year") period
  && eq_str (trans !! "transaction_type") t_type.

(** An amount field of a transaction, as the ledger reads it. *)
Definition amount (trans : gmap string pyval) (field : string) : result Decimal :=
  quantize_decimal (default (VInt 0) (trans !! field)).


(** The carry-forward entry as the specification states it: the negative
    balance rounded to cents is what is stored. *)
Definition carry_forward_as_stated : Prop :=
  forall today s s' prev mt k bal,
    recompute today s = (Ok tt, s') ->
    get_prev_month_year_str today (year_var s) (month_var s) = Ok prev ->
    recalculate_totals (current_period today s) (transactions s) ∅ = Ok mt ->
    k ∈ COMPANIES ->
    company_balance mt (carry_forward_data s) prev k = Ok bal ->
    negative bal = true ->
    entry (carry_forward_data s') k (current_period today s) = Some (round2_exact bal).

(** The month after the selected one, as the form would select it. *)
Definition following_month (year : Z) (month_name : string) : option (Z * string) :=
  match index month_name MONTH_NAMES with
  | Some i =>
      if i =? 11 then Some (year + 1, "January")
      else match MONTH_NAMES !! Z.to_nat (i + 1) with
           | Some name => Some (year, name)
           | None => None
           end
  | None => None
  end.


(** A column of the monthly totals, 0 when nothing was added to it. *)
Definition column (m : totals) (company t_type key : string) : Decimal :=
  column_of (default ∅ (m !! company)) t_type key.


(** A transaction record with the fields that the ledger reads. *)
Definition transaction (company period t_type : string) (base vat total : pyval)
  : gmap string pyval :=
  <["company" := VStr company]>
    (<["month_year" := VStr period]>
       (<["transaction_type" := VStr t_type]>
          (<["base" := base]> (<["vat" := vat]> (<["total" := total]> ∅))))).

(** The application with a month selected, a list of transactions and a
    carry-forward store. *)
Definition ledger_app (year : Z) (month : string) (l : list (gmap string pyval))
    (store : gmap string months) : app :=
  let a := new_app sample_day in
  {| vat_rate := vat_rate a; _calculating := _calculating a;
     company_var := company_var a; year_var := year; month_var := month;
     v_me_tvsh_var := v_me_tvsh_var a; v_pa_tvsh_var := v_pa_tvsh_var a;
     tvsh_var := tvsh_var a; has_v_me_tvsh_entry := has_v_me_tvsh_entry a;
     has_v_pa_tvsh_entry := has_v_pa_tvsh_entry a; has_tvsh_entry := has_tvsh_entry a;
     focus := focus a; transactions := l; carry_forward_data := store;
     live_labels := live_labels a |}.

(** The monthly totals of a run, empty if the recalculation raises. *)
Definition totals_of (today : date) (s : app) : totals :=
  match recalculate_totals (current_period today s) (transactions s) ∅ with
  | Ok mt => mt
  | Raise _ => ∅
  end.

(** January 2024 with two imports of company SOL, of 9e25 of VAT each. *)
Definition huge_imports : app :=
  ledger_app 2024 "January"
    [transaction "SOL" "2024-01" "Imports" (VInt 0) (VInt (9 * 10 ^ 25)) (VInt 0);
     transaction "SOL" "2024-01" "Imports" (VInt 0) (VInt (9 * 10 ^ 25)) (VInt 0)] ∅.

(** January 2024 with one import of company SOL, of 50.00 of VAT, and one
    sale of company HELO, of 30.00 of VAT. *)
Definition january_2024 : app :=
  ledger_app 2024 "January"
    [transaction "SOL" "2024-01" "Imports" (VInt 0) (VStr "50.00") (VInt 0);
     transaction "HELO" "2024-01" "Sales" (VInt 0) (VStr "30.00") (VInt 0)]
    (<["HELO" := <["2024-01" := Fin (-700) (-2)]> ∅]> ∅).

(** The application with the keyboard focus on a widget. *)
Definition with_focus (w : widget) (s : app) : app :=
  {| vat_rate := vat_rate s; _calculating := _calculating s; company_var := company_var s;
     year_var := year_var s; month_var := month_var s;
     v_me_tvsh_var := v_me_tvsh_var s; v_pa_tvsh_var := v_pa_tvsh_var s;
     tvsh_var := tvsh_var s; has_v_me_tvsh_entry := has_v_me_tvsh_entry s;
     has_v_pa_tvsh_entry := has_v_pa_tvsh_entry s; has_tvsh_entry := has_tvsh_entry s;
     focus := Some w; transactions := transactions s;
     carry_forward_data := carry_forward_data s; live_labels := live_labels s |}.
(** ** Further parts of the program *)

(** The label in a row and a column of the labels of one company. *)
Definition cell (rows : label_rows) (row column : string) : option label :=
  match rows !! row with
  | Some columns => columns !! column
  | None => None
  end.

(** The columns of the amounts in the live data. *)
Definition AMOUNT_COLUMNS : list string := ["v_me_tvsh"; "v_pa_tvsh"; "tvsh"].

(** The style of the balance label: a surplus, an amount due, or nothing. *)
Definition style_of_balance (bal : Decimal) : style :=
  match cmp bal zero with
  | Lt => SUCCESS
  | Gt => DANGER
  | Eq => DEFAULT
  end.


(** ** Floats *)

(** [n / d] rounded to the nearest integer, a tie going to the even one
    (the rounding of IEEE 754 arithmetic). *)
Definition div_half_even (n d : Z) : Z :=
  let q := n / d in
  let r := n mod d in
  if (d <? 2 * r) || ((2 * r =? d) && Z.odd q) then q + 1 else q.

(** The integer part of the binary logarithm of [n / d]. *)
Definition floor_log2 (n d : Z) : Z :=
  let k := Z.log2 n - Z.log2 d in
  if (if 0 <=? k then d * 2 ^ k <=? n else d <=? n * 2 ^ (- k)) then k else k - 1.

(** The double nearest to the positive number [n / d]: 53 bits of
    mantissa, exponents from -1074 (subnormal numbers) to 971, and
    infinity from [2^1024] on. *)
Definition double_of_ratio (n d : Z) : pyfloat :=
  let e := Z.max (floor_log2 n d - 52) (-1074) in
  let m := if 0 <=? e then div_half_even n (d * 2 ^ e)
           else div_half_even (n * 2 ^ (- e)) d in
  if (971 <? e) || ((e =? 971) && (2 ^ 53 <=? m)) then FInf false else FFin m e.

(** [float(d)] for a Decimal: the nearest double; a signaling NaN raises
    ValueError. *)
Definition float_of_Decimal (d : Decimal) : result pyfloat :=
  match d with
  | NaN true => Raise ValueError
  | NaN false => Ok FNan
  | Inf neg => Ok (FInf neg)
  | Fin c e =>
      if c =? 0 then Ok (FFin 0 0)
      else
        let f := if 0 <=? e then double_of_ratio (Z.abs c * 10 ^ e) 1
                 else double_of_ratio (Z.abs c) (10 ^ (- e)) in
        Ok (match f with
            | FFin m x => FFin (Z.sgn c * m) x
            | FInf _ => FInf (c <? 0)
            | FNan => FNan
            end)
  end.

(** [format(f, ".2f")] for a float: the exact value rounded half even. *)
Definition format_float_2f (f : pyfloat) : string :=
  match f with
  | FFin _ _ => format_2f (Decimal_of_float f)
  | FInf neg => if neg then "-inf" else "inf"
  | FNan => "nan"
  end.

(** The record that [_add_or_update_entry] makes of the validated
    amounts and the selections of the form (the [id] is set afterwards). *)
Definition entry_data (company month_year transaction_type invoice_no counterparty : string)
    (base_val vat_val total_val : Decimal) : result (gmap string pyval) :=
  let str_strip t := string_of_list_ascii (strip (list_ascii_of_string t)) in
  let* base := float_of_Decimal base_val in
  let* vat := float_of_Decimal vat_val in
  let* total := float_of_Decimal total_val in
  Ok (<["company" := VStr company]>
        (<["month_year" := VStr month_year]>
           (<["transaction_type" := VStr transaction_type]>
              (<["invoice_no" := VStr (str_strip invoice_no)]>
                 (<["counterparty" := VStr (str_strip counterparty)]>
                    (<["base" := VFloat base]>
                       (<["vat" := VFloat vat]> (<["total" := VFloat total]> ∅)))))))).

(** ** Saving and loading *)

Definition zeros (n : Z) : list ascii := repeat "0"%char (Z.to_nat n).

(** [str(d)]: the scientific string of a Decimal. *)
Definition Decimal_str (d : Decimal) : string :=
  match d with
  | Inf neg => if neg then "-Infinity" else "Infinity"
  | NaN signaling => if signaling then "sNaN" else "NaN"
  | Fin c e =>
      let int := list_ascii_of_string (pretty (Z.abs c)) in
      let len := Z.of_nat (length int) in
      let leftdigits := e + len in
      let dotplace := if (e <=? 0) && (-6 <? leftdigits) then leftdigits else 1 in
      let intpart :=
        if dotplace <=? 0 then ["0"%char]
        else if len <=? dotplace then (int ++ zeros (dotplace - len))%list
        else take (Z.to_nat dotplace) int in
      let fracpart :=
        if dotplace <=? 0 then ("."%char :: zeros (- dotplace) ++ int)%list
        else if len <=? dotplace then []
        else "."%char :: drop (Z.to_nat dotplace) int in
      let exp :=
        if leftdigits =? dotplace then []
        else "E"%char :: list_ascii_of_string
                           ((if 0 <=? leftdigits - dotplace then "+" else "")
                            +:+ pretty (leftdigits - dotplace)) in
      string_of_list_ascii
        ((if c <? 0 then ["-"%char] else []) ++ intpart ++ fracpart ++ exp)
  end.

(** A JSON document as [json.load] returns it. *)
#[warnings="-register-all"]
Inductive json :=
| JNull
| JBool (b : bool)
| JInt (n : Z)
| JFloat (f : pyfloat)
| JStr (s : string)
| JArr (l : list json)
| JObj (m : gmap string json).

Definition pyval_of_json (j : json) : pyval :=
  match j with
  | JNull => VNone
  | JBool b => VBool b
  | JInt n => VInt n
  | JFloat f => VFloat f
  | JStr s => VStr s
  | JArr _ | JObj _ => VOther
  end.

(** The ["carry_forward"] member that [_save_data] writes: the months of
    every company that has any, each surplus as its string. *)
Definition save_carry_forward (store : gmap string months) : json :=
  JObj ((fun months : months => JObj ((fun d => JStr (Decimal_str d)) <$> months))
          <$> filter (fun kv => kv.2 <> ∅) store).

(** An [int] of the document; a [bool] is one too. *)
Definition json_int (j : json) : option Z :=
  match j with
  | JInt n => Some n
  | JBool b => Some (if b then 1 else 0)
  | _ => None
  end.

(** The coefficient of [Decimal([sign, digits, exponent])]: a list of
    integers from 0 to 9. *)
Definition json_digits (j : json) : option (list Z) :=
  match j with
  | JArr l => mapM (fun d => json_int d ≫= fun n =>
                               if (0 <=? n) && (n <=? 9) then Some n else None) l
  | _ => None
  end.

(** [Decimal(value)] for a list, as CPython's [_decimal] reads it: a sign
    0 or 1, the digits, and an exponent that fits a machine word or one
    of the strings F (infinity), n (NaN) and N (signaling NaN); [None]
    stands for the ValueError or OverflowError of any other list. *)
Definition Decimal_of_list (l : list json) : option Decimal :=
  match l with
  | [sign; digits; exponent] =>
      s ← json_int sign;
      ds ← json_digits digits;
      if negb ((s =? 0) || (s =? 1)) then None
      else
        match exponent with
        | JStr t =>
            if String.eqb t "F" then Some (Inf (s =? 1))
            else if String.eqb t "n" then Some (NaN false)
            else if String.eqb t "N" then Some (NaN true)
            else None
        | _ =>
            x ← json_int exponent;
            if (- 2 ^ 63 <=? x) && (x <? 2 ^ 63)
            then Some (Fin ((if s =? 1 then -1 else 1)
                            * fold_left (fun acc d => 10 * acc + d) ds 0) x)
            else None
        end
  | _ => None
  end.

(** [Decimal(surplus_str)] under the bare [except] of [_load_data]:
    [None] when it raises. *)
Definition Decimal_of_json (v : json) : option Decimal :=
  match v with
  | JArr l => Decimal_of_list l
  | _ => match Decimal_of (pyval_of_json v) with
         | Ok d => Some d
         | Raise _ => None
         end
  end.

(** The months of one company that [_load_data] keeps: the values that
    [Decimal] accepts. *)
Definition load_months (m : gmap string json) : months := omap Decimal_of_json m.

(** The carry-forward store that [_load_data] builds from the
    ["carry_forward"] member: a company is there once one of its months
    has been loaded. *)
Definition load_carry_forward (loaded_carry_forward : json) : gmap string months :=
  match loaded_carry_forward with
  | JObj companies =>
      omap (fun months =>
              match months with
              | JObj m => if decide (load_months m = ∅) then None else Some (load_months m)
              | _ => None
              end) companies
  | _ => ∅
  end.


(** * Properties

    ** The model on sample values *)

Example ndigits_0 : ndigits 0 = 1. Proof. reflexivity. Qed.
Example ndigits_999 : ndigits (-999) = 3. Proof. reflexivity. Qed.
Example ndigits_1000 : ndigits 1000 = 4. Proof. reflexivity. Qed.
Example mul_100_018 : mul (Fin 10000 (-2)) (Fin 18 (-2)) = Ok (Fin 180000 (-4)).
Proof. reflexivity. Qed.
Example quantize_18 : quantize (Fin 180000 (-4)) = Ok (Fin 1800 (-2)).
Proof. reflexivity. Qed.
Example div_1_3 : div (Fin 1 0) (Fin 3 0) = Ok (Fin 3333333333333333333333333333 (-28)).
Proof. vm_compute. reflexivity. Qed.
Example div_2_3 : div (Fin 2 0) (Fin 3 0) = Ok (Fin 6666666666666666666666666667 (-28)).
Proof. vm_compute. reflexivity. Qed.
Example div_118 : div (Fin 11800 (-2)) (Fin 118 (-2)) = Ok (Fin 100 0).
Proof. vm_compute. reflexivity. Qed.
Example quantize_big : quantize (Fin 18 25) = Raise InvalidOperation.
Proof. vm_compute. reflexivity. Qed.
Example quantize_neg_half : quantize (Fin (-5) (-3)) = Ok (Fin (-1) (-2)).
Proof. vm_compute. reflexivity. Qed.
Example parse_10 : Decimal_of_str "10.00" = Some (Fin 1000 (-2)). Proof. reflexivity. Qed.
Example parse_exp : Decimal_of_str " -1_0.5e+3 " = Some (Fin (-105) 2). Proof. reflexivity. Qed.
Example parse_dot5 : Decimal_of_str ".5" = Some (Fin 5 (-1)). Proof. reflexivity. Qed.
Example parse_1dot : Decimal_of_str "1." = Some (Fin 1 0). Proof. reflexivity. Qed.
Example parse_dot : Decimal_of_str "." = None. Proof. reflexivity. Qed.
Example parse_word : Decimal_of_str "abc" = None. Proof. reflexivity. Qed.
Example parse_1e : Decimal_of_str "1e" = None. Proof. reflexivity. Qed.
Example parse_inf : Decimal_of_str "-Infinity" = Some (Inf true). Proof. reflexivity. Qed.
Example parse_nan : Decimal_of_str "nan" = Some (NaN false). Proof. reflexivity. Qed.
Example format_18 : format_2f (Fin 1800 (-2)) = "18.00". Proof. reflexivity. Qed.
Example format_0 : format_2f (Fin 0 0) = "0.00". Proof. reflexivity. Qed.
Example format_commas : format_fixed2 true (Fin (-123456705) (-2)) = "-1,234,567.05".
Proof. reflexivity. Qed.
Example format_commas3 : format_fixed2 true (Fin 12345600 (-2)) = "123,456.00".
Proof. reflexivity. Qed.
Example quantize_decimal_float :
  quantize_decimal (VFloat (FFin 4728779608739021 (-52))) = Ok (Fin 105 (-2)).
Proof. vm_compute. reflexivity. Qed.
Example quantize_decimal_word : quantize_decimal (VStr "n/a") = Ok zero.
Proof. reflexivity. Qed.
Example quantize_decimal_huge : quantize_decimal (VDec (Fin 1 27)) = Ok zero.
Proof. vm_compute. reflexivity. Qed.
Example prev_2024_01 :
  get_prev_month_year_str {| d_year := 2026; d_month := 11 |} 2024 "January" = Ok "2023-12".
Proof. vm_compute. reflexivity. Qed.
Example cur_2024_01 :
  get_month_year_str {| d_year := 2026; d_month := 11 |} 2024 "January" = "2024-01".
Proof. vm_compute. reflexivity. Qed.
Example format_curr_neg : format_curr (VDec (Fin (-5000) (-2))) = "€-50.00".
Proof. vm_compute. reflexivity. Qed.

(** ** Properties of the decimal arithmetic *)

Section DecimalFacts.

Lemma ndigits_aux_spec (fuel : nat) (n : Z) :
  0 < n -> n < 10 ^ Z.of_nat fuel ->
  1 <= ndigits_aux fuel n /\
  10 ^ (ndigits_aux fuel n - 1) <= n < 10 ^ ndigits_aux fuel n.
Proof.
  revert n. induction fuel as [|f IH]; intros n Hpos Hlt.
  - simpl in Hlt. lia.
  - cbn [ndigits_aux]. destruct (Z.ltb_spec n 10) as [Hs|Hs].
    + simpl. lia.
    + assert (Hq : 0 < n / 10) by (apply Z.div_str_pos; lia).
      assert (Hq' : n / 10 < 10 ^ Z.of_nat f).
      { apply Z.div_lt_upper_bound; [lia|].
        rewrite Nat2Z.inj_succ, Z.pow_succ_r in Hlt by lia. lia. }
      destruct (IH _ Hq Hq') as (H1 & H2 & H3).
      set (k := ndigits_aux f (n / 10)) in *.
      split; [lia|].
      replace (1 + k - 1) with (Z.succ (k - 1)) by lia.
      replace (1 + k) with (Z.succ k) by lia.
      rewrite !Z.pow_succ_r by lia.
      pose proof (Z.div_mod n 10 ltac:(lia)) as Hdm.
      pose proof (Z.mod_pos_bound n 10 ltac:(lia)) as Hm.
      lia.
Qed.

Lemma ndigits_spec (c : Z) :
  c <> 0 ->
  1 <= ndigits c /\ 10 ^ (ndigits c - 1) <= Z.abs c < 10 ^ ndigits c.
Proof.
  intros Hc. unfold ndigits. apply ndigits_aux_spec; [lia|].
  rewrite Nat2Z.inj_succ, Z2Nat.id by apply Z.log2_nonneg.
  destruct (Z.log2_spec (Z.abs c) ltac:(lia)) as [_ Hup].
  eapply Z.lt_le_trans; [exact Hup|].
  apply Z.pow_le_mono_l. lia.
Qed.

Lemma ndigits_pos (c : Z) : 1 <= ndigits c.
Proof.
  destruct (Z.eq_dec c 0) as [->|Hc]; [reflexivity|].
  apply ndigits_spec, Hc.
Qed.

(** The coefficient has at most [k] digits exactly when it is below [10^k]. *)
Lemma ndigits_le (c k : Z) : 1 <= k -> (ndigits c <= k <-> Z.abs c < 10 ^ k).
Proof.
  intros Hk. destruct (Z.eq_dec c 0) as [->|Hc].
  - change (ndigits 0) with 1. simpl Z.abs.
    split; intros _; [apply Z.pow_pos_nonneg; lia | lia].
  - destruct (ndigits_spec c Hc) as (H1 & H2 & H3). split; intros H.
    + eapply Z.lt_le_trans; [exact H3|]. apply Z.pow_le_mono_r; lia.
    + destruct (Z.le_gt_cases (ndigits c) k) as [|Hgt]; [assumption|].
      exfalso.
      assert (10 ^ k <= 10 ^ (ndigits c - 1)) by (apply Z.pow_le_mono_r; lia).
      lia.
Qed.

(** A result that fits the precision and the exponent range is exact. *)
Lemma fix_exact (c e : Z) :
  c <> 0 -> ndigits c <= prec -> Etiny <= e -> ndigits c + e - prec <= Etop ->
  fix_ c e = Ok (Fin c e).
Proof.
  intros Hne Hd He Htop. unfold fix_.
  rewrite (proj2 (Z.eqb_neq c 0) Hne). cbv zeta.
  rewrite (proj2 (Z.ltb_ge Etop (ndigits c + e - prec))) by lia.
  rewrite (proj2 (Z.ltb_ge e (Z.max (ndigits c + e - prec) Etiny))) by lia.
  reflexivity.
Qed.

(** A two-decimal amount of at most 28 digits is left as it is. *)
Lemma fix_cents (c : Z) : Z.abs c < 10 ^ 28 -> fix_ c (-2) = Ok (Fin c (-2)).
Proof.
  intros Hc. destruct (Z.eq_dec c 0) as [->|Hne]; [reflexivity|].
  assert (Hd : ndigits c <= 28) by (apply ndigits_le; lia).
  pose proof (ndigits_pos c) as Hp.
  apply fix_exact; unfold Etop, Etiny, Emax, Emin, prec in *; lia.
Qed.

Lemma cents_0 (e : Z) : cents 0 e = 0.
Proof.
  unfold cents, rescale. destruct (-2 <=? e); [reflexivity|].
  unfold round_half_up. reflexivity.
Qed.

Lemma round_half_up_abs (c k : Z) :
  c <> 0 -> 0 <= k -> Z.abs c / 10 ^ k <= Z.abs (round_half_up c k).
Proof.
  intros Hc Hk. unfold round_half_up.
  assert (Hp : 0 < 10 ^ k) by (apply Z.pow_pos_nonneg; lia).
  assert (Hq : 0 <= Z.abs c / 10 ^ k) by (apply Z.div_pos; lia).
  set (q := Z.abs c / 10 ^ k) in *.
  set (q' := if 10 ^ k <=? 2 * (Z.abs c mod 10 ^ k) then q + 1 else q).
  assert (Hq' : q <= q') by (subst q'; destruct (_ <=? _); lia).
  destruct c as [|p|p]; [congruence| |]; cbn [Z.sgn]; lia.
Qed.

(** A number of [n] digits and exponent [e] is at least [10^(n+e+1)] cents. *)
Lemma cents_lower (c e : Z) :
  c <> 0 -> 0 <= ndigits c + e + 1 -> 10 ^ (ndigits c + e + 1) <= Z.abs (cents c e).
Proof.
  intros Hc Hn. destruct (ndigits_spec c Hc) as (H1 & H2 & _).
  unfold cents, rescale. destruct (Z.leb_spec (-2) e) as [He|He].
  - rewrite Z.abs_mul, (Z.abs_eq (10 ^ _)) by (apply Z.pow_nonneg; lia).
    replace (ndigits c + e + 1) with ((ndigits c - 1) + (e - -2)) by lia.
    rewrite Z.pow_add_r by lia.
    apply Z.mul_le_mono_nonneg_r; [apply Z.pow_nonneg; lia | exact H2].
  - etransitivity; [|apply round_half_up_abs; lia].
    apply Z.div_le_lower_bound; [apply Z.pow_pos_nonneg; lia|].
    rewrite <- Z.pow_add_r by lia.
    replace (-2 - e + (ndigits c + e + 1)) with (ndigits c - 1) by lia.
    exact H2.
Qed.

(** [quantize] rounds half up to cents, and raises exactly when the
    rounded coefficient needs more than 28 digits. *)
Lemma quantize_Fin (c e : Z) :
  quantize (Fin c e) =
  if fits (cents c e) then Ok (Fin (cents c e) (-2)) else Raise InvalidOperation.
Proof.
  unfold quantize, fits. destruct (Z.eqb_spec c 0) as [->|Hc].
  - rewrite cents_0. reflexivity.
  - cbv zeta. fold (cents c e).
    pose proof (ndigits_pos c) as Hp.
    assert (Hbig : 28 <= ndigits c + e + 1 -> (Z.abs (cents c e) <? 10 ^ prec) = false).
    { intros Hn. apply Z.ltb_ge.
      etransitivity; [|apply cents_lower; [exact Hc | lia]].
      apply Z.pow_le_mono_r; unfold prec; lia. }
    destruct (Z.ltb_spec Emax (e + ndigits c - 1)) as [H1|H1].
    { rewrite Hbig; [reflexivity | unfold Emax in H1; lia]. }
    destruct (Z.ltb_spec prec (e + ndigits c - 1 + 2 + 1)) as [H2|H2].
    { rewrite Hbig; [reflexivity | unfold prec in H2; lia]. }
    destruct (Z.ltb_spec prec (ndigits (cents c e))) as [H3|H3].
    + assert (Hn : ~ Z.abs (cents c e) < 10 ^ prec).
      { intros Hlt. apply (ndigits_le _ prec) in Hlt; unfold prec in *; lia. }
      destruct (Z.ltb_spec (Z.abs (cents c e)) (10 ^ prec)); [contradiction | reflexivity].
    + apply (ndigits_le _ prec) in H3; [|unfold prec; lia].
      rewrite (proj2 (Z.ltb_lt _ _) H3). apply fix_cents. exact H3.
Qed.

(** [quantize_decimal] never raises, and on a Decimal it is [round2]. *)
Lemma quantize_decimal_VDec (d : Decimal) : quantize_decimal (VDec d) = Ok (round2 d).
Proof.
  unfold quantize_decimal, Decimal_of, bind.
  destruct d as [c e|neg|[|]]; try reflexivity.
  rewrite quantize_Fin. unfold round2. destruct (fits (cents c e)); reflexivity.
Qed.

Lemma quantize_decimal_total (v : pyval) : exists d, quantize_decimal v = Ok d.
Proof.
  destruct v as [|b|n|f|s|d|]; try (eexists; reflexivity).
  - unfold quantize_decimal, Decimal_of, bind. rewrite quantize_Fin.
    destruct (fits _); eexists; reflexivity.
  - unfold quantize_decimal, Decimal_of, bind. rewrite quantize_Fin.
    destruct (fits _); eexists; reflexivity.
  - change (quantize_decimal (VFloat f)) with (quantize_decimal (VDec (Decimal_of_float f))).
    rewrite quantize_decimal_VDec. eexists; reflexivity.
  - unfold quantize_decimal, Decimal_of, bind.
    destruct (Decimal_of_str s) as [d|]; [|eexists; reflexivity].
    change (match quantize d with
            | Ok r => Ok r
            | Raise TypeError | Raise InvalidOperation | Raise ValueError => Ok zero
            | Raise e => Raise e
            end) with (quantize_decimal (VDec d)).
    rewrite quantize_decimal_VDec. eexists; reflexivity.
  - rewrite quantize_decimal_VDec. eexists; reflexivity.
Qed.

Lemma cents_two_decimal (n : Z) : cents n (-2) = n.
Proof. unfold cents, rescale. cbn. lia. Qed.

(** A two-decimal amount that fits is its own rounding. *)
Lemma round2_two_decimal (n : Z) : Z.abs n < 10 ^ 28 -> round2 (Fin n (-2)) = Fin n (-2).
Proof.
  intros Hn. unfold round2, fits. rewrite cents_two_decimal.
  rewrite (proj2 (Z.ltb_lt _ _)) by exact Hn. reflexivity.
Qed.

(** Adding a two-decimal amount to a number of at most two decimals is
    exact as long as the sum fits the precision. *)
Lemma add_two_decimal (c e b : Z) :
  -2 <= e -> Z.abs (c * 10 ^ (e + 2) + b) < 10 ^ 28 ->
  add (Fin c e) (Fin b (-2)) = Ok (Fin (c * 10 ^ (e + 2) + b) (-2)).
Proof.
  intros He Hfit. unfold add, check_nans.
  rewrite Z.min_r by lia.
  replace (e - -2) with (e + 2) by lia.
  replace (-2 - -2) with 0 by lia.
  rewrite Z.pow_0_r, Z.mul_1_r. apply fix_cents, Hfit.
Qed.

Lemma sub_two_decimal (c e b : Z) :
  -2 <= e -> Z.abs (c * 10 ^ (e + 2) - b) < 10 ^ 28 ->
  sub (Fin c e) (Fin b (-2)) = Ok (Fin (c * 10 ^ (e + 2) - b) (-2)).
Proof.
  intros He Hfit. unfold sub, negate.
  replace (c * 10 ^ (e + 2) - b) with (c * 10 ^ (e + 2) + - b) in * by lia.
  apply add_two_decimal; assumption.
Qed.

End DecimalFacts.

(** ** The reconciliation engine *)

Ltac unfold_M :=
  unfold bindM, get, lift, ret, modify, when, _set_calculation_flag, focus_get in *.

Section Engine.


Ltac case_result r :=
  let b := fresh "b" in let e := fresh "e" in
  destruct r as [b|e] eqn:?; [destruct b|]; cbn [bind].

Lemma calculate_from_base_underived (s : app) :
  ~ base_usable s ->
  left_or_cleared tvsh_var v_me_tvsh_var s (snd (_calculate_from_base s)).
Proof.
  intros Hun. unfold left_or_cleared, _calculate_from_base. unfold_M.
  destruct (_calculating s); [left; auto|].
  destruct (has_v_pa_tvsh_entry s); [|left; auto].
  cbn [orb negb set_calculating v_pa_tvsh_var].
  destruct (_safely_get_decimal (v_pa_tvsh_var s)) as [b|] eqn:Hb.
  - case_result (ge b zero).
    + exfalso. apply Hun. exists b. auto.
    + cbn. destruct (has_tvsh_entry s), (has_v_me_tvsh_entry s), (focus s);
        cbn; auto.
    + cbn. auto.
  - cbn. destruct (has_tvsh_entry s), (has_v_me_tvsh_entry s), (focus s);
      cbn; auto.
Qed.

Lemma calculate_from_vat_underived (s : app) :
  ~ vat_usable s ->
  left_or_cleared v_pa_tvsh_var v_me_tvsh_var s (snd (_calculate_from_vat s)).
Proof.
  intros Hun. unfold left_or_cleared, _calculate_from_vat. unfold_M.
  destruct (_calculating s); [left; auto|].
  destruct (has_tvsh_entry s); [|left; auto].
  cbn [orb negb set_calculating tvsh_var vat_rate].
  destruct (_safely_get_decimal (tvsh_var s)) as [v|] eqn:Hv.
  - case_result (ge v zero).
    + case_result (gt (vat_rate s) zero).
      * exfalso. apply Hun. exists v. auto.
      * cbn. destruct (has_v_pa_tvsh_entry s), (has_v_me_tvsh_entry s), (focus s);
          cbn; auto.
      * cbn. auto.
    + cbn. destruct (has_v_pa_tvsh_entry s), (has_v_me_tvsh_entry s), (focus s);
        cbn; auto.
    + cbn. auto.
  - cbn. destruct (has_v_pa_tvsh_entry s), (has_v_me_tvsh_entry s), (focus s);
      cbn; auto.
Qed.

Lemma calculate_from_total_underived (s : app) :
  ~ total_usable s ->
  left_or_cleared v_pa_tvsh_var tvsh_var s (snd (_calculate_from_total s)).
Proof.
  intros Hun. unfold left_or_cleared, _calculate_from_total. unfold_M.
  destruct (_calculating s); [left; auto|].
  destruct (has_v_me_tvsh_entry s); [|left; auto].
  cbn [orb negb set_calculating v_me_tvsh_var vat_rate].
  destruct (add (Fin 1 0) (vat_rate s)) as [den|e] eqn:Hden; [|cbn; auto].
  destruct (_safely_get_decimal (v_me_tvsh_var s)) as [t|] eqn:Ht.
  - case_result (ge t zero).
    + case_result (gt den zero).
      * exfalso. apply Hun. exists t, den. auto.
      * cbn. destruct (has_v_pa_tvsh_entry s), (has_tvsh_entry s), (focus s);
          cbn; auto.
      * cbn. auto.
    + cbn. destruct (has_v_pa_tvsh_entry s), (has_tvsh_entry s), (focus s);
        cbn; auto.
    + cbn. auto.
  - cbn. destruct (has_v_pa_tvsh_entry s), (has_tvsh_entry s), (focus s);
      cbn; auto.
Qed.



End Engine.

(** ** The ledger aggregator *)

Section Labels.

Lemma apply_patch_none (l : label) : apply_patch (None, None) l = l.
Proof. destruct l; reflexivity. Qed.

Lemma apply_patch_compose p q (l : label) :
  apply_patch p (apply_patch q l) = apply_patch (compose_patch p q) l.
Proof. destruct p as [[?|] [?|]], q as [[?|] [?|]], l; reflexivity. Qed.

Lemma compose_patch_idem p : compose_patch p p = p.
Proof. destruct p as [[?|] [?|]]; reflexivity. Qed.

Lemma patch_rows_lookup P (rows : label_rows) (r : string) :
  patch_rows P rows !! r
  = (fun columns => map_imap (fun c l => Some (apply_patch (P r c) l)) columns)
      <$> rows !! r.
Proof.
  unfold patch_rows. rewrite map_lookup_imap.
  destruct (rows !! r); reflexivity.
Qed.

Lemma patch_rows_compose P Q (rows : label_rows) :
  patch_rows P (patch_rows Q rows)
  = patch_rows (fun r c => compose_patch (P r c) (Q r c)) rows.
Proof.
  apply map_eq. intros r. rewrite !patch_rows_lookup.
  destruct (rows !! r) as [columns|]; [|reflexivity]. cbn. f_equal.
  apply map_eq. intros c. rewrite !map_lookup_imap.
  destruct (columns !! c) as [l|]; [|reflexivity]. cbn.
  f_equal. apply apply_patch_compose.
Qed.

Lemma patch_rows_idem P (rows : label_rows) :
  patch_rows P (patch_rows P rows) = patch_rows P rows.
Proof.
  rewrite patch_rows_compose. apply map_eq. intros r. rewrite !patch_rows_lookup.
  destruct (rows !! r) as [columns|]; [|reflexivity]. cbn. f_equal.
  apply map_eq. intros c. rewrite !map_lookup_imap.
  destruct (columns !! c) as [l|]; [|reflexivity]. cbn.
  rewrite compose_patch_idem. reflexivity.
Qed.

Lemma alter_label_patch (f : label -> label) p row column (rows : label_rows) :
  (forall l, f l = apply_patch p l) ->
  alter (alter f column) row rows
  = patch_rows (fun r c => if decide (r = row /\ c = column) then p else (None, None)) rows.
Proof.
  intros Hf. apply map_eq. intros r. rewrite patch_rows_lookup, lookup_alter.
  destruct (decide (row = r)) as [->|Hne].
  - destruct (rows !! r) as [columns|]; [|reflexivity]. cbn. f_equal.
    apply map_eq. intros c. rewrite map_lookup_imap, lookup_alter.
    destruct (decide (column = c)) as [->|Hc].
    + destruct (columns !! c) as [l|]; [|reflexivity]. cbn.
      rewrite decide_True by auto. rewrite Hf. reflexivity.
    + destruct (columns !! c) as [l|]; [|reflexivity]. cbn.
      rewrite decide_False by (intros [_ E]; congruence).
      rewrite apply_patch_none. reflexivity.
  - destruct (rows !! r) as [columns|]; [|reflexivity]. cbn. f_equal.
    apply map_eq. intros c. rewrite map_lookup_imap.
    destruct (columns !! c) as [l|]; [|reflexivity]. cbn.
    rewrite decide_False by (intros [E _]; congruence).
    rewrite apply_patch_none. reflexivity.
Qed.

Lemma set_text_patch row column t (rows : label_rows) :
  set_text row column t rows
  = patch_rows (fun r c => if decide (r = row /\ c = column)
                           then (Some t, None) else (None, None)) rows.
Proof. apply alter_label_patch. intros []; reflexivity. Qed.

Lemma set_bootstyle_patch row column st (rows : label_rows) :
  set_bootstyle row column st rows
  = patch_rows (fun r c => if decide (r = row /\ c = column)
                           then (None, Some st) else (None, None)) rows.
Proof. apply alter_label_patch. intros []; reflexivity. Qed.

(** The structure of the labels is never changed, only their contents. *)
Lemma has_balance_label_patch P (rows : option label_rows) :
  has_balance_label (patch_rows P <$> rows) = has_balance_label rows.
Proof.
  destruct rows as [rows|]; [|reflexivity]. cbn.
  rewrite patch_rows_lookup. destruct (rows !! "summary") as [columns|]; [|reflexivity].
  cbn. rewrite map_lookup_imap. destruct (columns !! "balance"); reflexivity.
Qed.

End Labels.

(** Every write of the loop body is a patch of the labels. *)
Ltac patchify :=
  unfold totals_texts, type_texts;
  rewrite ?set_text_patch, ?set_bootstyle_patch, ?patch_rows_compose.

Section CompanyStep.

Lemma same_form_refl (s : app) : same_form s s.
Proof. unfold same_form. repeat split. Qed.

Lemma same_form_trans (s t u : app) : same_form s t -> same_form t u -> same_form s u.
Proof. unfold same_form. intuition congruence. Qed.

(** Two application objects are equal when they agree on the form and on
    every company. *)
Lemma app_ext (s t : app) :
  same_form s t -> (forall k, component k s = component k t) -> s = t.
Proof.
  intros Hf Hc.
  assert (Hl : live_labels s = live_labels t).
  { apply map_eq. intros k. specialize (Hc k). unfold component in Hc. congruence. }
  assert (Hm : carry_forward_data s = carry_forward_data t).
  { apply map_eq. intros k. specialize (Hc k). unfold component in Hc. congruence. }
  unfold same_form in Hf. destruct s, t. cbn in *.
  destruct Hf as (? & ? & ? & ? & ? & ? & ? & ? & ? & ? & ? & ? & ?).
  subst. reflexivity.
Qed.

Lemma acts_id k (s : app) : acts k id id s s.
Proof.
  split; [apply same_form_refl|]. split.
  - apply map_eq. intros j. rewrite lookup_alter.
    destruct (decide (k = j)) as [->|]; [|reflexivity].
    destruct (live_labels s !! j); reflexivity.
  - apply map_eq. intros j. rewrite lookup_partial_alter.
    destruct (decide (k = j)) as [->|]; reflexivity.
Qed.

Lemma acts_trans k G1 H1 G2 H2 (s t u : app) :
  acts k G1 H1 s t -> acts k G2 H2 t u -> acts k (G2 ∘ G1) (H2 ∘ H1) s u.
Proof.
  intros (F1 & L1 & C1) (F2 & L2 & C2). split; [eapply same_form_trans; eassumption|].
  split.
  - rewrite L2, L1. apply map_eq. intros j.
    destruct (decide (k = j)) as [->|Hne].
    + rewrite !lookup_alter_eq. destruct (live_labels s !! j); reflexivity.
    + rewrite !lookup_alter_ne by exact Hne. reflexivity.
  - rewrite C2, C1. apply map_eq. intros j.
    destruct (decide (k = j)) as [->|Hne].
    + rewrite !lookup_partial_alter_eq. reflexivity.
    + rewrite !lookup_partial_alter_ne by exact Hne. reflexivity.
Qed.

Lemma acts_component k G H (s s' : app) :
  acts k G H s s' ->
  component k s' = (G <$> live_labels s !! k, H (carry_forward_data s !! k))
  /\ (forall j, j <> k -> component j s' = component j s).
Proof.
  intros (_ & L & C). unfold component. rewrite L, C. split.
  - rewrite lookup_alter_eq, lookup_partial_alter_eq. reflexivity.
  - intros j Hj. rewrite lookup_alter_ne, lookup_partial_alter_ne by congruence.
    reflexivity.
Qed.

Lemma same_form_set_live_labels L (s : app) : same_form s (set_live_labels L s).
Proof. unfold same_form. repeat split. Qed.

Lemma same_form_set_carry_forward_data C (s : app) :
  same_form s (set_carry_forward_data C s).
Proof. unfold same_form. repeat split. Qed.

Lemma acts_ext k G G' H H' (s s' : app) :
  (forall r, G r = G' r) -> (forall m, H m = H' m) -> acts k G H s s' -> acts k G' H' s s'.
Proof.
  intros HG HH (F & L & C). split; [exact F|]. split.
  - rewrite L. apply map_eq. intros j. rewrite !lookup_alter.
    destruct (decide (k = j)); [|reflexivity].
    destruct (live_labels s !! k); cbn; [f_equal; apply HG | reflexivity].
  - rewrite C. apply map_eq. intros j. rewrite !lookup_partial_alter.
    destruct (decide (k = j)); [apply HH | reflexivity].
Qed.

Local Opaque format_curr quantize_decimal sub add lt gt round2 column_of amount_of.

Lemma config_acts k row column f (s : app) :
  fst (config k row column f s) = Ok tt
  /\ acts k (alter (alter f column) row) id s (snd (config k row column f s)).
Proof.
  unfold config, modify. cbn [fst snd]. split; [reflexivity|].
  split; [apply same_form_set_live_labels|]. split; [reflexivity|].
  cbn [carry_forward_data set_live_labels].
  apply map_eq. intros j. rewrite lookup_partial_alter.
  destruct (decide (k = j)) as [->|]; reflexivity.
Qed.

Lemma update_type_labels_acts k data t (s : app) :
  fst (update_type_labels k data t s) = Ok tt
  /\ acts k (type_texts data t) id s (snd (update_type_labels k data t s)).
Proof.
  unfold update_type_labels, config_text. unfold bindM.
  set (f1 := fun l : label => {| text := _; bootstyle := bootstyle l |}).
  destruct (config_acts k t "v_me_tvsh" f1 s) as [R1 A1].
  destruct (config k t "v_me_tvsh" f1 s) as [r1 s1]. cbn [fst snd] in *. subst r1.
  set (f2 := fun l : label => {| text := _; bootstyle := bootstyle l |}).
  destruct (config_acts k t "v_pa_tvsh" f2 s1) as [R2 A2].
  destruct (config k t "v_pa_tvsh" f2 s1) as [r2 s2]. cbn [fst snd] in *. subst r2.
  set (f3 := fun l : label => {| text := _; bootstyle := bootstyle l |}).
  destruct (config_acts k t "tvsh" f3 s2) as [R3 A3].
  destruct (config k t "tvsh" f3 s2) as [r3 s3]. cbn [fst snd] in *. subst r3.
  split; [reflexivity|].
  pose proof (acts_trans _ _ _ _ _ _ _ _ (acts_trans _ _ _ _ _ _ _ _ A1 A2) A3) as A.
  eapply acts_ext; [| |exact A]; reflexivity.
Qed.

Lemma type_labels_acts k data (s : app) :
  fst (for_each TRANSACTION_TYPES (update_type_labels k data) s) = Ok tt
  /\ acts k (fun rows => type_texts data "Local"
                           (type_texts data "Imports" (type_texts data "Sales" rows)))
          id s (snd (for_each TRANSACTION_TYPES (update_type_labels k data) s)).
Proof.
  cbn [for_each TRANSACTION_TYPES]. unfold bindM, ret.
  destruct (update_type_labels_acts k data "Sales" s) as [R1 A1].
  destruct (update_type_labels k data "Sales" s) as [r1 s1]. cbn [fst snd] in *. subst r1.
  destruct (update_type_labels_acts k data "Imports" s1) as [R2 A2].
  destruct (update_type_labels k data "Imports" s1) as [r2 s2]. cbn [fst snd] in *. subst r2.
  destruct (update_type_labels_acts k data "Local" s2) as [R3 A3].
  destruct (update_type_labels k data "Local" s2) as [r3 s3]. cbn [fst snd] in *. subst r3.
  split; [reflexivity|].
  pose proof (acts_trans _ _ _ _ _ _ _ _ (acts_trans _ _ _ _ _ _ _ _ A1 A2) A3) as A.
  eapply acts_ext; [| |exact A]; reflexivity.
Qed.

Lemma has_label_balance k (s : app) :
  has_label k "summary" "balance" s = has_balance_label (live_labels s !! k).
Proof. reflexivity. Qed.

Lemma update_summary_labels_acts k prev bal (s : app) r s' :
  update_summary_labels k prev bal s = (r, s') ->
  let tp := format_curr (VDec prev) in
  let tb := format_curr (VDec bal) in
  if has_balance_label (live_labels s !! k) then
    match balance_style bal with
    | Ok st =>
        r = Ok tt
        /\ acts k (fun rows => set_bootstyle "summary" "balance" st
                                (set_text "summary" "balance" tb
                                   (set_text "summary" "prev_surplus" tp rows))) id s s'
    | Raise e =>
        r = Raise e
        /\ acts k (fun rows => set_text "summary" "balance" tb
                                (set_text "summary" "prev_surplus" tp rows)) id s s'
    end
  else r = Ok tt /\ acts k (set_text "summary" "prev_surplus" tp) id s s'.
Proof.
  cbv zeta. unfold update_summary_labels, config_text, config_bootstyle.
  unfold bindM at 1.
  set (fp := fun l : label => {| text := format_curr (VDec prev); bootstyle := bootstyle l |}).
  set (fb := fun l : label => {| text := format_curr (VDec bal); bootstyle := bootstyle l |}).
  destruct (config_acts k "summary" "prev_surplus" fp s) as [R1 A1].
  destruct (config k "summary" "prev_surplus" fp s) as [r1 s1]. cbn [fst snd] in *. subst r1.
  unfold bindM at 1. unfold get at 1.
  rewrite has_label_balance.
  assert (Hl : has_balance_label (live_labels s1 !! k)
               = has_balance_label (live_labels s !! k)).
  { destruct A1 as (_ & L & _). rewrite L, lookup_alter_eq.
    change (alter (alter fp "prev_surplus") "summary")
      with (set_text "summary" "prev_surplus" (format_curr (VDec prev))).
    destruct (live_labels s !! k) as [rows|]; [|reflexivity].
    cbn [fmap option_fmap option_map]. rewrite set_text_patch.
    apply (has_balance_label_patch _ (Some rows)). }
  rewrite Hl. destruct (has_balance_label (live_labels s !! k)).
  - unfold when, bindM.
    destruct (config_acts k "summary" "balance" fb s1) as [R2 A2].
    destruct (config k "summary" "balance" fb s1) as [r2 s2]. cbn [fst snd] in *. subst r2.
    unfold lift, balance_style.
    destruct (let* neg := lt bal zero in _) as [st|e].
    + set (fs := fun l : label => {| text := text l; bootstyle := st |}).
      destruct (config_acts k "summary" "balance" fs s2) as [R3 A3].
      destruct (config k "summary" "balance" fs s2) as [r3 s3]. cbn [fst snd] in *.
      intros [= <- <-]. split; [exact R3|].
      pose proof (acts_trans _ _ _ _ _ _ _ _ (acts_trans _ _ _ _ _ _ _ _ A1 A2) A3) as A.
      eapply acts_ext; [| |exact A]; reflexivity.
    + intros [= <- <-]. split; [reflexivity|].
      pose proof (acts_trans _ _ _ _ _ _ _ _ A1 A2) as A.
      eapply acts_ext; [| |exact A]; reflexivity.
  - unfold when, ret. intros [= <- <-]. split; [reflexivity|]. exact A1.
Qed.

Lemma update_carry_forward_acts k cur bal (s : app) r s' :
  update_carry_forward k cur bal s = (r, s') ->
  match lt bal zero with
  | Ok neg => r = Ok tt /\ acts k id (months_after cur bal neg) s s'
  | Raise e => r = Raise e /\ acts k id (fun m => Some (default ∅ m)) s s'
  end.
Proof.
  unfold update_carry_forward. unfold bindM at 1. unfold modify at 1.
  set (s1 := match carry_forward_data s !! k with
             | Some _ => s
             | None => set_carry_forward_data (<[k:=∅]> (carry_forward_data s)) s
             end).
  assert (A1 : acts k id (fun m => Some (default ∅ m)) s s1).
  { subst s1. destruct (carry_forward_data s !! k) as [m|] eqn:Hm.
    - split; [apply same_form_refl|]. split.
      + exact (proj1 (proj2 (acts_id k s))).
      + apply map_eq. intros j. rewrite lookup_partial_alter.
        destruct (decide (k = j)) as [->|]; [|reflexivity]. rewrite Hm. reflexivity.
    - split; [apply same_form_set_carry_forward_data|]. split.
      + cbn [live_labels set_carry_forward_data].
        exact (proj1 (proj2 (acts_id k s))).
      + cbn [carry_forward_data set_carry_forward_data].
        apply map_eq. intros j. rewrite lookup_partial_alter, lookup_insert.
        destruct (decide (k = j)) as [->|]; [|reflexivity]. rewrite Hm. reflexivity. }
  assert (Hk : carry_forward_data s1 !! k = Some (default ∅ (carry_forward_data s !! k))).
  { destruct A1 as (_ & _ & C). rewrite C, lookup_partial_alter_eq. reflexivity. }
  clearbody s1.
  unfold bindM, lift. destruct (lt bal zero) as [neg|e]; [|intros [= <- <-]; auto].
  destruct A1 as (F & L & C).
  destruct neg.
  - rewrite quantize_decimal_VDec. unfold modify. rewrite Hk. cbn [default].
    intros [= <- <-]. split; [reflexivity|].
    split; [eapply same_form_trans; [exact F | apply same_form_set_carry_forward_data]|].
    split; [exact L|].
    cbn [carry_forward_data set_carry_forward_data]. rewrite C.
    apply map_eq. intros j. rewrite lookup_insert, !lookup_partial_alter.
    destruct (decide (k = j)); reflexivity.
  - unfold modify. rewrite Hk. cbn [default].
    change (id (default ∅ (carry_forward_data s !! k)))
      with (default ∅ (carry_forward_data s !! k)).
    destruct (default ∅ (carry_forward_data s !! k) !! cur) eqn:Hcur;
      intros [= <- <-]; (split; [reflexivity|]).
    + split; [eapply same_form_trans; [exact F | apply same_form_set_carry_forward_data]|].
      split; [exact L|].
      cbn [carry_forward_data set_carry_forward_data]. rewrite C.
      apply map_eq. intros j. rewrite lookup_insert, !lookup_partial_alter.
      destruct (decide (k = j)); reflexivity.
    + split; [exact F|]. split; [exact L|]. rewrite C.
      apply map_eq. intros j. rewrite !lookup_partial_alter.
      destruct (decide (k = j)); [|reflexivity].
      unfold months_after. rewrite delete_id by exact Hcur. reflexivity.
Qed.

Lemma has_balance_label_types data (rows : option label_rows) :
  has_balance_label
    ((fun r => type_texts data "Local" (type_texts data "Imports" (type_texts data "Sales" r)))
       <$> rows)
  = has_balance_label rows.
Proof.
  destruct rows as [rows|]; [|reflexivity]. cbn [fmap option_fmap option_map].
  patchify. apply (has_balance_label_patch _ (Some rows)).
Qed.

(** The loop body acts on the component of its company as [company_step]
    says, and on nothing else. *)
Lemma update_company_step (mt : totals) (cur prev k : string) (s : app) r s' :
  update_company mt cur prev k s = (r, s') ->
  r = fst (company_step mt cur prev k (component k s))
  /\ component k s' = snd (company_step mt cur prev k (component k s))
  /\ (forall j, j <> k -> component j s' = component j s)
  /\ same_form s s'.
Proof.
  unfold update_company, company_step, net_vat, component. cbn [fst snd].
  set (data := default ∅ (mt !! k)).
  unfold bindM at 1. unfold get at 1. cbv beta iota.
  set (prevv := default zero (default ∅ (carry_forward_data s !! k) !! prev)).
  unfold bindM at 1. unfold lift at 1.
  destruct (let* d := sub _ _ in sub d _) as [net|e]; cbv beta iota.
  2:{ intros E0; inversion E0; subst; clear E0. cbn [fst snd].
      repeat split; auto using same_form_refl. }
  unfold bindM at 1. unfold lift at 1.
  destruct (add prevv net) as [bal|e]; cbv beta iota.
  2:{ intros E0; inversion E0; subst; clear E0. cbn [fst snd].
      repeat split; auto using same_form_refl. }
  unfold bindM at 1.
  destruct (type_labels_acts k data s) as [R1 A1].
  destruct (for_each TRANSACTION_TYPES (update_type_labels k data) s) as [r1 s1].
  cbn [fst snd] in R1, A1. subst r1.
  unfold bindM at 1.
  destruct (update_summary_labels k prevv bal s1) as [r2 s2] eqn:E2.
  apply update_summary_labels_acts in E2. cbv zeta in E2.
  assert (Hl : has_balance_label (live_labels s1 !! k)
               = has_balance_label (live_labels s !! k)).
  { destruct A1 as (_ & L & _). rewrite L, lookup_alter_eq.
    apply has_balance_label_types. }
  rewrite Hl in E2.
  assert (Hfin : forall G H,
             acts k G H s s' ->
             component k s' = (G <$> live_labels s !! k, H (carry_forward_data s !! k))
             /\ (forall j, j <> k -> component j s' = component j s)
             /\ same_form s s').
  { intros G H A. destruct (acts_component _ _ _ _ _ A) as [E F].
    split; [exact E|]. split; [exact F|]. apply A. }
  unfold component in Hfin.
  destruct (has_balance_label (live_labels s !! k)).
  - destruct (balance_style bal) as [st|e].
    + destruct E2 as [-> A2].
      destruct (update_carry_forward k cur bal s2) as [r3 s3] eqn:E3.
      apply update_carry_forward_acts in E3.
      destruct (lt bal zero) as [neg|e]; destruct E3 as [-> A3]; intros E0; inversion E0; subst; clear E0;
        (split; [reflexivity|]);
        pose proof (acts_trans _ _ _ _ _ _ _ _ (acts_trans _ _ _ _ _ _ _ _ A1 A2) A3) as A;
        destruct (Hfin _ _ A) as (E & F & S); (split; [|split; assumption]);
        rewrite E; cbn [snd]; destruct (live_labels s !! k); reflexivity.
    + destruct E2 as [-> A2]. intros E0; inversion E0; subst; clear E0. split; [reflexivity|].
      pose proof (acts_trans _ _ _ _ _ _ _ _ A1 A2) as A.
      destruct (Hfin _ _ A) as (E & F & S). split; [|split; assumption].
      rewrite E. cbn [snd]. destruct (live_labels s !! k); reflexivity.
  - destruct E2 as [-> A2].
    destruct (update_carry_forward k cur bal s2) as [r3 s3] eqn:E3.
    apply update_carry_forward_acts in E3.
    destruct (lt bal zero) as [neg|e]; destruct E3 as [-> A3]; intros E0; inversion E0; subst; clear E0;
      (split; [reflexivity|]);
      pose proof (acts_trans _ _ _ _ _ _ _ _ (acts_trans _ _ _ _ _ _ _ _ A1 A2) A3) as A;
      destruct (Hfin _ _ A) as (E & F & S); (split; [|split; assumption]);
      rewrite E; cbn [snd]; destruct (live_labels s !! k); reflexivity.
Qed.

Lemma months_after_prev (cur prev : string) bal neg (m : option months) :
  cur <> prev ->
  default zero (default ∅ (months_after cur bal neg m) !! prev)
  = default zero (default ∅ m !! prev).
Proof.
  intros Hne. unfold months_after. destruct neg; cbn.
  - rewrite lookup_insert_ne by exact Hne. reflexivity.
  - rewrite lookup_delete_ne by exact Hne. reflexivity.
Qed.

Lemma months_after_idem (cur : string) bal neg (m : option months) :
  months_after cur bal neg (months_after cur bal neg m) = months_after cur bal neg m.
Proof.
  unfold months_after. destruct neg; cbn.
  - rewrite insert_insert_eq. reflexivity.
  - rewrite delete_delete_eq. reflexivity.
Qed.

Lemma patchlike_idem G rows : patchlike G -> G (G rows) = G rows.
Proof. intros [P HP]. rewrite !HP. apply patch_rows_idem. Qed.

Lemma patchlike_label G rows :
  patchlike G -> has_balance_label (Some (G rows)) = has_balance_label (Some rows).
Proof. intros [P HP]. rewrite HP. apply (has_balance_label_patch P (Some rows)). Qed.

Lemma patchlike_totals data prevv : patchlike (totals_texts data prevv).
Proof. eexists. intros rows. patchify. reflexivity. Qed.

Lemma patchlike_balance data prevv t :
  patchlike (fun r => set_text "summary" "balance" t (totals_texts data prevv r)).
Proof. eexists. intros rows. patchify. reflexivity. Qed.

Lemma patchlike_style data prevv t st :
  patchlike (fun r => set_bootstyle "summary" "balance" st
                        (set_text "summary" "balance" t (totals_texts data prevv r))).
Proof. eexists. intros rows. patchify. reflexivity. Qed.

(** Running the loop body again on its own outcome changes nothing. *)
Lemma company_step_idem (mt : totals) (cur prev k : string)
    (c : option label_rows * option months) :
  cur <> prev ->
  company_step mt cur prev k (snd (company_step mt cur prev k c))
  = company_step mt cur prev k c.
Proof.
  intros Hne. destruct c as [rows m].
  unfold company_step at 2 3. cbn [fst snd].
  set (data := default ∅ (mt !! k)).
  set (prevv := default zero (default ∅ m !! prev)).
  destruct (net_vat data) as [net|e] eqn:Hnet.
  2:{ unfold company_step. cbn [fst snd]. fold data. rewrite Hnet. reflexivity. }
  destruct (add prevv net) as [bal|e] eqn:Hbal.
  2:{ unfold company_step. cbn [fst snd]. fold data. fold prevv.
      rewrite Hnet, Hbal. reflexivity. }
  pose proof (patchlike_totals data prevv) as P1.
  pose proof (patchlike_balance data prevv (format_curr (VDec bal))) as P2.
  assert (Hprev : forall neg,
             default zero (default ∅ (months_after cur bal neg m) !! prev) = prevv)
    by (intros neg; apply months_after_prev, Hne).
  assert (Hprev' : default zero (default ∅ (Some (default ∅ m)) !! prev) = prevv)
    by reflexivity.
  destruct rows as [rows|].
  - cbn [fmap option_fmap option_map].
    destruct (has_balance_label (Some rows)) eqn:Hlabel.
    + destruct (balance_style bal) as [st|e] eqn:Hst.
      * pose proof (patchlike_style data prevv (format_curr (VDec bal)) st) as P3.
        destruct (lt bal zero) as [neg|e] eqn:Hlt;
          unfold company_step; cbn [fst snd fmap option_fmap option_map]; fold data;
          rewrite ?Hprev, ?Hprev', Hnet, Hbal;
          rewrite (patchlike_label _ rows P3), Hlabel, Hst, Hlt;
          rewrite ?months_after_idem;
          rewrite (patchlike_idem _ rows P3); reflexivity.
      * unfold company_step; cbn [fst snd fmap option_fmap option_map]; fold data; fold prevv.
        rewrite Hnet, Hbal.
        rewrite (patchlike_label _ rows P2), Hlabel, Hst.
        rewrite (patchlike_idem _ rows P2). reflexivity.
    + destruct (lt bal zero) as [neg|e] eqn:Hlt;
        unfold company_step; cbn [fst snd fmap option_fmap option_map]; fold data;
        rewrite ?Hprev, ?Hprev', Hnet, Hbal;
        rewrite (patchlike_label _ rows P1), Hlabel, Hlt;
        rewrite ?months_after_idem;
        rewrite (patchlike_idem _ rows P1); reflexivity.
  - cbn [fmap option_fmap option_map has_balance_label].
    destruct (lt bal zero) as [neg|e] eqn:Hlt;
      unfold company_step; cbn [fst snd fmap option_fmap option_map has_balance_label];
      fold data; rewrite ?Hprev, ?Hprev', Hnet, Hbal, Hlt;
      rewrite ?months_after_idem; reflexivity.
Qed.

End CompanyStep.

Section Recompute.

Variables (mt : totals) (cur prev : string).

Let U := update_company mt cur prev.
Let step := company_step mt cur prev.

Lemma for_each_cons (k : string) (l : list string) (s : app) :
  for_each (k :: l) U s
  = match U k s with
    | (Ok _, s1) => for_each l U s1
    | (Raise e, s1) => (Raise e, s1)
    end.
Proof. reflexivity. Qed.

(** The loop leaves the form and the companies it does not visit. *)
Lemma for_each_frame (l : list string) (s : app) r s' :
  for_each l U s = (r, s') ->
  same_form s s' /\ (forall j, j ∉ l -> component j s' = component j s).
Proof.
  revert s. induction l as [|k l IH]; intros s.
  - intros [= <- <-]. split; [apply same_form_refl | reflexivity].
  - rewrite for_each_cons. destruct (U k s) as [r1 s1] eqn:E1.
    apply update_company_step in E1. destruct E1 as (_ & _ & F1 & S1).
    destruct r1 as [[]|e].
    + intros E. apply IH in E. destruct E as [S2 F2]. split.
      * eapply same_form_trans; eassumption.
      * intros j Hj. apply not_elem_of_cons in Hj. destruct Hj as [Hjk Hjl].
        rewrite F2 by exact Hjl. apply F1, Hjk.
    + intros [= <- <-]. split; [exact S1|].
      intros j Hj. apply not_elem_of_cons in Hj. apply F1, Hj.
Qed.

(** A loop that completes has run [company_step] on every company. *)
Lemma for_each_completes (l : list string) (s : app) s' :
  NoDup l -> for_each l U s = (Ok tt, s') ->
  forall k, k ∈ l ->
    fst (step k (component k s)) = Ok tt
    /\ component k s' = snd (step k (component k s)).
Proof.
  revert s. induction l as [|k l IH]; intros s Hnd E j Hj.
  - apply elem_of_nil in Hj. contradiction.
  - apply NoDup_cons in Hnd. destruct Hnd as [Hk Hnd].
    rewrite for_each_cons in E. destruct (U k s) as [r1 s1] eqn:E1.
    apply update_company_step in E1. destruct E1 as (R1 & C1 & F1 & S1).
    destruct r1 as [[]|e]; [|discriminate E].
    destruct (decide (j = k)) as [->|Hne].
    + split; [symmetry; exact R1|].
      destruct (for_each_frame _ _ _ _ E) as [_ F2]. rewrite F2 by exact Hk. exact C1.
    + assert (Hin : j ∈ l).
      { apply elem_of_cons in Hj. destruct Hj as [Hj|Hj]; [contradiction | exact Hj]. }
      destruct (IH s1 Hnd E j Hin) as [R2 C2].
      rewrite F1 in R2, C2 by exact Hne. split; assumption.
Qed.

(** Running the loop again on its own outcome changes nothing. *)
Lemma for_each_idem (l : list string) (s : app) r s' :
  cur <> prev -> NoDup l ->
  for_each l U s = (r, s') -> for_each l U s' = (r, s').
Proof.
  intros Hne. revert s. induction l as [|k l IH]; intros s Hnd E.
  - injection E as <- <-. reflexivity.
  - apply NoDup_cons in Hnd. destruct Hnd as [Hk Hnd].
    rewrite for_each_cons in E. destruct (U k s) as [r1 s1] eqn:E1.
    apply update_company_step in E1. destruct E1 as (R1 & C1 & F1 & S1).
    assert (Hfix : forall t, component k t = component k s1 -> U k t = (r1, t)).
    { intros t Ht. destruct (U k t) as [r2 t2] eqn:E2.
      apply update_company_step in E2. destruct E2 as (R2 & C2 & F2 & S2).
      rewrite Ht, C1 in R2, C2. fold step in R2, C2.
      unfold step in R2, C2. rewrite company_step_idem in R2, C2 by exact Hne.
      f_equal; [congruence|]. symmetry. apply app_ext; [exact S2|].
      intros j. destruct (decide (j = k)) as [->|Hj].
      - rewrite C2. fold step. rewrite Ht. exact C1.
      - symmetry. apply F2, Hj. }
    rewrite for_each_cons. destruct r1 as [[]|e].
    + destruct (for_each_frame _ _ _ _ E) as [_ F2].
      rewrite (Hfix s' (F2 k Hk)). apply (IH s1 Hnd E).
    + injection E as <- <-. rewrite (Hfix s1 eq_refl). reflexivity.
Qed.





End Recompute.

(** ** Period strings *)

Section Periods.

Lemma string_app_length (a x : string) :
  String.length (a +:+ x) = (String.length a + String.length x)%nat.
Proof.
  induction a as [|c a IH]; [reflexivity|].
  change (String c a +:+ x) with (String c (a +:+ x)).
  cbn [String.length]. rewrite IH. reflexivity.
Qed.

Lemma string_app_assoc (a b c : string) : (a +:+ b) +:+ c = a +:+ (b +:+ c).
Proof.
  induction a as [|x a IH]; [reflexivity|].
  change ((String x a +:+ b) +:+ c) with (String x ((a +:+ b) +:+ c)).
  rewrite IH. reflexivity.
Qed.

(** Two strings that end in parts of the same length agree part by part. *)
Lemma string_app_inj_r (a b x y : string) :
  String.length x = String.length y -> a +:+ x = b +:+ y -> a = b /\ x = y.
Proof.
  revert b. induction a as [|c a IH]; intros [|d b] Hlen E.
  - auto.
  - exfalso. apply (f_equal String.length) in E.
    change ("" +:+ x) with x in E. rewrite string_app_length in E. cbn in E. lia.
  - exfalso. apply (f_equal String.length) in E.
    change ("" +:+ y) with y in E. rewrite string_app_length in E. cbn in E. lia.
  - change (String c (a +:+ x) = String d (b +:+ y)) in E.
    injection E as -> E. destruct (IH b Hlen E) as [-> ->]. auto.
Qed.

Lemma month_cases (m : Z) :
  1 <= m <= 12 ->
  m = 1 \/ m = 2 \/ m = 3 \/ m = 4 \/ m = 5 \/ m = 6 \/ m = 7 \/ m = 8 \/ m = 9
  \/ m = 10 \/ m = 11 \/ m = 12.
Proof. lia. Qed.

Lemma pad2_length (m : Z) : 1 <= m <= 12 -> String.length (pad2 m) = 2%nat.
Proof.
  intros H. apply month_cases in H.
  repeat (destruct H as [->|H]; [reflexivity|]). subst. reflexivity.
Qed.

Lemma pad2_inj (m n : Z) : 1 <= m <= 12 -> 1 <= n <= 12 -> pad2 m = pad2 n -> m = n.
Proof.
  intros Hm Hn. apply month_cases in Hm. apply month_cases in Hn.
  repeat (destruct Hm as [->|Hm]); try subst m;
    repeat (destruct Hn as [->|Hn]); try subst n;
    intros E; try reflexivity; vm_compute in E; discriminate E.
Qed.

Lemma index_range (x : string) (l : list string) (i : Z) :
  index x l = Some i -> 0 <= i < Z.of_nat (length l).
Proof.
  revert i. induction l as [|y l IH]; intros i; [discriminate|].
  cbn [index]. destruct (String.eqb x y).
  - intros [= <-]. cbn [length]. lia.
  - destruct (index x l) as [j|]; [|discriminate].
    intros [= <-]. specialize (IH j eq_refl). cbn [length]. lia.
Qed.

(** Two periods with different months are different strings. *)
Lemma period_month_differs (a b : string) (m n : Z) :
  1 <= m <= 12 -> 1 <= n <= 12 -> m <> n ->
  a +:+ "-" +:+ pad2 m <> b +:+ "-" +:+ pad2 n.
Proof.
  intros Hm Hn Hne E.
  rewrite <- !string_app_assoc in E.
  apply string_app_inj_r in E; [|rewrite !pad2_length by assumption; reflexivity].
  destruct E as [_ E]. apply pad2_inj in E; auto.
Qed.

Lemma month_before_spec (y m y' m' : Z) :
  1 <= m <= 12 -> month_before y m = Ok (y', m') ->
  1 <= m' <= 12 /\ m' <> m /\ (y' = y \/ (y' = y - 1 /\ 1 < y)).
Proof.
  intros Hm. unfold month_before.
  destruct (Z.ltb_spec 1 m); [intros [= <- <-]; lia|].
  destruct (Z.ltb_spec 1 y); [intros [= <- <-]; lia | discriminate].
Qed.

(** The decimal notation of a number other than 0 does not start with 0. *)
Lemma pretty_N_go_head (x : N) (s : string) :
  (0 < x)%N -> exists c s', pretty_N_go x s = String c s' /\ c <> "0"%char.
Proof.
  revert s. induction (N.lt_wf_0 x) as [x _ IH]. intros s Hx.
  rewrite pretty_N_go_step by exact Hx.
  destruct (N.eq_dec (x `div` 10)%N 0%N) as [Hz|Hz].
  - rewrite Hz, pretty_N_go_0. eexists _, _. split; [reflexivity|].
    assert (Hlt : (x < 10)%N) by (apply N.div_small_iff in Hz; lia).
    clear IH Hz.
    rewrite N.mod_small by exact Hlt.
    assert (x = 1 \/ x = 2 \/ x = 3 \/ x = 4 \/ x = 5 \/ x = 6 \/ x = 7 \/ x = 8
            \/ x = 9)%N as Hc by lia.
    repeat (destruct Hc as [->|Hc]; [discriminate|]). subst. discriminate.
  - apply IH; [apply N.div_lt; lia | apply N.neq_0_lt_0, Hz].
Qed.

Lemma pretty_Z_head (z : Z) :
  z <> 0 -> exists c s, pretty z = String c s /\ c <> "0"%char.
Proof.
  destruct z as [|p|p]; intros Hz; [congruence| |].
  - unfold pretty, pretty_Z, pretty, pretty_positive, pretty, pretty_N.
    rewrite decide_False by discriminate. apply pretty_N_go_head. lia.
  - unfold pretty, pretty_Z. eexists _, _. split; [reflexivity | discriminate].
Qed.

(** A year outside 1..9999, written plainly, is not a four-digit year. *)
Lemma year_differs (year y : Z) :
  ~ (1 <= year <= 9999) -> 1 <= y <= 9999 ->
  pretty year
  <> (if y <? 10 then "000" else if y <? 100 then "00" else if y <? 1000 then "0" else "")
     +:+ pretty y.
Proof.
  intros Hout Hy E.
  destruct (pretty_Z_head y ltac:(lia)) as (cy & sy & Ey & _).
  assert (Hpad : (1000 <= y /\ pretty year = pretty y)
                 \/ exists rest, pretty year = String "0" rest /\ rest <> "").
  { destruct (y <? 10); [right; eexists; split; [exact E|rewrite Ey; discriminate]|].
    destruct (y <? 100); [right; eexists; split; [exact E|rewrite Ey; discriminate]|].
    destruct (Z.ltb_spec y 1000);
      [right; eexists; split; [exact E|rewrite Ey; discriminate]|].
    left. split; [lia | exact E]. }
  destruct Hpad as [[Hge Eq] | (rest & Eq & Hrest)].
  - apply (inj pretty) in Eq. lia.
  - destruct (Z.eq_dec year 0) as [->|Hnz].
    + cbn in Eq. injection Eq as <-. congruence.
    + destruct (pretty_Z_head year Hnz) as (c & s' & Ec & Hc).
      rewrite Ec in Eq. injection Eq as -> _. congruence.
Qed.

(** The period that is read as the previous month is never the period
    that is written. *)
Lemma period_differs (today : date) (year : Z) (month_name prev : string) :
  valid_date today ->
  get_prev_month_year_str today year month_name = Ok prev ->
  get_month_year_str today year month_name <> prev.
Proof.
  intros [Hty Htm]. unfold get_prev_month_year_str, get_month_year_str.
  destruct (index month_name MONTH_NAMES) as [i|] eqn:Hi.
  - apply index_range in Hi. cbn [length MONTH_NAMES] in Hi.
    destruct ((1 <=? year) && (year <=? 9999)) eqn:Hrange.
    + destruct (month_before year (i + 1)) as [[y m]|e] eqn:Hb; [|discriminate].
      apply month_before_spec in Hb; [|lia]. destruct Hb as (Hm & Hne & _).
      cbn [bind]. intros [= <-]. unfold strftime_Ym.
      rewrite <- (string_app_assoc _ (pretty y) _).
      apply period_month_differs; [lia | exact Hm | congruence].
    + destruct (month_before (d_year today) (d_month today)) as [[y m]|e] eqn:Hb;
        [|discriminate].
      apply month_before_spec in Hb; [|exact Htm]. destruct Hb as (Hm & Hne & Hy).
      cbn [bind]. intros [= <-]. unfold strftime_Ym.
      rewrite <- (string_app_assoc _ (pretty y) _).
      intros E. rewrite <- (string_app_assoc _ "-" (pad2 m)) in E.
      rewrite <- (string_app_assoc _ "-" (pad2 (i + 1))) in E.
      apply string_app_inj_r in E; [|rewrite !pad2_length by lia; reflexivity].
      destruct E as [E _].
      apply string_app_inj_r in E; [|reflexivity]. destruct E as [E _].
      revert E. apply year_differs; [|lia].
      intros Hin. apply andb_false_iff in Hrange. destruct Hrange as [H|H].
      * apply Z.leb_gt in H. lia.
      * apply Z.leb_gt in H. lia.
  - destruct (month_before (d_year today) (d_month today)) as [[y m]|e] eqn:Hb;
      [|discriminate].
    apply month_before_spec in Hb; [|exact Htm]. destruct Hb as (Hm & Hne & _).
    cbn [bind]. intros [= <-]. unfold strftime_Ym.
    rewrite <- (string_app_assoc _ (pretty y) _).
    apply period_month_differs; [exact Htm | exact Hm | congruence].
Qed.

End Periods.

(** ** Claims about the reconciliation engine *)

Section EngineClaims.



End EngineClaims.













(** C9: when the source field of a derivation is absent or invalid, the
    two dependent fields are cleared only if neither of them holds the
    keyboard focus (in fact only if no widget holds it), and if either
    dependent field is focused both are left unchanged. *)
Theorem C9_focus_aware_clearing (s : app) :
  (~ base_usable s ->
   let s' := snd (_calculate_from_base s) in
   (focus s = Some tvsh_entry \/ focus s = Some v_me_tvsh_entry ->
      tvsh_var s' = tvsh_var s /\ v_me_tvsh_var s' = v_me_tvsh_var s)
   /\ (tvsh_var s' <> tvsh_var s \/ v_me_tvsh_var s' <> v_me_tvsh_var s ->
         focus s <> Some tvsh_entry /\ focus s <> Some v_me_tvsh_entry
         /\ tvsh_var s' = "" /\ v_me_tvsh_var s' = ""))
  /\ (~ vat_usable s ->
      let s' := snd (_calculate_from_vat s) in
      (focus s = Some v_pa_tvsh_entry \/ focus s = Some v_me_tvsh_entry ->
         v_pa_tvsh_var s' = v_pa_tvsh_var s /\ v_me_tvsh_var s' = v_me_tvsh_var s)
      /\ (v_pa_tvsh_var s' <> v_pa_tvsh_var s \/ v_me_tvsh_var s' <> v_me_tvsh_var s ->
            focus s <> Some v_pa_tvsh_entry /\ focus s <> Some v_me_tvsh_entry
            /\ v_pa_tvsh_var s' = "" /\ v_me_tvsh_var s' = ""))
  /\ (~ total_usable s ->
      let s' := snd (_calculate_from_total s) in
      (focus s = Some v_pa_tvsh_entry \/ focus s = Some tvsh_entry ->
         v_pa_tvsh_var s' = v_pa_tvsh_var s /\ tvsh_var s' = tvsh_var s)
      /\ (v_pa_tvsh_var s' <> v_pa_tvsh_var s \/ tvsh_var s' <> tvsh_var s ->
            focus s <> Some v_pa_tvsh_entry /\ focus s <> Some tvsh_entry
            /\ v_pa_tvsh_var s' = "" /\ tvsh_var s' = "")).
Proof.
  assert (Hgen : forall (d1 d2 : app -> string) (w1 w2 : widget) (s' : app),
             left_or_cleared d1 d2 s s' ->
             (focus s = Some w1 \/ focus s = Some w2 -> d1 s' = d1 s /\ d2 s' = d2 s)
             /\ (d1 s' <> d1 s \/ d2 s' <> d2 s ->
                   focus s <> Some w1 /\ focus s <> Some w2 /\ d1 s' = "" /\ d2 s' = "")).
  { intros d1 d2 w1 w2 s' [[E1 E2] | (Hf & E1 & E2)]; split.
    - auto.
    - intros [N|N]; contradiction.
    - intros [F|F]; congruence.
    - intros _. rewrite Hf. repeat split; auto; discriminate. }
  split; [|split]; intros Hun; cbv zeta; apply Hgen.
  - apply calculate_from_base_underived, Hun.
  - apply calculate_from_vat_underived, Hun.
  - apply calculate_from_total_underived, Hun.
Qed.

(** An ill-formed base while the VAT field is being edited: the VAT and
    the total are left as they are. *)
Lemma C9_witness :
  ~ base_usable (with_focus tvsh_entry (form "abc" "1.00" "2.00"))
  /\ tvsh_var (snd (_calculate_from_base (with_focus tvsh_entry (form "abc" "1.00" "2.00"))))
     = "1.00"
  /\ v_me_tvsh_var
       (snd (_calculate_from_base (with_focus tvsh_entry (form "abc" "1.00" "2.00"))))
     = "2.00".
Proof.
  assert (Hun : ~ base_usable (with_focus tvsh_entry (form "abc" "1.00" "2.00"))).
  { intros (b & Hb & _). vm_compute in Hb. discriminate Hb. }
  split; [exact Hun|].
  destruct (C9_focus_aware_clearing (with_focus tvsh_entry (form "abc" "1.00" "2.00")))
    as (Hbase & _).
  destruct (Hbase Hun) as [Hleft _]. apply Hleft. left. reflexivity.
Defined.

(** ** Claims about the ledger aggregator *)

Section LedgerClaims.

Lemma recompute_eq (today : date) (s : app) :
  recompute today s
  = match get_prev_month_year_str today (year_var s) (month_var s) with
    | Ok prev =>
        match recalculate_totals (current_period today s) (transactions s) ∅ with
        | Ok mt => for_each COMPANIES (update_company mt (current_period today s) prev) s
        | Raise e => (Raise e, s)
        end
    | Raise e => (Raise e, s)
    end.
Proof.
  unfold recompute, current_period, bindM, get, lift.
  destruct (get_prev_month_year_str _ _ _); [|reflexivity].
  destruct (recalculate_totals _ _ _); reflexivity.
Qed.

Lemma NoDup_COMPANIES : NoDup COMPANIES.
Proof.
  unfold COMPANIES. apply NoDup_cons. split.
  - intros H. apply list_elem_of_singleton in H. discriminate H.
  - apply NoDup_singleton.
Qed.

Lemma lt_zero (d : Decimal) (b : bool) :
  lt d zero = Ok b -> is_nan d = false /\ b = negative d.
Proof.
  unfold lt, compare_with, negative. destruct (is_nan d); [discriminate|].
  cbn. intros [= <-]. auto.
Qed.

(** What a completed loop body has done for its company. *)
Lemma company_step_completes (mt : totals) (cur prev k : string)
    (rows : option label_rows) (m : option months) :
  fst (company_step mt cur prev k (rows, m)) = Ok tt ->
  exists bal,
    (let* net := net_vat (default ∅ (mt !! k)) in
     add (default zero (default ∅ m !! prev)) net) = Ok bal
    /\ is_nan bal = false
    /\ snd (snd (company_step mt cur prev k (rows, m)))
       = months_after cur bal (negative bal) m
    /\ (has_balance_label rows = true ->
        exists st,
          fst (snd (company_step mt cur prev k (rows, m)))
          = (fun r => set_bootstyle "summary" "balance" st
                        (set_text "summary" "balance" (format_curr (VDec bal))
                           (totals_texts (default ∅ (mt !! k))
                              (default zero (default ∅ m !! prev)) r))) <$> rows).
Proof.
  unfold company_step. cbn [fst snd].
  destruct (net_vat _) as [net|e]; [|discriminate]. cbn [bind].
  destruct (add _ net) as [bal|e]; [|discriminate].
  destruct (has_balance_label rows).
  - destruct (balance_style bal) as [st|e]; [|discriminate].
    destruct (lt bal zero) as [neg|e] eqn:Hlt; [|discriminate].
    apply lt_zero in Hlt. destruct Hlt as [Hnan ->]. cbn [fst snd].
    intros _. exists bal. repeat split; auto.
    intros _. exists st. destruct rows; reflexivity.
  - destruct (lt bal zero) as [neg|e] eqn:Hlt; [|discriminate].
    apply lt_zero in Hlt. destruct Hlt as [Hnan ->]. cbn [fst snd].
    intros _. exists bal. repeat split; auto. discriminate.
Qed.

Lemma entry_months_after (store : gmap string months) (k cur : string) bal neg m :
  store !! k = months_after cur bal neg m ->
  entry store k cur = if neg then Some (round2 bal) else None.
Proof.
  unfold entry, months_after. intros ->. destruct neg.
  - apply lookup_insert_eq.
  - apply lookup_delete_eq.
Qed.

Lemma balance_label_text data prevv t st (rows : label_rows) columns l :
  rows !! "summary" = Some columns -> columns !! "balance" = Some l ->
  match set_bootstyle "summary" "balance" st
          (set_text "summary" "balance" t (totals_texts data prevv rows)) !! "summary" with
  | Some c => c !! "balance"
  | None => None
  end = Some {| text := t; bootstyle := st |}.
Proof.
  intros Hr Hc. unfold totals_texts, type_texts, set_text, set_bootstyle.
  repeat (rewrite lookup_alter_eq || rewrite lookup_alter_ne by discriminate).
  rewrite Hr. cbn [fmap option_fmap option_map].
  repeat (rewrite lookup_alter_eq || rewrite lookup_alter_ne by discriminate).
  rewrite Hc. reflexivity.
Qed.

(** A completed run, company by company. *)
Lemma recompute_completes (today : date) (s s' : app) prev mt k :
  recompute today s = (Ok tt, s') ->
  get_prev_month_year_str today (year_var s) (month_var s) = Ok prev ->
  recalculate_totals (current_period today s) (transactions s) ∅ = Ok mt ->
  k ∈ COMPANIES ->
  exists bal,
    company_balance mt (carry_forward_data s) prev k = Ok bal
    /\ is_nan bal = false
    /\ carry_forward_data s' !! k
       = months_after (current_period today s) bal (negative bal)
           (carry_forward_data s !! k)
    /\ (forall old, label_at (live_labels s) k "summary" "balance" = Some old ->
        exists st, label_at (live_labels s') k "summary" "balance"
                   = Some {| text := format_curr (VDec bal); bootstyle := st |}).
Proof.
  intros Hrun Hprev Hmt Hk. rewrite recompute_eq, Hprev, Hmt in Hrun.
  destruct (for_each_completes _ _ _ _ _ _ NoDup_COMPANIES Hrun k Hk) as [Hok Hcomp].
  unfold component in Hok, Hcomp.
  destruct (company_step_completes _ _ _ _ _ _ Hok) as (bal & Hbal & Hnan & Hm & Hl).
  exists bal. split; [exact Hbal|]. split; [exact Hnan|]. split.
  - rewrite <- Hm, <- Hcomp. reflexivity.
  - intros old Hold. unfold label_at in Hold.
    destruct (live_labels s !! k) as [rows|] eqn:Hrows; [|discriminate].
    destruct (rows !! "summary") as [columns|] eqn:Hsum; [|discriminate].
    destruct Hl as [st Hst].
    { cbn. rewrite Hsum, Hold. reflexivity. }
    exists st. unfold label_at.
    replace (live_labels s' !! k)
      with (fst (snd (company_step mt (current_period today s) prev k
                        (Some rows, carry_forward_data s !! k))))
      by (rewrite <- Hcomp; reflexivity).
    rewrite Hst. cbn [fmap option_fmap option_map].
    eapply balance_label_text; eassumption.
Qed.

Lemma index_cases (i : Z) :
  0 <= i < 12 ->
  i = 0 \/ i = 1 \/ i = 2 \/ i = 3 \/ i = 4 \/ i = 5 \/ i = 6 \/ i = 7 \/ i = 8
  \/ i = 9 \/ i = 10 \/ i = 11.
Proof. lia. Qed.

(** The previous month of a selection is its calendar predecessor. *)
Lemma prev_is_predecessor (today : date) (year : Z) (month_name : string) (i : Z) :
  index month_name MONTH_NAMES = Some i -> 1 <= year <= 9999 ->
  ~ (year = 1 /\ i = 0) ->
  get_prev_month_year_str today year month_name
  = Ok (strftime_Ym (if i =? 0 then year - 1 else year) (if i =? 0 then 12 else i)).
Proof.
  intros Hi Hy Hfirst. unfold get_prev_month_year_str. rewrite Hi.
  apply index_range in Hi. cbn [length MONTH_NAMES] in Hi.
  rewrite (proj2 (Z.leb_le 1 year)), (proj2 (Z.leb_le year 9999)) by lia.
  cbn [andb]. unfold month_before.
  destruct (Z.eqb_spec i 0) as [->|Hne].
  - cbn. destruct (Z.ltb_spec 1 year); [reflexivity | lia].
  - destruct (Z.ltb_spec 1 (i + 1)); [|lia]. cbn [bind].
    replace (i + 1 - 1) with i by lia. reflexivity.
Qed.

(** The month that follows reads the period that this month writes. *)
Lemma following_month_prev (today : date) (year : Z) (month_name : string) y' name' :
  following_month year month_name = Some (y', name') ->
  1000 <= year -> y' <= 9999 ->
  get_prev_month_year_str today y' name'
  = Ok (get_month_year_str today year month_name).
Proof.
  unfold following_month, get_month_year_str.
  destruct (index month_name MONTH_NAMES) as [i|] eqn:Hi; [|discriminate].
  apply index_range in Hi. cbn [length MONTH_NAMES] in Hi. apply index_cases in Hi.
  assert (Hpad : forall m, 1000 <= year ->
             strftime_Ym year m = pretty year +:+ "-" +:+ pad2 m).
  { intros m Hy. unfold strftime_Ym.
    destruct (Z.ltb_spec year 10); [lia|]. destruct (Z.ltb_spec year 100); [lia|].
    destruct (Z.ltb_spec year 1000); [lia|]. reflexivity. }
  intros Hnext Hy Hy'.
  repeat (destruct Hi as [->|Hi]); try subst i; cbn in Hnext;
    injection Hnext as <- <-;
    (erewrite prev_is_predecessor; [|vm_compute; reflexivity|lia|lia]);
    cbn [Z.eqb Pos.eqb]; try (rewrite Hpad by exact Hy; reflexivity).
  replace (year + 1 - 1) with year by lia. rewrite Hpad by exact Hy. reflexivity.
Qed.



Lemma eq_str_spec (v : option pyval) (x : string) :
  eq_str v x = true <-> v = Some (VStr x).
Proof.
  unfold eq_str. destruct v as [[| | | |t| |]|]; try (split; discriminate).
  rewrite String.eqb_eq. split; [intros ->; reflexivity | intros [= ->]; reflexivity].
Qed.





Lemma entry_default (store : gmap string months) (k p : string) :
  entry store k p = default ∅ (store !! k) !! p.
Proof. unfold entry. destruct (store !! k); reflexivity. Qed.

Lemma totals_of_eq (today : date) (s : app) (mt : totals) :
  recalculate_totals (current_period today s) (transactions s) ∅ = Ok mt ->
  totals_of today s = mt.
Proof. unfold totals_of. intros ->. reflexivity. Qed.

(** A run completes only if the previous period and the totals are
    computed without an exception. *)
Lemma recompute_inputs (today : date) (s s' : app) :
  recompute today s = (Ok tt, s') ->
  exists prev mt,
    get_prev_month_year_str today (year_var s) (month_var s) = Ok prev
    /\ recalculate_totals (current_period today s) (transactions s) ∅ = Ok mt.
Proof.
  rewrite recompute_eq.
  destruct (get_prev_month_year_str _ _ _) as [prev|]; [|discriminate].
  destruct (recalculate_totals _ _ _) as [mt|]; [|discriminate].
  intros _. exists prev, mt. auto.
Qed.



End LedgerClaims.

(** C1, as stated, fails: two imports of 9e25 of VAT give company SOL the
    balance -1.8e26 for January 2024, and the entry that the run stores is
    0, not this balance rounded to cents. *)
Lemma C1_counterexample : ~ carry_forward_as_stated.
Proof.
  intros H.
  assert (Hrun : recompute sample_day huge_imports
                 = (Ok tt, snd (recompute sample_day huge_imports)))
    by (vm_compute; reflexivity).
  assert (Hprev : get_prev_month_year_str sample_day (year_var huge_imports)
                    (month_var huge_imports) = Ok "2023-12")
    by (vm_compute; reflexivity).
  assert (Hmt : recalculate_totals (current_period sample_day huge_imports)
                  (transactions huge_imports) ∅
                = Ok (totals_of sample_day huge_imports))
    by (vm_compute; reflexivity).
  assert (Hk : "SOL" ∈ COMPANIES) by (apply list_elem_of_In; cbn; auto).
  assert (Hbal : company_balance (totals_of sample_day huge_imports)
                   (carry_forward_data huge_imports) "2023-12" "SOL"
                 = Ok (Fin (-1800000000000000000000000000) (-1)))
    by (vm_compute; reflexivity).
  specialize (H _ _ _ _ _ _ _ Hrun Hprev Hmt Hk Hbal eq_refl).
  vm_compute in H. discriminate H.
Qed.

(** C1 (amended): after every ledger recomputation that completes, the
    carry-forward store holds an entry at (company, period) exactly when
    that period's balance is negative, and the stored value is that
    balance rounded half up to cents, or 0 when the rounded balance does
    not fit 28 digits (a magnitude of 10^26 or more); when the balance is
    zero or positive the entry is absent, an existing one having been
    deleted.  So the following month, whose previous period is this
    period, reads as previous surplus the stored value, or 0 when no
    entry is stored. *)
Theorem C1_carry_forward (today : date) (s s' : app) (k : string) :
  recompute today s = (Ok tt, s') -> k ∈ COMPANIES ->
  exists prev bal,
    get_prev_month_year_str today (year_var s) (month_var s) = Ok prev
    /\ company_balance (totals_of today s) (carry_forward_data s) prev k = Ok bal
    /\ entry (carry_forward_data s') k (current_period today s)
       = (if negative bal then Some (round2 bal) else None)
    /\ (forall c e, bal = Fin c e -> fits (cents c e) = true ->
          round2 bal = round2_exact bal)
    /\ (forall y' name',
          following_month (year_var s) (month_var s) = Some (y', name') ->
          1000 <= year_var s -> y' <= 9999 ->
          get_prev_month_year_str today y' name' = Ok (current_period today s)
          /\ prev_surplus (carry_forward_data s') k (current_period today s)
             = (if negative bal then round2 bal else zero)).
Proof.
  intros Hrun Hk.
  destruct (recompute_inputs _ _ _ Hrun) as (prev & mt & Hprev & Hmt).
  destruct (recompute_completes _ _ _ _ _ _ Hrun Hprev Hmt Hk)
    as (bal & Hbal & _ & Hstore & _).
  exists prev, bal. rewrite (totals_of_eq _ _ _ Hmt).
  pose proof (entry_months_after _ _ _ _ _ _ Hstore) as Hentry.
  split; [exact Hprev|]. split; [exact Hbal|]. split; [exact Hentry|]. split.
  - intros c e -> Hfit. unfold round2, round2_exact. rewrite Hfit. reflexivity.
  - intros y' name' Hnext Hy Hy'. split.
    + apply following_month_prev; assumption.
    + unfold prev_surplus. rewrite <- entry_default, Hentry.
      destruct (negative bal); reflexivity.
Qed.

(** January 2024: company SOL, with imports of 50.00 of VAT, has the
    balance -50.00, which is stored and read by February 2024; company
    HELO, with sales of 30.00 of VAT, has the balance 30.00, its entry is
    deleted and February reads 0. *)
Lemma C1_witness :
  recompute sample_day january_2024 = (Ok tt, snd (recompute sample_day january_2024))
  /\ "SOL" ∈ COMPANIES /\ "HELO" ∈ COMPANIES
  /\ entry (carry_forward_data (snd (recompute sample_day january_2024))) "SOL"
       (current_period sample_day january_2024)
     = Some (Fin (-5000) (-2))
  /\ prev_surplus (carry_forward_data (snd (recompute sample_day january_2024))) "SOL"
       (current_period sample_day january_2024)
     = Fin (-5000) (-2)
  /\ entry (carry_forward_data (snd (recompute sample_day january_2024))) "HELO"
       (current_period sample_day january_2024)
     = None
  /\ prev_surplus (carry_forward_data (snd (recompute sample_day january_2024))) "HELO"
       (current_period sample_day january_2024)
     = zero.
Proof.
  set (s' := snd (recompute sample_day january_2024)).
  assert (Hrun : recompute sample_day january_2024 = (Ok tt, s'))
    by (vm_compute; reflexivity).
  assert (Hsol : "SOL" ∈ COMPANIES) by (apply list_elem_of_In; cbn; auto).
  assert (Hhelo : "HELO" ∈ COMPANIES) by (apply list_elem_of_In; cbn; auto).
  split; [exact Hrun|]. split; [exact Hsol|]. split; [exact Hhelo|].
  destruct (C1_carry_forward sample_day january_2024 s' "SOL" Hrun Hsol)
    as (prev & bal & Hprev & Hbal & Hentry & _ & Hnext).
  destruct (C1_carry_forward sample_day january_2024 s' "HELO" Hrun Hhelo)
    as (prev2 & bal2 & Hprev2 & Hbal2 & Hentry2 & _ & Hnext2).
  vm_compute in Hprev. injection Hprev as <-.
  vm_compute in Hbal. injection Hbal as <-.
  vm_compute in Hprev2. injection Hprev2 as <-.
  vm_compute in Hbal2. injection Hbal2 as <-.
  destruct (Hnext 2024 "February") as [_ Hread];
    [vm_compute; reflexivity | vm_compute; discriminate | vm_compute; discriminate |].
  destruct (Hnext2 2024 "February") as [_ Hread2];
    [vm_compute; reflexivity | vm_compute; discriminate | vm_compute; discriminate |].
  split; [rewrite Hentry; vm_compute; reflexivity|].
  split; [rewrite Hread; vm_compute; reflexivity|].
  split; [rewrite Hentry2; vm_compute; reflexivity|].
  rewrite Hread2. vm_compute. reflexivity.
Defined.





(** C4: the ledger recomputation is idempotent: a second call with the
    same transactions, the same selection and no mutation in between
    leaves the whole application object, with its labels (the LedgerView)
    and its carry-forward store, as the first call left it. *)
Theorem C4_recompute_idempotent (today : date) (s : app) :
  valid_date today ->
  _update_live_data_display today (_update_live_data_display today s)
  = _update_live_data_display today s.
Proof.
  intros Hday. unfold _update_live_data_display.
  rewrite (recompute_eq today s).
  destruct (get_prev_month_year_str today (year_var s) (month_var s)) as [prev|e] eqn:Hprev.
  2:{ cbn [snd]. rewrite recompute_eq, Hprev. reflexivity. }
  destruct (recalculate_totals (current_period today s) (transactions s) ∅)
    as [mt|e] eqn:Hmt.
  2:{ cbn [snd]. rewrite recompute_eq, Hprev, Hmt. reflexivity. }
  destruct (for_each COMPANIES (update_company mt (current_period today s) prev) s)
    as [r s'] eqn:Hrun.
  cbn [snd].
  destruct (for_each_frame _ _ _ _ _ _ _ Hrun) as [Hform _].
  assert (Hy : year_var s' = year_var s) by (symmetry; apply Hform).
  assert (Hm : month_var s' = month_var s) by (symmetry; apply Hform).
  assert (Ht : transactions s' = transactions s) by (symmetry; apply Hform).
  rewrite recompute_eq. unfold current_period in *. rewrite Hy, Hm, Ht, Hprev, Hmt.
  rewrite (for_each_idem _ _ _ _ _ _ _
             (period_differs _ _ _ _ Hday Hprev) NoDup_COMPANIES Hrun).
  reflexivity.
Qed.

(** January 2024, run twice. *)
Lemma C4_witness :
  valid_date sample_day
  /\ _update_live_data_display sample_day (_update_live_data_display sample_day january_2024)
     = _update_live_data_display sample_day january_2024.
Proof.
  assert (Hday : valid_date sample_day) by (unfold valid_date, sample_day; cbn; lia).
  split; [exact Hday|]. apply (C4_recompute_idempotent sample_day january_2024 Hday).
Defined.



(** * Further properties

    ** Amounts: rounding, parsing and formatting *)

Section Digits.

Lemma list_of_append (a b : string) :
  list_ascii_of_string (a +:+ b) = (list_ascii_of_string a ++ list_ascii_of_string b)%list.
Proof.
  induction a as [|c a IH]; [reflexivity|].
  change (String c a +:+ b) with (String c (a +:+ b)).
  cbn [list_ascii_of_string]. rewrite IH. reflexivity.
Qed.

Lemma int_of_digits_acc (l : list ascii) (acc : Z) :
  fold_left (fun acc a => 10 * acc + (code a - 48)) l acc
  = acc * 10 ^ Z.of_nat (length l) + int_of_digits l.
Proof.
  unfold int_of_digits. revert acc. induction l as [|a l IH]; intros acc.
  - cbn. lia.
  - cbn [fold_left length]. rewrite IH, (IH (10 * 0 + _)).
    rewrite Nat2Z.inj_succ, Z.pow_succ_r by lia. lia.
Qed.

Lemma int_of_digits_app (a b : list ascii) :
  int_of_digits (a ++ b)
  = int_of_digits a * 10 ^ Z.of_nat (length b) + int_of_digits b.
Proof.
  unfold int_of_digits at 1. rewrite fold_left_app, int_of_digits_acc. reflexivity.
Qed.

Lemma pretty_N_char_digit (y : N) :
  (y < 10)%N ->
  is_digit (pretty_N_char y) = true /\ code (pretty_N_char y) - 48 = Z.of_N y.
Proof.
  intros Hy.
  assert (y = 0 \/ y = 1 \/ y = 2 \/ y = 3 \/ y = 4 \/ y = 5 \/ y = 6 \/ y = 7
          \/ y = 8 \/ y = 9)%N as Hc by lia.
  repeat (destruct Hc as [->|Hc]; [split; reflexivity|]). subst. split; reflexivity.
Qed.

(** The decimal notation is made of digits and reads as the number. *)
Lemma pretty_N_go_digits (x : N) (s : string) :
  exists d,
    list_ascii_of_string (pretty_N_go x s) = (d ++ list_ascii_of_string s)%list
    /\ forallb is_digit d = true
    /\ int_of_digits d = Z.of_N x
    /\ ((0 < x)%N -> d <> []).
Proof.
  revert s. induction (N.lt_wf_0 x) as [x _ IH]. intros s.
  destruct (N.eq_dec x 0%N) as [->|Hx].
  - exists []. rewrite pretty_N_go_0. repeat split; auto; lia.
  - rewrite pretty_N_go_step by lia.
    destruct (IH (x `div` 10)%N ltac:(apply N.div_lt; lia)
                 (String (pretty_N_char (x `mod` 10)) s)) as (d & Hd & Hall & Hint & _).
    destruct (pretty_N_char_digit (x `mod` 10)%N ltac:(apply N.mod_lt; lia))
      as [Hdig Hcode].
    exists (d ++ [pretty_N_char (x `mod` 10)])%list.
    rewrite Hd. cbn [list_ascii_of_string]. rewrite <- app_assoc. split; [reflexivity|].
    split; [rewrite forallb_app, Hall; cbn; rewrite Hdig; reflexivity|].
    split.
    + rewrite int_of_digits_app, Hint. cbn [length]. unfold int_of_digits at 1.
      cbn [fold_left]. rewrite Hcode.
      pose proof (N.div_mod x 10 ltac:(lia)) as Hdm.
      rewrite N2Z.inj_div, N2Z.inj_mod. change (Z.of_N 10) with 10.
      pose proof (Z.div_mod (Z.of_N x) 10 ltac:(lia)). cbn; lia.
    + intros _ E. apply app_eq_nil in E. destruct E as [_ E]. discriminate E.
Qed.

Lemma pretty_digits (n : Z) :
  0 <= n ->
  forallb is_digit (list_ascii_of_string (pretty n)) = true
  /\ int_of_digits (list_ascii_of_string (pretty n)) = n
  /\ list_ascii_of_string (pretty n) <> [].
Proof.
  intros Hn. destruct n as [|p|p]; [repeat split; discriminate| |lia].
  unfold pretty, pretty_Z, pretty, pretty_positive, pretty, pretty_N.
  rewrite decide_False by discriminate.
  destruct (pretty_N_go_digits (N.pos p) "") as (d & Hd & Hall & Hint & Hne).
  rewrite Hd. cbn [list_ascii_of_string]. rewrite app_nil_r.
  split; [exact Hall|]. split; [exact Hint|]. apply Hne. lia.
Qed.

Lemma pad2_digits (m : Z) :
  0 <= m < 100 ->
  exists a b,
    list_ascii_of_string (pad2 m) = [a; b]
    /\ is_digit a = true /\ is_digit b = true /\ int_of_digits [a; b] = m.
Proof.
  intros Hm.
  assert (Hall : forallb (fun k =>
                   match list_ascii_of_string (pad2 (Z.of_nat k)) with
                   | [a; b] => is_digit a && is_digit b
                               && (int_of_digits [a; b] =? Z.of_nat k)
                   | _ => false
                   end) (seq 0 100) = true) by (vm_compute; reflexivity).
  rewrite forallb_forall in Hall.
  specialize (Hall (Z.to_nat m)). rewrite Z2Nat.id in Hall by lia.
  destruct (list_ascii_of_string (pad2 m)) as [|a [|b [|? ?]]];
    try (discriminate Hall; apply in_seq; lia).
  specialize (Hall ltac:(apply in_seq; lia)).
  apply andb_prop in Hall. destruct Hall as [Hall Hint].
  apply andb_prop in Hall. destruct Hall as [Ha Hb].
  exists a, b. repeat split; auto. apply Z.eqb_eq, Hint.
Qed.

Lemma span_digits_app (d rest : list ascii) :
  forallb is_digit d = true ->
  match rest with a :: _ => is_digit a = false | [] => True end ->
  span_digits (d ++ rest) = (d, rest).
Proof.
  intros Hd Hrest. induction d as [|a d IH].
  - destruct rest as [|a r]; [reflexivity|]. cbn [List.app span_digits]. rewrite Hrest.
    reflexivity.
  - cbn [forallb] in Hd. apply andb_prop in Hd. destruct Hd as [Ha Hd].
    cbn [List.app span_digits]. rewrite Ha, (IH Hd). reflexivity.
Qed.

End Digits.

Section ParseFormat.

Lemma digit_not_space (a : ascii) : is_digit a = true -> is_space a = false.
Proof. unfold is_digit, is_space. lia. Qed.

Lemma digit_not_underscore (a : ascii) : is_digit a = true -> a <> "_"%char.
Proof. intros H ->. discriminate H. Qed.

Lemma digit_not_sign (a : ascii) (r : list ascii) :
  is_digit a = true ->
  match a :: r with
  | "-"%char :: r' => (true, r')
  | "+"%char :: r' => (false, r')
  | _ => (false, a :: r)
  end = (false, a :: r).
Proof.
  intros H. destruct a as [[] [] [] [] [] [] [] []]; try discriminate H; reflexivity.
Qed.

Lemma lstrip_head (a : ascii) (r : list ascii) :
  is_space a = false -> lstrip (a :: r) = a :: r.
Proof. intros H. cbn [lstrip]. rewrite H. reflexivity. Qed.

(** A text that neither starts nor ends with white space is not changed
    by [strip]. *)
Lemma strip_id (a b : ascii) (m : list ascii) :
  is_space a = false -> is_space b = false ->
  strip (a :: m ++ [b]) = a :: m ++ [b].
Proof.
  intros Ha Hb.
  assert (Hrev : forall x y (l : list ascii), rev (x :: l ++ [y]) = y :: rev l ++ [x]).
  { intros x y l. cbn [rev]. rewrite rev_app_distr. reflexivity. }
  unfold strip. rewrite lstrip_head by exact Ha.
  rewrite Hrev, lstrip_head by exact Hb. rewrite Hrev, rev_involutive. reflexivity.
Qed.

Lemma filter_all (l : list ascii) :
  Forall (fun a => a <> "_"%char) l -> filter (fun a => a <> "_"%char) l = l.
Proof.
  induction 1 as [|a l Ha _ IH]; [reflexivity|].
  rewrite filter_cons_True by exact Ha. rewrite IH. reflexivity.
Qed.

Lemma digits_no_underscore (d : list ascii) :
  forallb is_digit d = true -> Forall (fun a => a <> "_"%char) d.
Proof.
  intros H. apply Forall_forall. intros a Ha. apply digit_not_underscore.
  rewrite forallb_forall in H. apply H. apply list_elem_of_In, Ha.
Qed.

(** Digits, a point and two digits read as the number in cents. *)
Lemma parse_finite_fixed2 (D : list ascii) (a b : ascii) :
  forallb is_digit D = true -> D <> [] ->
  is_digit a = true -> is_digit b = true ->
  parse_finite (D ++ "."%char :: [a; b])
  = Some (int_of_digits D * 100 + int_of_digits [a; b], -2).
Proof.
  intros HD Hne Ha Hb. unfold parse_finite.
  rewrite (span_digits_app D) by (auto; reflexivity).
  cbn [span_digits]. rewrite Ha, Hb.
  destruct (D ++ [a; b])%list eqn:E.
  { apply app_eq_nil in E. destruct E as [E _]. contradiction. }
  rewrite <- E, int_of_digits_app. reflexivity.
Qed.

(** A sign and a text of digits, points and letters that starts and ends
    with a digit: the constructor reads the sign and parses the rest. *)
Lemma Decimal_of_str_signed (s : string) (neg : bool) (d0 b : ascii) (m : list ascii)
    (c e : Z) :
  list_ascii_of_string s = ((if neg then ["-"%char] else []) ++ d0 :: m ++ [b])%list ->
  is_digit d0 = true -> is_digit b = true ->
  Forall (fun x => x <> "_"%char) m ->
  parse_finite (d0 :: m ++ [b]) = Some (c, e) ->
  Decimal_of_str s = Some (Fin (if neg then - c else c) e).
Proof.
  intros Hs Hd0 Hb Hm Hparse. unfold Decimal_of_str. rewrite Hs.
  assert (Hbody : filter (fun a => a <> "_"%char) (d0 :: m ++ [b]) = d0 :: m ++ [b]).
  { apply filter_all. constructor; [apply digit_not_underscore, Hd0|].
    apply Forall_app. split; [exact Hm|].
    constructor; [apply digit_not_underscore, Hb | constructor]. }
  destruct neg; cbn [List.app].
  - pose proof (strip_id "-"%char b (d0 :: m) eq_refl (digit_not_space _ Hb)) as Hstrip.
    cbn [List.app] in Hstrip. rewrite Hstrip.
    rewrite filter_cons_True by discriminate.
    rewrite Hbody, Hparse. reflexivity.
  - rewrite (strip_id d0 b m) by (auto using digit_not_space).
    rewrite Hbody, digit_not_sign by exact Hd0. rewrite Hparse. reflexivity.
Qed.

(** A number written with two decimals is read back as it was rounded. *)
Lemma parse_format_fixed2 (c e : Z) :
  Decimal_of_str (format_2f (Fin c e))
  = Some (Fin (rescale round_half_even c e (-2)) (-2)).
Proof.
  unfold format_2f, format_fixed2.
  set (c' := rescale round_half_even c e (-2)).
  assert (Hq : 0 <= Z.abs c' / 100) by (apply Z.div_pos; lia).
  destruct (pretty_digits _ Hq) as (HD & HDint & HDne).
  destruct (pad2_digits (Z.abs c' mod 100) ltac:(apply Z.mod_pos_bound; lia))
    as (a & b & Hab & Ha & Hb & Habint).
  destruct (list_ascii_of_string (pretty (Z.abs c' / 100))) as [|d0 D0] eqn:ED;
    [contradiction|].
  assert (Hd0 : is_digit d0 = true) by (cbn in HD; apply andb_prop in HD; apply HD).
  assert (HD0 : forallb is_digit D0 = true) by (cbn in HD; apply andb_prop in HD; apply HD).
  replace (Fin c' (-2)) with (Fin (if c' <? 0 then - Z.abs c' else Z.abs c') (-2))
    by (f_equal; destruct (Z.ltb_spec c' 0); lia).
  apply (Decimal_of_str_signed _ (c' <? 0) d0 b (D0 ++ ["."%char; a])).
  - rewrite !list_of_append, ED, Hab. destruct (c' <? 0); cbn [list_ascii_of_string List.app];
      rewrite <- app_assoc; reflexivity.
  - exact Hd0.
  - exact Hb.
  - apply Forall_app. split; [apply digits_no_underscore, HD0|].
    constructor; [discriminate|]. constructor; [apply digit_not_underscore, Ha|constructor].
  - rewrite <- app_assoc. cbn [List.app].
    pose proof (parse_finite_fixed2 (d0 :: D0) a b HD ltac:(discriminate) Ha Hb) as Hp.
    cbn [List.app] in Hp. rewrite Hp, HDint, Habint. f_equal. f_equal.
    pose proof (Z.div_mod (Z.abs c') 100 ltac:(lia)). lia.
Qed.

Lemma format_2f_nonempty (c e : Z) : format_2f (Fin c e) <> "".
Proof.
  intros E. apply (f_equal String.length) in E.
  unfold format_2f, format_fixed2 in E. rewrite !string_app_length in E.
  cbn [String.length] in E. lia.
Qed.

End ParseFormat.

Section HelperFacts.


End HelperFacts.


(** X2: the text of an amount formatted with two decimals, as the
    derivations write it into a field, is read back by
    [_safely_get_decimal] as that amount rounded to two decimals; for an
    amount of two decimals it is read back as it is. *)
Theorem X2_parse_format (c e : Z) :
  _safely_get_decimal (format_2f (Fin c e))
  = Some (Fin (rescale round_half_even c e (-2)) (-2))
  /\ _safely_get_decimal (format_2f (Fin c (-2))) = Some (Fin c (-2)).
Proof.
  assert (H : forall c e, _safely_get_decimal (format_2f (Fin c e))
                          = Some (Fin (rescale round_half_even c e (-2)) (-2))).
  { intros c0 e0. unfold _safely_get_decimal.
    destruct (String.eqb_spec (format_2f (Fin c0 e0)) "") as [E|_].
    - exfalso. exact (format_2f_nonempty _ _ E).
    - apply parse_format_fixed2. }
  split; [apply H|]. rewrite H. unfold rescale. cbn. rewrite Z.mul_1_r. reflexivity.
Qed.

(** ** The derivations followed by the validation *)

Section DeriveValidate.

Lemma round_half_up_bounds (c k : Z) :
  0 <= c -> 0 <= k ->
  0 <= round_half_up c k /\ 2 * Z.abs (c - round_half_up c k * 10 ^ k) <= 10 ^ k.
Proof.
  intros Hc Hk. unfold round_half_up.
  assert (HP : 0 < 10 ^ k) by (apply Z.pow_pos_nonneg; lia).
  rewrite (Z.abs_eq c) by exact Hc.
  pose proof (Z.div_mod c (10 ^ k) ltac:(lia)) as Hdm.
  pose proof (Z.mod_pos_bound c (10 ^ k) HP) as Hm.
  assert (Hq : 0 <= c / 10 ^ k) by (apply Z.div_pos; lia).
  set (q := c / 10 ^ k) in *. set (r := c mod 10 ^ k) in *. set (P := 10 ^ k) in *.
  destruct (Z.eq_dec c 0) as [->|Hnz].
  - cbn [Z.sgn]. rewrite Z.mul_0_l. cbn. lia.
  - replace (Z.sgn c) with 1 by (symmetry; apply Z.sgn_pos; lia). rewrite Z.mul_1_l.
    destruct (Z.leb_spec P (2 * r)); split; nia.
Qed.

(** A number of at most 28 digits with an exponent in range is exact. *)
Lemma fix_small (d e : Z) :
  Z.abs d < 10 ^ 28 -> Etiny <= e <= Etop -> fix_ d e = Ok (Fin d e).
Proof.
  intros Hd He. destruct (Z.eq_dec d 0) as [->|Hnz].
  - unfold fix_. cbn [Z.eqb]. unfold Etop, Etiny, Emax, Emin, prec in *.
    rewrite Z.max_l, Z.min_l by lia. reflexivity.
  - assert (Hn : ndigits d <= 28) by (apply ndigits_le; [lia | exact Hd]).
    apply fix_exact; unfold Etop, Etiny, Emax, Emin, prec in *; lia.
Qed.

Lemma lt_zero_nonneg (c e : Z) : 0 <= c -> Dec.lt (Fin c e) zero = Ok false.
Proof.
  intros Hc. unfold Dec.lt, compare_with, cmp, zero. cbn [is_nan orb].
  rewrite Z.mul_0_l.
  assert (0 < 10 ^ (e - Z.min e 0)) by (apply Z.pow_pos_nonneg; lia).
  destruct (Z.compare_spec (c * 10 ^ (e - Z.min e 0)) 0); try reflexivity. nia.
Qed.

Lemma ge_zero_nonneg (c e : Z) : 0 <= c -> ge (Fin c e) zero = Ok true.
Proof.
  intros Hc. unfold ge, compare_with, cmp, zero. cbn [is_nan orb].
  rewrite Z.mul_0_l.
  assert (0 < 10 ^ (e - Z.min e 0)) by (apply Z.pow_pos_nonneg; lia).
  destruct (Z.compare_spec (c * 10 ^ (e - Z.min e 0)) 0); try reflexivity. nia.
Qed.

(** The difference between an amount and its rounding to cents is within
    the tolerance of the validation. *)
Lemma rounding_within_tolerance (S e : Z) :
  0 <= S < 10 ^ 25 -> -25 <= e <= 0 ->
  exists w,
    round2 (Fin S e) = Fin w (-2) /\ 0 <= w
    /\ w * 10 ^ (- e) <= S * 100 + 10 ^ (- e)
    /\ (let* diff := sub (Fin S e) (Fin w (-2)) in
        let* a := abs diff in gt a (Fin 1 (-2))) = Ok false.
Proof.
  intros HS He.
  assert (Hrange : forall x, -25 <= x <= 0 -> Etiny <= x <= Etop)
    by (unfold Etop, Etiny, Emax, Emin, prec; lia).
  destruct (Z.leb_spec (-2) e) as [Hle|Hgt].
  - (* at most two decimals: the rounding is exact *)
    assert (HP : 0 < 10 ^ (e + 2)) by (apply Z.pow_pos_nonneg; lia).
    assert (HPle : 10 ^ (e + 2) <= 10 ^ 2) by (apply Z.pow_le_mono_r; lia).
    assert (Hw : cents S e = S * 10 ^ (e + 2)).
    { unfold cents, rescale. rewrite (proj2 (Z.leb_le (-2) e)) by lia.
      replace (e - -2) with (e + 2) by lia. reflexivity. }
    exists (S * 10 ^ (e + 2)). unfold round2, fits. rewrite Hw.
    assert (Hfit : Z.abs (S * 10 ^ (e + 2)) < 10 ^ prec).
    { rewrite Z.abs_eq by nia. unfold prec.
      assert (S * 10 ^ (e + 2) <= S * 10 ^ 2) by nia. lia. }
    rewrite (proj2 (Z.ltb_lt _ _) Hfit). split; [reflexivity|]. split; [nia|].
    split.
    { assert (H100 : 10 ^ (e + 2) * 10 ^ (- e) = 100).
      { rewrite <- Z.pow_add_r by lia. replace (e + 2 + - e) with 2 by lia. reflexivity. }
      assert (0 < 10 ^ (- e)) by (apply Z.pow_pos_nonneg; lia). nia. }
    rewrite sub_two_decimal; [|lia|rewrite Z.sub_diag; reflexivity].
    rewrite Z.sub_diag. cbn [bind abs]. rewrite fix_small; [reflexivity | cbn; lia | apply Hrange; lia].
  - (* more than two decimals *)
    set (k := -2 - e). assert (Hk : 0 < k) by (unfold k; lia).
    assert (HP : 0 < 10 ^ k) by (apply Z.pow_pos_nonneg; lia).
    destruct (round_half_up_bounds S k ltac:(lia) ltac:(lia)) as [Hw0 Herr].
    assert (Hw : cents S e = round_half_up S k).
    { unfold cents, rescale. rewrite (proj2 (Z.leb_gt (-2) e)) by lia. reflexivity. }
    set (w := round_half_up S k) in *.
    assert (HwS : w * 10 ^ k <= S + 10 ^ k) by lia.
    assert (Hwlt : w < 10 ^ 28).
    { assert (10 <= 10 ^ k) by (change 10 with (10 ^ 1) at 1; apply Z.pow_le_mono_r; lia).
      nia. }
    exists w. unfold round2, fits. rewrite Hw.
    rewrite (proj2 (Z.ltb_lt _ _)) by (unfold prec; lia).
    split; [reflexivity|]. split; [exact Hw0|].
    split.
    { assert (H100 : 10 ^ (- e) = 10 ^ k * 100).
      { replace (- e) with (k + 2) by (unfold k; lia).
        rewrite Z.pow_add_r by lia. reflexivity. }
      rewrite H100. nia. }
    unfold sub, negate, add, check_nans. rewrite Z.min_l by lia.
    rewrite Z.sub_diag, Z.pow_0_r, Z.mul_1_r. fold k.
    replace (S + - w * 10 ^ k) with (S - w * 10 ^ k) by lia.
    set (d := S - w * 10 ^ k) in *.
    assert (Hd : Z.abs d < 10 ^ 28).
    { assert (10 ^ k <= 10 ^ 28) by (apply Z.pow_le_mono_r; lia). lia. }
    rewrite fix_small by auto. cbn [bind abs].
    rewrite fix_small by (auto; lia). cbn [bind].
    unfold gt, compare_with, cmp. cbn [is_nan orb]. rewrite Z.min_l by lia.
    rewrite Z.sub_diag, Z.pow_0_r, Z.mul_1_r, Z.mul_1_l. fold k.
    destruct (Z.compare_spec (Z.abs d) (10 ^ k)); try reflexivity. lia.
Qed.

Lemma safely_get_format (c : Z) :
  _safely_get_decimal (format_2f (Fin c (-2))) = Some (Fin c (-2)).
Proof.
  unfold _safely_get_decimal.
  destruct (String.eqb_spec (format_2f (Fin c (-2))) "") as [E|_].
  - exfalso. exact (format_2f_nonempty _ _ E).
  - rewrite parse_format_fixed2. unfold rescale. cbn. rewrite Z.mul_1_r. reflexivity.
Qed.

(** The state that a derivation from the base leaves. *)
Lemma calculate_from_base_state (s : app) (base p t : Decimal) :
  ready s ->
  _safely_get_decimal (v_pa_tvsh_var s) = Some base ->
  ge base zero = Ok true ->
  mul base (vat_rate s) = Ok p ->
  add base (round2 p) = Ok t ->
  snd (_calculate_from_base s)
  = set_calculating false
      (set_v_me_tvsh_var (format_2f (round2 t))
         (set_tvsh_var (format_2f (round2 p)) (set_calculating true s))).
Proof.
  intros (Hc & Hme & Hpa & Htv) Hparse Hge Hmul Hadd.
  unfold _calculate_from_base. unfold_M.
  rewrite Hc, Hpa. cbn [orb negb set_calculating].
  rewrite Hparse, Hge. cbn [bind v_pa_tvsh_var vat_rate]. rewrite Hmul. cbn [bind].
  rewrite quantize_decimal_VDec. rewrite Hadd. cbn [bind].
  rewrite quantize_decimal_VDec. rewrite Htv, Hme. reflexivity.
Qed.

(** Three amounts that are not negative and pass the consistency check
    are accepted. *)
Lemma validate_inputs_accepts (today : date) (s : app) (c e v w : Z) (sum : Decimal) :
  _safely_get_decimal (v_pa_tvsh_var s) = Some (Fin c e) ->
  _safely_get_decimal (tvsh_var s) = Some (Fin v (-2)) ->
  _safely_get_decimal (v_me_tvsh_var s) = Some (Fin w (-2)) ->
  0 <= c -> 0 <= v -> 0 <= w ->
  add (Fin c e) (Fin v (-2)) = Ok sum ->
  (let* diff := sub sum (Fin w (-2)) in
   let* a := abs diff in gt a (Fin 1 (-2))) = Ok false ->
  _validate_inputs today s
  = Ok (Accepted (get_month_year_str today (year_var s) (month_var s))
          (round2 (Fin c e)) (round2 (Fin v (-2))) (round2 (Fin w (-2)))).
Proof.
  intros Hb Hv Ht Hc Hv0 Hw0 Hsum Hcheck. unfold _validate_inputs.
  rewrite Hb, Hv, Ht. rewrite !lt_zero_nonneg by assumption. cbn [bind].
  rewrite Hsum. cbn [bind]. rewrite Hcheck. cbn [bind].
  rewrite !quantize_decimal_VDec. reflexivity.
Qed.

End DeriveValidate.

(** X3: a base amount that is not negative, below 10^20 and of at most 20
    decimals, once the derivation has filled in the VAT and the total at
    the rate 0.18, passes the validation: the triple is accepted with the
    base rounded to cents and the VAT and the total as the fields show
    them. *)
Theorem X3_derived_from_base_is_valid (today : date) (s : app) (c e : Z) :
  ready s -> vat_rate s = DEFAULT_VAT_RATE ->
  _safely_get_decimal (v_pa_tvsh_var s) = Some (Fin c e) ->
  0 <= c < 10 ^ 20 -> -20 <= e <= 0 ->
  exists vat total,
    tvsh_var (snd (_calculate_from_base s)) = format_2f (Fin vat (-2))
    /\ v_me_tvsh_var (snd (_calculate_from_base s)) = format_2f (Fin total (-2))
    /\ _validate_inputs today (snd (_calculate_from_base s))
       = Ok (Accepted (get_month_year_str today (year_var s) (month_var s))
               (round2 (Fin c e)) (Fin vat (-2)) (Fin total (-2))).
Proof.
  intros Hready Hrate Hparse Hc He.
  assert (Hrange : forall x, -25 <= x <= 0 -> Etiny <= x <= Etop)
    by (unfold Etop, Etiny, Emax, Emin, prec; lia).
  assert (Hmul : mul (Fin c e) (vat_rate s) = Ok (Fin (c * 18) (e + -2))).
  { rewrite Hrate. unfold DEFAULT_VAT_RATE, mul, check_nans.
    apply fix_small; [lia | apply Hrange; lia]. }
  destruct (rounding_within_tolerance (c * 18) (e + -2) ltac:(lia) ltac:(lia))
    as (v & Hv & Hv0 & Hvle & _).
  assert (HPe : 0 < 10 ^ (- e)) by (apply Z.pow_pos_nonneg; lia).
  assert (Hvle' : v * 10 ^ (- e) <= c * 18 + 10 ^ (- e)).
  { replace (- (e + -2)) with (- e + 2) in Hvle by lia.
    rewrite Z.pow_add_r in Hvle by lia. change (10 ^ 2) with 100 in Hvle. nia. }
  set (m := Z.min e (-2)).
  set (St := c * 10 ^ (e - m) + v * 10 ^ (-2 - m)).
  assert (Hadd : add (Fin c e) (Fin v (-2)) = Ok (Fin St m)
                 /\ 0 <= St < 10 ^ 25).
  { assert (HSt : 0 <= St < 10 ^ 25).
    { unfold St, m. destruct (Z.min_spec e (-2)) as [[Hlt ->]|[Hle ->]].
      - rewrite Z.sub_diag, Z.pow_0_r, Z.mul_1_r.
        assert (H100 : 10 ^ (- e) = 10 ^ (-2 - e) * 100).
        { replace (- e) with (-2 - e + 2) by lia.
          rewrite Z.pow_add_r by lia. reflexivity. }
        assert (0 < 10 ^ (-2 - e)) by (apply Z.pow_pos_nonneg; lia).
        assert (10 ^ (-2 - e) <= 10 ^ 18) by (apply Z.pow_le_mono_r; lia).
        rewrite H100 in Hvle'. nia.
      - rewrite Z.sub_diag, Z.pow_0_r, Z.mul_1_r.
        assert (0 < 10 ^ (e - -2)) by (apply Z.pow_pos_nonneg; lia).
        assert (10 ^ (e - -2) <= 10 ^ 2) by (apply Z.pow_le_mono_r; lia).
        assert (1 <= 10 ^ (- e)) by lia.
        assert (v <= c * 18 + 1) by nia. nia. }
    split; [|exact HSt]. unfold add, check_nans. fold m. fold St.
    apply fix_small; [lia | apply Hrange; unfold m; lia]. }
  destruct Hadd as [Hadd HSt].
  destruct (rounding_within_tolerance St m HSt ltac:(unfold m; lia))
    as (w & Hw & Hw0 & Hwle & Hcheck).
  assert (Hvfit : Z.abs v < 10 ^ 28) by nia.
  assert (Hwfit : Z.abs w < 10 ^ 28).
  { assert (0 < 10 ^ (- m)) by (apply Z.pow_pos_nonneg; unfold m; lia). nia. }
  rewrite <- Hv in Hadd.
  rewrite (calculate_from_base_state s _ _ _ Hready Hparse
             (ge_zero_nonneg c e ltac:(lia)) Hmul Hadd).
  rewrite Hv, Hw. exists v, w. split; [reflexivity|]. split; [reflexivity|].
  rewrite (validate_inputs_accepts today _ c e v w (Fin St m)); try lia.
  - rewrite !round2_two_decimal by assumption. reflexivity.
  - exact Hparse.
  - apply safely_get_format.
  - apply safely_get_format.
  - rewrite <- Hv. exact Hadd.
  - exact Hcheck.
Qed.

(** The base 100.00. *)
Lemma X3_witness :
  ready (form "100.00" "" "")
  /\ vat_rate (form "100.00" "" "") = DEFAULT_VAT_RATE
  /\ _safely_get_decimal (v_pa_tvsh_var (form "100.00" "" "")) = Some (Fin 10000 (-2))
  /\ exists vat total,
       tvsh_var (snd (_calculate_from_base (form "100.00" "" ""))) = format_2f (Fin vat (-2))
       /\ v_me_tvsh_var (snd (_calculate_from_base (form "100.00" "" "")))
          = format_2f (Fin total (-2))
       /\ _validate_inputs sample_day (snd (_calculate_from_base (form "100.00" "" "")))
          = Ok (Accepted
                  (get_month_year_str sample_day (year_var (form "100.00" "" ""))
                     (month_var (form "100.00" "" "")))
                  (round2 (Fin 10000 (-2))) (Fin vat (-2)) (Fin total (-2))).
Proof.
  assert (Hready : ready (form "100.00" "" "")) by (repeat split).
  split; [exact Hready|]. split; [reflexivity|].
  split; [vm_compute; reflexivity|].
  apply (X3_derived_from_base_is_valid sample_day (form "100.00" "" "") 10000 (-2) Hready);
    [reflexivity | vm_compute; reflexivity | lia | lia].
Defined.

Section Division.

Lemma round_half_even_bounds (c k : Z) :
  0 <= c -> 0 <= k ->
  0 <= round_half_even c k /\ 2 * Z.abs (c - round_half_even c k * 10 ^ k) <= 10 ^ k.
Proof.
  intros Hc Hk. unfold round_half_even.
  assert (HP : 0 < 10 ^ k) by (apply Z.pow_pos_nonneg; lia).
  rewrite (Z.abs_eq c) by exact Hc.
  pose proof (Z.div_mod c (10 ^ k) ltac:(lia)) as Hdm.
  pose proof (Z.mod_pos_bound c (10 ^ k) HP) as Hm.
  assert (Hq : 0 <= c / 10 ^ k) by (apply Z.div_pos; lia).
  set (q := c / 10 ^ k) in *. set (r := c mod 10 ^ k) in *. set (P := 10 ^ k) in *.
  destruct (Z.eq_dec c 0) as [->|Hnz].
  - cbn [Z.sgn]. rewrite Z.mul_0_l. cbn. lia.
  - replace (Z.sgn c) with 1 by (symmetry; apply Z.sgn_pos; lia). rewrite Z.mul_1_l.
    destruct (Z.ltb_spec P (2 * r)); cbn [orb].
    + split; nia.
    + destruct (Z.eqb_spec (2 * r) P); cbn [andb]; [destruct (Z.odd q)|]; split; nia.
Qed.

(** What the context rounding does to a positive result: at most 28
    digits are kept, and the result is within half a unit of the last
    digit kept. *)
Lemma fix_round (c e : Z) :
  0 < c -> -100000 <= e <= 100000 -> ndigits c <= 1000 ->
  exists c' e',
    fix_ c e = Ok (Fin c' e')
    /\ e <= e' /\ 0 < c' < 10 ^ 28
    /\ 2 * 10 ^ 26 * Z.abs (c - c' * 10 ^ (e' - e)) <= c.
Proof.
  intros Hc He Hnd.
  destruct (ndigits_spec c ltac:(lia)) as (Hn1 & Hlo & Hhi).
  rewrite Z.abs_eq in Hlo, Hhi by lia.
  unfold fix_. rewrite (proj2 (Z.eqb_neq c 0)) by lia. cbv zeta.
  unfold Etop, Etiny, Emax, Emin, prec.
  rewrite (proj2 (Z.ltb_ge _ _)) by lia.
  rewrite Z.max_l by lia.
  destruct (Z.ltb_spec e (ndigits c + e - 28)) as [Hround|Hexact].
  - set (k := ndigits c - 28). assert (Hk : 0 < k) by (unfold k; lia).
    replace (ndigits c + e - 28 - e) with k by (unfold k; lia).
    destruct (round_half_even_bounds c k ltac:(lia) ltac:(lia)) as [Hr0 Herr].
    set (r := round_half_even c k) in *.
    assert (HP : 0 < 10 ^ k) by (apply Z.pow_pos_nonneg; lia).
    assert (Hsplit : 10 ^ ndigits c = 10 ^ 28 * 10 ^ k).
    { rewrite <- Z.pow_add_r by lia. f_equal. unfold k. lia. }
    assert (Hsplit' : 10 ^ (ndigits c - 1) = 10 ^ 27 * 10 ^ k).
    { rewrite <- Z.pow_add_r by lia. f_equal. unfold k. lia. }
    assert (Hrhi : r <= 10 ^ 28) by nia.
    assert (Hrlo : 10 ^ 27 <= r) by nia.
    assert (Hrel : 2 * 10 ^ 26 * Z.abs (c - r * 10 ^ k) <= c).
    { assert (10 ^ 26 * 10 ^ k <= c) by nia. nia. }
    destruct (Z.eq_dec r (10 ^ 28)) as [Heq|Hneq].
    + assert (Hnr : (28 <? ndigits r) = true).
      { apply Z.ltb_lt. destruct (Z_le_gt_dec (ndigits r) 28) as [Hle|]; [|lia].
        apply ndigits_le in Hle; lia. }
      rewrite Hnr. rewrite (proj2 (Z.ltb_ge _ _)) by lia.
      exists (Z.quot r 10), (ndigits c + e - 28 + 1).
      split; [reflexivity|]. rewrite Heq. change (Z.quot (10 ^ 28) 10) with (10 ^ 27).
      split; [lia|]. split; [lia|].
      replace (ndigits c + e - 28 + 1 - e) with (k + 1) by (unfold k; lia).
      rewrite Z.pow_add_r by lia. rewrite Heq in Hrel.
      replace (10 ^ 27 * (10 ^ k * 10 ^ 1)) with (10 ^ 28 * 10 ^ k) by (cbn; lia).
      exact Hrel.
    + assert (Hnr : (28 <? ndigits r) = false).
      { apply Z.ltb_ge. apply ndigits_le; lia. }
      rewrite Hnr. rewrite (proj2 (Z.ltb_ge _ _)) by lia.
      exists r, (ndigits c + e - 28). split; [reflexivity|].
      split; [lia|]. split; [lia|].
      replace (ndigits c + e - 28 - e) with k by (unfold k; lia). exact Hrel.
  - exists c, e. split; [reflexivity|]. split; [lia|].
    assert (c < 10 ^ 28).
    { assert (10 ^ ndigits c <= 10 ^ 28) by (apply Z.pow_le_mono_r; lia). lia. }
    split; [lia|]. rewrite Z.sub_diag, Z.pow_0_r, Z.mul_1_r, Z.sub_diag. cbn. lia.
Qed.

(** Stripping zeros keeps the value. *)
Lemma strip_zeros_value (fuel : nat) (q x ideal : Z) :
  0 < q ->
  let '(q', x') := strip_zeros fuel q x ideal in
  0 < q' /\ x <= x' /\ q' * 10 ^ (x' - x) = q.
Proof.
  revert q x. induction fuel as [|f IH]; intros q x Hq.
  - cbn. rewrite Z.sub_diag. cbn. lia.
  - cbn [strip_zeros].
    destruct ((x <? ideal) && (q mod 10 =? 0)) eqn:Hc.
    + apply andb_prop in Hc. destruct Hc as [_ Hm]. apply Z.eqb_eq in Hm.
      pose proof (Z.div_mod q 10 ltac:(lia)) as Hdm. rewrite Hm in Hdm.
      specialize (IH (q / 10) (x + 1) ltac:(lia)).
      destruct (strip_zeros f (q / 10) (x + 1) ideal) as [q' x'].
      destruct IH as (Hq' & Hx' & Hv). split; [exact Hq'|]. split; [lia|].
      replace (x' - x) with (x' - (x + 1) + 1) by lia.
      rewrite Z.pow_add_r by lia. cbn. lia.
    + rewrite Z.sub_diag. cbn. lia.
Qed.

(** The quotient of two positive numbers: at most 28 digits, and at most
    the exact quotient but for one part in 10^26. *)
Lemma div_positive (c1 e1 c2 e2 : Z) :
  0 < c1 -> 0 < c2 -> ndigits c1 <= ndigits c2 + 29 -> ndigits c2 <= 100 ->
  -1000 <= e1 <= 1000 -> -1000 <= e2 <= 1000 ->
  let shift := ndigits c2 - ndigits c1 + 28 + 1 in
  let x := e1 - e2 - shift in
  let q := c1 * 10 ^ shift / c2 in
  exists cq eq,
    div (Fin c1 e1) (Fin c2 e2) = Ok (Fin cq eq)
    /\ x <= eq /\ 0 < cq < 10 ^ 28
    /\ 10 ^ 26 * (cq * 10 ^ (eq - x)) <= (10 ^ 26 + 1) * (q + 1).
Proof.
  intros H1 H2 Hshift Hnd2 He1 He2 shift x q.
  destruct (ndigits_spec c1 ltac:(lia)) as (Hn1 & Hlo1 & Hhi1).
  destruct (ndigits_spec c2 ltac:(lia)) as (Hn2 & Hlo2 & Hhi2).
  rewrite Z.abs_eq in Hlo1, Hhi1, Hlo2, Hhi2 by lia.
  assert (Hs : 0 <= shift) by (unfold shift; lia).
  assert (HS : 0 < 10 ^ shift) by (apply Z.pow_pos_nonneg; lia).
  (* the quotient has 29 or 30 digits *)
  assert (Hq : 10 ^ 28 <= q < 10 ^ 30).
  { assert (Ea : 10 ^ (ndigits c1 - 1) * 10 ^ shift = 10 ^ 28 * 10 ^ ndigits c2).
    { rewrite <- !Z.pow_add_r by lia. f_equal. unfold shift. lia. }
    assert (Eb : 10 ^ ndigits c1 * 10 ^ shift = 10 ^ 30 * 10 ^ (ndigits c2 - 1)).
    { rewrite <- !Z.pow_add_r by lia. f_equal. unfold shift. lia. }
    assert (0 < 10 ^ (ndigits c2 - 1)) by (apply Z.pow_pos_nonneg; lia).
    unfold q. split.
    - apply Z.div_le_lower_bound; [lia|]. nia.
    - apply Z.div_lt_upper_bound; [lia|]. nia. }
  unfold div, check_nans.
  rewrite (proj2 (Z.eqb_neq c2 0)), (proj2 (Z.eqb_neq c1 0)) by lia.
  change (ndigits c2 - ndigits c1 + prec + 1) with shift.
  rewrite (proj2 (Z.leb_le 0 shift)) by exact Hs.
  rewrite !Z.abs_eq by lia. fold q. fold x.
  replace (Z.sgn c1) with 1 by (symmetry; apply Z.sgn_pos; lia).
  replace (Z.sgn c2) with 1 by (symmetry; apply Z.sgn_pos; lia).
  assert (Hnd : forall c, 0 < c -> c <= 10 ^ 30 -> ndigits c <= 1000).
  { intros c Hc Hle. assert (ndigits c <= 31); [|lia].
    apply ndigits_le; [lia|]. rewrite Z.abs_eq by lia.
    assert (10 ^ 30 < 10 ^ 31) by (apply Z.pow_lt_mono_r; lia). lia. }
  destruct (Z.eqb_spec (c1 * 10 ^ shift mod c2) 0) as [Hr|Hr]; cbn [negb].
  - (* exact quotient *)
    pose proof (strip_zeros_value (Z.to_nat (ndigits q)) q x (e1 - e2) ltac:(lia)) as Hstrip.
    destruct (strip_zeros (Z.to_nat (ndigits q)) q x (e1 - e2)) as [q' x'].
    destruct Hstrip as (Hq' & Hx' & Hv).
    assert (Hx30 : x' - x < 30).
    { destruct (Z_lt_ge_dec (x' - x) 30) as [|Hge]; [assumption|].
      assert (10 ^ 30 <= 10 ^ (x' - x)) by (apply Z.pow_le_mono_r; lia). nia. }
    assert (HP : 0 < 10 ^ (x' - x)) by (apply Z.pow_pos_nonneg; lia).
    destruct (fix_round q' x' Hq' ltac:(unfold x, shift in *; lia)
                ltac:(apply Hnd; [lia | nia]))
      as (c' & e' & Hfix & He' & Hc' & Hrel).
    rewrite !Z.mul_1_l. rewrite Hfix. exists c', e'.
    split; [reflexivity|]. split; [lia|]. split; [exact Hc'|].
    replace (e' - x) with ((e' - x') + (x' - x)) by lia.
    rewrite Z.pow_add_r by lia.
    assert (10 ^ 26 * (c' * 10 ^ (e' - x')) <= (10 ^ 26 + 1) * q') by lia.
    nia.
  - (* inexact quotient: the sticky digit *)
    set (coeff := if q mod 5 =? 0 then q + 1 else q).
    assert (Hcoeff : q <= coeff <= q + 1) by (unfold coeff; destruct (q mod 5 =? 0); lia).
    destruct (fix_round coeff x ltac:(lia) ltac:(unfold x, shift in *; lia)
                ltac:(apply Hnd; lia))
      as (c' & e' & Hfix & He' & Hc' & Hrel).
    rewrite !Z.mul_1_l. rewrite Hfix. exists c', e'.
    split; [reflexivity|]. split; [lia|]. split; [exact Hc'|]. lia.
Qed.

End Division.

Section DeriveQuotient.

(** Rounding to cents, seen from an exponent [x] below that of the number
    and below the cents: at most half a cent is added. *)
Lemma cents_upper (c e x : Z) :
  0 <= c -> x <= e -> x <= -2 ->
  0 <= cents c e
  /\ 2 * (cents c e * 10 ^ (-2 - x)) <= 2 * (c * 10 ^ (e - x)) + 10 ^ (-2 - x).
Proof.
  intros Hc Hx Hx2. unfold cents, rescale.
  assert (HM : 0 < 10 ^ (-2 - x)) by (apply Z.pow_pos_nonneg; lia).
  destruct (Z.leb_spec (-2) e) as [Hle|Hgt].
  - assert (0 < 10 ^ (e - -2)) by (apply Z.pow_pos_nonneg; lia).
    split; [nia|].
    replace (e - x) with ((e - -2) + (-2 - x)) by lia.
    rewrite Z.pow_add_r by lia. lia.
  - destruct (round_half_up_bounds c (-2 - e) Hc ltac:(lia)) as [Hw0 Herr].
    split; [exact Hw0|].
    set (w := round_half_up c (-2 - e)) in *.
    replace (-2 - x) with ((-2 - e) + (e - x)) by lia.
    rewrite Z.pow_add_r by lia.
    assert (0 < 10 ^ (e - x)) by (apply Z.pow_pos_nonneg; lia).
    assert (0 < 10 ^ (-2 - e)) by (apply Z.pow_pos_nonneg; lia).
    assert (2 * (w * 10 ^ (-2 - e)) <= 2 * c + 10 ^ (-2 - e)) by lia.
    nia.
Qed.

(** The quotient of an amount by a rate of two or three digits and two
    decimals, rounded to cents. *)
Lemma div_cents (c1 e1 c2 : Z) :
  0 < c1 < 10 ^ 20 -> -20 <= e1 <= 0 -> 0 < c2 -> 2 <= ndigits c2 <= 3 ->
  let shift := ndigits c2 - ndigits c1 + 28 + 1 in
  let M := 10 ^ (shift - e1 - 4) in
  exists cq eq b q,
    div (Fin c1 e1) (Fin c2 (-2)) = Ok (Fin cq eq)
    /\ round2 (Fin cq eq) = Fin b (-2)
    /\ 0 <= b < 10 ^ 24
    /\ q * c2 <= c1 * 10 ^ shift
    /\ 2 * 10 ^ 26 * (b * M) <= 2 * (10 ^ 26 + 1) * (q + 1) + 10 ^ 26 * M.
Proof.
  intros Hc1 He1 Hc2 Hn2 shift M.
  assert (Hn1 : 1 <= ndigits c1 <= 20).
  { split; [apply ndigits_pos|]. apply ndigits_le; [lia|].
    rewrite Z.abs_eq by lia. lia. }
  destruct (div_positive c1 e1 c2 (-2) ltac:(lia) Hc2 ltac:(lia) ltac:(lia)
              ltac:(lia) ltac:(lia))
    as (cq & eq & Hdiv & Hx & Hcq & Hrel).
  fold shift in Hrel, Hx.
  set (x := e1 - -2 - shift) in *.
  set (q := c1 * 10 ^ shift / c2) in *.
  assert (Hs : 11 <= shift <= 31) by (unfold shift; lia).
  assert (HS : 0 < 10 ^ shift) by (apply Z.pow_pos_nonneg; lia).
  assert (Hq0 : 0 <= q) by (apply Z.div_pos; nia).
  assert (Hqc : q * c2 <= c1 * 10 ^ shift).
  { unfold q. rewrite Z.mul_comm. apply Z.mul_div_le. lia. }
  destruct (cents_upper cq eq x ltac:(lia) Hx ltac:(unfold x; lia)) as [Hb0 Hb].
  replace (-2 - x) with (shift - e1 - 4) in Hb by (unfold x; lia).
  fold M in Hb.
  set (b := cents cq eq) in *.
  set (Q := cq * 10 ^ (eq - x)) in *.
  assert (HM : 10 ^ 7 <= M) by (apply Z.pow_le_mono_r; lia).
  assert (Hrel' : 2 * 10 ^ 26 * (b * M) <= 2 * (10 ^ 26 + 1) * (q + 1) + 10 ^ 26 * M) by lia.
  (* the quotient is below 10^30 *)
  assert (Hq30 : q < 10 ^ 30).
  { destruct (ndigits_spec c1 ltac:(lia)) as (_ & _ & Hhi1).
    destruct (ndigits_spec c2 ltac:(lia)) as (_ & Hlo2 & _).
    rewrite Z.abs_eq in Hhi1, Hlo2 by lia.
    assert (Eb : 10 ^ ndigits c1 * 10 ^ shift = 10 ^ 30 * 10 ^ (ndigits c2 - 1)).
    { rewrite <- !Z.pow_add_r by lia. f_equal. unfold shift. lia. }
    assert (0 < 10 ^ (ndigits c2 - 1)) by (apply Z.pow_pos_nonneg; lia).
    unfold q. apply Z.div_lt_upper_bound; [lia|]. nia. }
  assert (Hb24 : b < 10 ^ 24).
  { destruct (Z_lt_ge_dec b (10 ^ 24)) as [|Hge]; [assumption|exfalso].
    assert (10 ^ 24 * M <= b * M) by nia. lia. }
  exists cq, eq, b, q. split; [exact Hdiv|]. split.
  { unfold round2, fits. fold b. rewrite (proj2 (Z.ltb_lt _ _)); [reflexivity|].
    rewrite Z.abs_eq by lia. unfold prec. lia. }
  split; [lia|]. split; [exact Hqc | exact Hrel'].
Qed.

End DeriveQuotient.

Section DeriveValidate2.

(** The state that a derivation from the VAT leaves. *)
Lemma calculate_from_vat_state (s : app) (vat q t : Decimal) :
  ready s ->
  _safely_get_decimal (tvsh_var s) = Some vat ->
  ge vat zero = Ok true ->
  gt (vat_rate s) zero = Ok true ->
  div vat (vat_rate s) = Ok q ->
  add (round2 q) vat = Ok t ->
  snd (_calculate_from_vat s)
  = set_calculating false
      (set_v_me_tvsh_var (format_2f (round2 t))
         (set_v_pa_tvsh_var (format_2f (round2 q)) (set_calculating true s))).
Proof.
  intros (Hc & Hme & Hpa & Htv) Hparse Hge Hgt Hdiv Hadd.
  unfold _calculate_from_vat. unfold_M.
  rewrite Hc, Htv. cbn [orb negb set_calculating].
  rewrite Hparse, Hge. cbn [bind]. rewrite Hgt.
  cbn [bind tvsh_var vat_rate]. rewrite Hdiv. cbn [bind].
  rewrite quantize_decimal_VDec. rewrite Hadd. cbn [bind].
  rewrite quantize_decimal_VDec. rewrite Hpa, Hme. reflexivity.
Qed.

(** The state that a derivation from the total leaves. *)
Lemma calculate_from_total_state (s : app) (total den q r : Decimal) :
  ready s ->
  _safely_get_decimal (v_me_tvsh_var s) = Some total ->
  add (Fin 1 0) (vat_rate s) = Ok den ->
  ge total zero = Ok true ->
  gt den zero = Ok true ->
  div total den = Ok q ->
  sub total (round2 q) = Ok r ->
  snd (_calculate_from_total s)
  = set_calculating false
      (set_tvsh_var (format_2f (round2 r))
         (set_v_pa_tvsh_var (format_2f (round2 q)) (set_calculating true s))).
Proof.
  intros (Hc & Hme & Hpa & Htv) Hparse Hden Hge Hgt Hdiv Hsub.
  unfold _calculate_from_total. unfold_M.
  rewrite Hc, Hme. cbn [orb negb set_calculating].
  cbn [v_me_tvsh_var vat_rate]. rewrite Hden.
  rewrite Hparse, Hge. cbn [bind]. rewrite Hgt. rewrite Hdiv. cbn [bind].
  rewrite quantize_decimal_VDec. rewrite Hsub. cbn [bind].
  rewrite quantize_decimal_VDec. rewrite Hpa, Htv. reflexivity.
Qed.

(** Three amounts that are not negative and pass the consistency check
    are accepted, whatever their exponents. *)
Lemma validate_inputs_accepts_any (today : date) (s : app)
    (cb eb cv ev ct et : Z) (sum : Decimal) :
  _safely_get_decimal (v_pa_tvsh_var s) = Some (Fin cb eb) ->
  _safely_get_decimal (tvsh_var s) = Some (Fin cv ev) ->
  _safely_get_decimal (v_me_tvsh_var s) = Some (Fin ct et) ->
  0 <= cb -> 0 <= cv -> 0 <= ct ->
  add (Fin cb eb) (Fin cv ev) = Ok sum ->
  (let* diff := sub sum (Fin ct et) in
   let* a := abs diff in gt a (Fin 1 (-2))) = Ok false ->
  _validate_inputs today s
  = Ok (Accepted (get_month_year_str today (year_var s) (month_var s))
          (round2 (Fin cb eb)) (round2 (Fin cv ev)) (round2 (Fin ct et))).
Proof.
  intros Hb Hv Ht Hc Hv0 Hw0 Hsum Hcheck. unfold _validate_inputs.
  rewrite Hb, Hv, Ht. rewrite !lt_zero_nonneg by assumption. cbn [bind].
  rewrite Hsum. cbn [bind]. rewrite Hcheck. cbn [bind].
  rewrite !quantize_decimal_VDec. reflexivity.
Qed.

(** The quotient of a VAT amount by the rate 0.18, in cents. *)
Lemma div_by_rate (V e : Z) :
  0 <= V < 10 ^ 20 -> -20 <= e <= 0 ->
  exists q b,
    div (Fin V e) DEFAULT_VAT_RATE = Ok q
    /\ round2 q = Fin b (-2)
    /\ 0 <= b <= 10 ^ 4 * V
    /\ (e <= -2 -> b * 10 ^ (-2 - e) <= 6 * V + 10 ^ (-2 - e)).
Proof.
  intros HV He. unfold DEFAULT_VAT_RATE.
  destruct (Z.eq_dec V 0) as [->|Hnz].
  - exists (Fin 0 (e - -2)), 0. split.
    { unfold div, check_nans. cbn [Z.eqb].
      apply fix_small; [cbn; lia | unfold Etop, Etiny, Emax, Emin, prec; lia]. }
    split.
    { unfold round2. rewrite cents_0. reflexivity. }
    split; [rewrite Z.mul_0_r; lia|]. intros He2.
    assert (0 < 10 ^ (-2 - e)) by (apply Z.pow_pos_nonneg; lia).
    rewrite Z.mul_0_l, Z.mul_0_r. lia.
  - destruct (div_cents V e 18 ltac:(lia) He ltac:(lia)
                ltac:(change (ndigits 18) with 2; lia))
      as (cq & eq & b & q & Hdiv & Hround & Hb & Hq & Hrel).
    change (ndigits 18) with 2 in *.
    assert (Hn1 : 1 <= ndigits V <= 20).
    { split; [apply ndigits_pos|]. apply ndigits_le; [lia|].
      rewrite Z.abs_eq by lia. lia. }
    set (shift := 2 - ndigits V + 28 + 1) in *.
    set (M := 10 ^ (shift - e - 4)) in *.
    assert (HM : 0 < M) by (apply Z.pow_pos_nonneg; unfold shift; lia).
    set (L := 10 ^ (shift - 2)).
    assert (HL : 0 < L) by (apply Z.pow_pos_nonneg; unfold shift; lia).
    assert (HSL : 10 ^ shift = 100 * L).
    { unfold L. replace shift with (2 + (shift - 2)) at 1 by lia.
      rewrite Z.pow_add_r by (unfold shift; lia). reflexivity. }
    exists (Fin cq eq), b. split; [exact Hdiv|]. split; [exact Hround|].
    split.
    + split; [lia|].
      (* M is at least a hundredth of 10^shift *)
      assert (HLM : L <= 100 * M).
      { unfold L, M. change 100 with (10 ^ 2).
        rewrite <- Z.pow_add_r by (unfold shift; lia).
        apply Z.pow_le_mono_r; lia. }
      destruct (Z_le_gt_dec b (10 ^ 4 * V)) as [|Hgt]; [assumption|exfalso].
      assert (HbM : (10 ^ 4 * V + 1) * M <= b * M) by nia.
      assert (HVL : V * L <= 100 * (V * M)) by nia.
      set (P := V * M) in *. set (VL := V * L) in *.
      assert (HP : 0 <= P) by (unfold P; nia).
      replace ((10 ^ 4 * V + 1) * M) with (10 ^ 4 * P + M) in HbM by (unfold P; ring).
      rewrite HSL in Hq. replace (V * (100 * L)) with (100 * VL) in Hq by (unfold VL; ring).
      lia.
    + intros He2.
      set (N := 10 ^ (-2 - e)).
      assert (HN : 0 < N) by (apply Z.pow_pos_nonneg; lia).
      assert (HMN : M = N * L).
      { unfold M, N, L. rewrite <- Z.pow_add_r by (unfold shift; lia).
        f_equal. lia. }
      destruct (Z_le_gt_dec (b * N) (6 * V + N)) as [|Hgt]; [assumption|exfalso].
      assert (HbM : (6 * V + N + 1) * L <= b * M).
      { rewrite HMN. replace (b * (N * L)) with (b * N * L) by ring. nia. }
      set (VL := V * L) in *.
      assert (HP : 0 <= VL) by (unfold VL; nia).
      replace ((6 * V + N + 1) * L) with (6 * VL + M + L) in HbM
        by (rewrite HMN; unfold VL; ring).
      rewrite HSL in Hq. replace (V * (100 * L)) with (100 * VL) in Hq by (unfold VL; ring).
      lia.
Qed.

(** The quotient of a total of at most two decimals by 1.18, in cents:
    never more than the total. *)
Lemma div_by_gross (T e : Z) :
  0 <= T < 10 ^ 20 -> -2 <= e <= 0 ->
  exists q b,
    div (Fin T e) (Fin 118 (-2)) = Ok q
    /\ round2 q = Fin b (-2)
    /\ 0 <= b <= T * 10 ^ (e + 2).
Proof.
  intros HT He.
  assert (HE : 0 < 10 ^ (e + 2)) by (apply Z.pow_pos_nonneg; lia).
  destruct (Z.eq_dec T 0) as [->|Hnz].
  - exists (Fin 0 (e - -2)), 0. split.
    { unfold div, check_nans. cbn [Z.eqb].
      apply fix_small; [cbn; lia | unfold Etop, Etiny, Emax, Emin, prec; lia]. }
    split.
    { unfold round2. rewrite cents_0. reflexivity. }
    rewrite Z.mul_0_l. lia.
  - destruct (div_cents T e 118 ltac:(lia) ltac:(lia) ltac:(lia)
                ltac:(change (ndigits 118) with 3; lia))
      as (cq & eq & b & q & Hdiv & Hround & Hb & Hq & Hrel).
    change (ndigits 118) with 3 in *.
    assert (Hn1 : 1 <= ndigits T <= 20).
    { split; [apply ndigits_pos|]. apply ndigits_le; [lia|].
      rewrite Z.abs_eq by lia. lia. }
    set (shift := 3 - ndigits T + 28 + 1) in *.
    set (M := 10 ^ (shift - e - 4)) in *.
    assert (HM : 0 < M) by (apply Z.pow_pos_nonneg; unfold shift; lia).
    exists (Fin cq eq), b. split; [exact Hdiv|]. split; [exact Hround|].
    split; [lia|].
    assert (HS : 10 ^ shift = 100 * (10 ^ (e + 2) * M)).
    { unfold M. change 100 with (10 ^ 2).
      rewrite <- !Z.pow_add_r by (unfold shift; lia). f_equal. lia. }
    destruct (Z_le_gt_dec b (T * 10 ^ (e + 2))) as [|Hgt]; [assumption|exfalso].
    set (Tc := T * 10 ^ (e + 2)) in *.
    assert (HbM : (Tc + 1) * M <= b * M) by nia.
    set (P := Tc * M) in *.
    assert (HP : 0 <= P) by (unfold P, Tc; nia).
    replace ((Tc + 1) * M) with (P + M) in HbM by (unfold P; ring).
    rewrite HS in Hq.
    replace (T * (100 * (10 ^ (e + 2) * M))) with (100 * P) in Hq by (unfold P, Tc; ring).
    lia.
Qed.

End DeriveValidate2.

(** X4: a VAT amount that is not negative, below 10^20 and of at most 20
    decimals, once the derivation has filled in the base and the total at
    the rate 0.18, passes the validation: the triple is accepted with the
    VAT rounded to cents and the base and the total as the fields show
    them. *)
Theorem X4_derived_from_vat_is_valid (today : date) (s : app) (V e : Z) :
  ready s -> vat_rate s = DEFAULT_VAT_RATE ->
  _safely_get_decimal (tvsh_var s) = Some (Fin V e) ->
  0 <= V < 10 ^ 20 -> -20 <= e <= 0 ->
  exists base total,
    v_pa_tvsh_var (snd (_calculate_from_vat s)) = format_2f (Fin base (-2))
    /\ v_me_tvsh_var (snd (_calculate_from_vat s)) = format_2f (Fin total (-2))
    /\ _validate_inputs today (snd (_calculate_from_vat s))
       = Ok (Accepted (get_month_year_str today (year_var s) (month_var s))
               (Fin base (-2)) (round2 (Fin V e)) (Fin total (-2))).
Proof.
  intros Hready Hrate Hparse HV He.
  assert (Hrange : forall x, -25 <= x <= 0 -> Etiny <= x <= Etop)
    by (unfold Etop, Etiny, Emax, Emin, prec; lia).
  destruct (div_by_rate V e HV He) as (q & b & Hdiv & Hq & Hb & Hb').
  set (m := Z.min (-2) e).
  set (St := b * 10 ^ (-2 - m) + V * 10 ^ (e - m)).
  assert (HSt : 0 <= St < 10 ^ 25).
  { unfold St, m. destruct (Z.min_spec (-2) e) as [[Hlt ->]|[Hle ->]].
    - rewrite Z.sub_diag, Z.pow_0_r, Z.mul_1_r.
      assert (0 < 10 ^ (e - -2)) by (apply Z.pow_pos_nonneg; lia).
      assert (10 ^ (e - -2) <= 10 ^ 2) by (apply Z.pow_le_mono_r; lia).
      change (10 ^ 2) with 100 in *. nia.
    - rewrite Z.sub_diag, Z.pow_0_r, Z.mul_1_r.
      specialize (Hb' ltac:(lia)).
      assert (0 < 10 ^ (-2 - e)) by (apply Z.pow_pos_nonneg; lia).
      assert (10 ^ (-2 - e) <= 10 ^ 18) by (apply Z.pow_le_mono_r; lia).
      nia. }
  assert (Hadd : add (Fin b (-2)) (Fin V e) = Ok (Fin St m)).
  { unfold add, check_nans. fold m. fold St.
    apply fix_small; [lia | apply Hrange; unfold m; lia]. }
  destruct (rounding_within_tolerance St m HSt ltac:(unfold m; lia))
    as (w & Hw & Hw0 & Hwle & Hcheck).
  assert (Hbfit : Z.abs b < 10 ^ 28) by lia.
  assert (Hwfit : Z.abs w < 10 ^ 28).
  { assert (0 < 10 ^ (- m)) by (apply Z.pow_pos_nonneg; unfold m; lia). nia. }
  assert (Hgt : gt (vat_rate s) zero = Ok true) by (rewrite Hrate; reflexivity).
  rewrite <- Hrate in Hdiv. rewrite <- Hq in Hadd.
  rewrite (calculate_from_vat_state s _ _ _ Hready Hparse
             (ge_zero_nonneg V e ltac:(lia)) Hgt Hdiv Hadd).
  rewrite Hq, Hw. exists b, w. split; [reflexivity|]. split; [reflexivity|].
  rewrite (validate_inputs_accepts_any today _ b (-2) V e w (-2) (Fin St m)); try lia.
  - rewrite !round2_two_decimal by assumption. reflexivity.
  - apply safely_get_format.
  - exact Hparse.
  - apply safely_get_format.
  - rewrite <- Hq. exact Hadd.
  - exact Hcheck.
Qed.

(** X5: a total that is not negative, below 10^20 and of at most two
    decimals, once the derivation has filled in the base and the VAT at
    the rate 0.18, passes the validation: neither derived amount is
    negative, they add up to the total, and the triple is accepted as
    the fields show it. *)
Theorem X5_derived_from_total_is_valid (today : date) (s : app) (T e : Z) :
  ready s -> vat_rate s = DEFAULT_VAT_RATE ->
  _safely_get_decimal (v_me_tvsh_var s) = Some (Fin T e) ->
  0 <= T < 10 ^ 20 -> -2 <= e <= 0 ->
  exists base vat,
    0 <= base /\ 0 <= vat /\ base + vat = T * 10 ^ (e + 2)
    /\ v_pa_tvsh_var (snd (_calculate_from_total s)) = format_2f (Fin base (-2))
    /\ tvsh_var (snd (_calculate_from_total s)) = format_2f (Fin vat (-2))
    /\ _validate_inputs today (snd (_calculate_from_total s))
       = Ok (Accepted (get_month_year_str today (year_var s) (month_var s))
               (Fin base (-2)) (Fin vat (-2)) (Fin (T * 10 ^ (e + 2)) (-2))).
Proof.
  intros Hready Hrate Hparse HT He.
  destruct (div_by_gross T e HT He) as (q & b & Hdiv & Hq & Hb).
  assert (HE : 0 < 10 ^ (e + 2) <= 100).
  { split; [apply Z.pow_pos_nonneg; lia|].
    change 100 with (10 ^ 2). apply Z.pow_le_mono_r; lia. }
  set (Tc := T * 10 ^ (e + 2)) in *.
  assert (HTc : 0 <= Tc < 10 ^ 22) by (unfold Tc; nia).
  assert (Hden : add (Fin 1 0) (vat_rate s) = Ok (Fin 118 (-2)))
    by (rewrite Hrate; reflexivity).
  assert (Hsub : sub (Fin T e) (Fin b (-2)) = Ok (Fin (Tc - b) (-2))).
  { apply sub_two_decimal; [lia|]. fold Tc. lia. }
  rewrite <- Hq in Hsub.
  rewrite (calculate_from_total_state s _ _ _ _ Hready Hparse Hden
             (ge_zero_nonneg T e ltac:(lia)) eq_refl Hdiv Hsub).
  rewrite Hq. rewrite (round2_two_decimal (Tc - b)) by lia.
  exists b, (Tc - b). split; [lia|]. split; [lia|]. split; [lia|].
  split; [reflexivity|]. split; [reflexivity|].
  rewrite (validate_inputs_accepts_any today _ b (-2) (Tc - b) (-2) T e (Fin Tc (-2)));
    try lia.
  - rewrite !round2_two_decimal by lia.
    unfold round2, fits, cents, rescale.
    rewrite (proj2 (Z.leb_le (-2) e)) by lia.
    replace (e - -2) with (e + 2) by lia. fold Tc.
    rewrite (proj2 (Z.ltb_lt _ _)) by (unfold prec; lia). reflexivity.
  - apply safely_get_format.
  - apply safely_get_format.
  - exact Hparse.
  - rewrite add_two_decimal; [|lia|].
    + f_equal. f_equal. change (-2 + 2) with 0. rewrite Z.pow_0_r. lia.
    + change (-2 + 2) with 0. rewrite Z.pow_0_r. lia.
  - unfold sub, negate, add, check_nans. rewrite Z.min_l by lia.
    rewrite Z.sub_diag, Z.pow_0_r, Z.mul_1_r.
    replace (e - -2) with (e + 2) by lia.
    replace (Tc + - T * 10 ^ (e + 2)) with 0 by (unfold Tc; lia).
    reflexivity.
Qed.

(** The VAT 18.00. *)
Lemma X4_witness :
  ready (form "" "18.00" "")
  /\ vat_rate (form "" "18.00" "") = DEFAULT_VAT_RATE
  /\ _safely_get_decimal (tvsh_var (form "" "18.00" "")) = Some (Fin 1800 (-2))
  /\ exists base total,
       v_pa_tvsh_var (snd (_calculate_from_vat (form "" "18.00" "")))
       = format_2f (Fin base (-2))
       /\ v_me_tvsh_var (snd (_calculate_from_vat (form "" "18.00" "")))
          = format_2f (Fin total (-2))
       /\ _validate_inputs sample_day (snd (_calculate_from_vat (form "" "18.00" "")))
          = Ok (Accepted
                  (get_month_year_str sample_day (year_var (form "" "18.00" ""))
                     (month_var (form "" "18.00" "")))
                  (Fin base (-2)) (round2 (Fin 1800 (-2))) (Fin total (-2))).
Proof.
  assert (Hready : ready (form "" "18.00" "")) by (repeat split).
  split; [exact Hready|]. split; [reflexivity|].
  split; [vm_compute; reflexivity|].
  apply (X4_derived_from_vat_is_valid sample_day (form "" "18.00" "") 1800 (-2) Hready);
    [reflexivity | vm_compute; reflexivity | lia | lia].
Defined.

(** The total 118.00. *)
Lemma X5_witness :
  ready (form "" "" "118.00")
  /\ vat_rate (form "" "" "118.00") = DEFAULT_VAT_RATE
  /\ _safely_get_decimal (v_me_tvsh_var (form "" "" "118.00")) = Some (Fin 11800 (-2))
  /\ exists base vat,
       0 <= base /\ 0 <= vat /\ base + vat = 11800 * 10 ^ (-2 + 2)
       /\ v_pa_tvsh_var (snd (_calculate_from_total (form "" "" "118.00")))
          = format_2f (Fin base (-2))
       /\ tvsh_var (snd (_calculate_from_total (form "" "" "118.00")))
          = format_2f (Fin vat (-2))
       /\ _validate_inputs sample_day (snd (_calculate_from_total (form "" "" "118.00")))
          = Ok (Accepted
                  (get_month_year_str sample_day (year_var (form "" "" "118.00"))
                     (month_var (form "" "" "118.00")))
                  (Fin base (-2)) (Fin vat (-2)) (Fin (11800 * 10 ^ (-2 + 2)) (-2))).
Proof.
  assert (Hready : ready (form "" "" "118.00")) by (repeat split).
  split; [exact Hready|]. split; [reflexivity|].
  split; [vm_compute; reflexivity|].
  apply (X5_derived_from_total_is_valid sample_day (form "" "" "118.00") 11800 (-2) Hready);
    [reflexivity | vm_compute; reflexivity | lia | lia].
Defined.

(** ** Periods, and a derivation that raises *)

Section PeriodFacts.

Lemma index_elem (x : string) (l : list string) :
  x ∈ l -> exists i, index x l = Some i.
Proof.
  intros H. apply list_elem_of_In in H. induction l as [|y l IH]; [destruct H|].
  cbn [index]. destruct (String.eqb x y) eqn:E; [eauto|].
  destruct H as [->|H]; [rewrite String.eqb_refl in E; discriminate|].
  destruct (IH H) as [i ->]. eauto.
Qed.

Lemma index_inj (x y : string) (l : list string) (i : Z) :
  index x l = Some i -> index y l = Some i -> x = y.
Proof.
  revert i. induction l as [|z l IH]; intros i; [discriminate|].
  cbn [index].
  destruct (String.eqb_spec x z) as [->|Hx], (String.eqb_spec y z) as [->|Hy].
  - reflexivity.
  - intros [= <-]. destruct (index y l) as [j|] eqn:Ej; [|discriminate].
    apply index_range in Ej. cbn. intros [= E]. lia.
  - destruct (index x l) as [j|] eqn:Ej; [|discriminate].
    apply index_range in Ej. cbn. intros [= E] [= <-]. lia.
  - destruct (index x l) as [j|]; [|discriminate].
    destruct (index y l) as [j'|]; [|discriminate].
    cbn. intros [= <-] [= E]. apply (IH j); f_equal. lia.
Qed.

End PeriodFacts.

(** X6: two selections of a year and a month of the month list stand
    for the same period only if they are the same selection, so the
    transactions of two different months are never added together. *)
Theorem X6_period_injective (today : date) (year year' : Z) (month month' : string) :
  month ∈ MONTH_NAMES -> month' ∈ MONTH_NAMES ->
  get_month_year_str today year month = get_month_year_str today year' month' ->
  year = year' /\ month = month'.
Proof.
  intros Hm Hm'. destruct (index_elem _ _ Hm) as [i Hi], (index_elem _ _ Hm') as [j Hj].
  unfold get_month_year_str. rewrite Hi, Hj.
  pose proof (index_range _ _ _ Hi) as Ri. pose proof (index_range _ _ _ Hj) as Rj.
  cbn [length MONTH_NAMES] in Ri, Rj. cbv zeta. intros E.
  rewrite <- !string_app_assoc in E.
  apply string_app_inj_r in E; [|rewrite !pad2_length by lia; reflexivity].
  destruct E as [E1 E2]. apply pad2_inj in E2; [|lia|lia].
  apply string_app_inj_r in E1; [|reflexivity]. destruct E1 as [E1 _].
  apply (inj pretty) in E1. split; [exact E1|].
  apply (index_inj _ _ MONTH_NAMES i); [exact Hi|]. rewrite Hj. f_equal. lia.
Qed.

(** X7: whatever year and month are selected, on a valid day the period
    that is read as the previous month is never the selected period
    itself, so a run of the ledger never reads the entry it writes. *)
Theorem X7_previous_period_differs (today : date) (year : Z) (month prev : string) :
  valid_date today ->
  get_prev_month_year_str today year month = Ok prev ->
  prev <> get_month_year_str today year month.
Proof.
  intros Hday Hprev E. symmetry in E. revert E. apply period_differs; assumption.
Qed.

(** X8: a base text that reads as a NaN makes the derivation raise
    InvalidOperation in the comparison with 0; the VAT and total fields
    are left as they were, but the calculation flag stays set, and from
    then on the three derivations return at once without deriving
    anything. *)
Theorem X8_nan_leaves_flag_set (s : app) (signaling : bool) :
  ready s ->
  _safely_get_decimal (v_pa_tvsh_var s) = Some (NaN signaling) ->
  fst (_calculate_from_base s) = Raise InvalidOperation
  /\ snd (_calculate_from_base s) = set_calculating true s
  /\ _calculate_from_base (set_calculating true s) = (Ok tt, set_calculating true s)
  /\ _calculate_from_vat (set_calculating true s) = (Ok tt, set_calculating true s)
  /\ _calculate_from_total (set_calculating true s) = (Ok tt, set_calculating true s).
Proof.
  intros (Hc & Hme & Hpa & Htv) Hparse.
  unfold _calculate_from_base, _calculate_from_vat, _calculate_from_total. unfold_M.
  rewrite Hc, Hpa. cbn [orb negb set_calculating _calculating v_pa_tvsh_var].
  rewrite Hparse. auto.
Qed.

(** January 2024, selected twice. *)
Lemma X6_witness :
  "January" ∈ MONTH_NAMES
  /\ get_month_year_str sample_day 2024 "January"
     = get_month_year_str sample_day 2024 "January"
  /\ 2024 = 2024 /\ "January" = "January".
Proof.
  assert (Hm : "January" ∈ MONTH_NAMES) by (apply list_elem_of_In; cbn; auto).
  split; [exact Hm|]. split; [reflexivity|].
  exact (X6_period_injective sample_day 2024 2024 "January" "January" Hm Hm eq_refl).
Defined.

(** January 2024 follows December 2023. *)
Lemma X7_witness :
  valid_date sample_day
  /\ get_prev_month_year_str sample_day 2024 "January" = Ok "2023-12"
  /\ "2023-12" <> get_month_year_str sample_day 2024 "January".
Proof.
  assert (Hd : valid_date sample_day) by (vm_compute; repeat split; discriminate).
  assert (Hp : get_prev_month_year_str sample_day 2024 "January" = Ok "2023-12")
    by (vm_compute; reflexivity).
  split; [exact Hd|]. split; [exact Hp|].
  exact (X7_previous_period_differs sample_day 2024 "January" "2023-12" Hd Hp).
Defined.

(** The base text nan. *)
Lemma X8_witness :
  ready (form "nan" "" "")
  /\ _safely_get_decimal (v_pa_tvsh_var (form "nan" "" "")) = Some (NaN false)
  /\ fst (_calculate_from_base (form "nan" "" "")) = Raise InvalidOperation
  /\ snd (_calculate_from_base (form "nan" "" "")) = set_calculating true (form "nan" "" "")
  /\ _calculate_from_base (set_calculating true (form "nan" "" ""))
     = (Ok tt, set_calculating true (form "nan" "" ""))
  /\ _calculate_from_vat (set_calculating true (form "nan" "" ""))
     = (Ok tt, set_calculating true (form "nan" "" ""))
  /\ _calculate_from_total (set_calculating true (form "nan" "" ""))
     = (Ok tt, set_calculating true (form "nan" "" "")).
Proof.
  assert (Hready : ready (form "nan" "" "")) by (repeat split).
  assert (Hp : _safely_get_decimal (v_pa_tvsh_var (form "nan" "" "")) = Some (NaN false))
    by (vm_compute; reflexivity).
  split; [exact Hready|]. split; [exact Hp|].
  exact (X8_nan_leaves_flag_set (form "nan" "" "") false Hready Hp).
Defined.

(** ** The ledger view *)

Section LedgerView.

(** What a completed loop body has written on the labels of its company. *)
Lemma company_step_rows (mt : totals) (cur prev k : string)
    (rows : option label_rows) (m : option months) :
  fst (company_step mt cur prev k (rows, m)) = Ok tt ->
  exists bal,
    (let* net := net_vat (default ∅ (mt !! k)) in
     add (default zero (default ∅ m !! prev)) net) = Ok bal
    /\ (if has_balance_label rows then
          exists st,
            balance_style bal = Ok st
            /\ fst (snd (company_step mt cur prev k (rows, m)))
               = (fun r => set_bootstyle "summary" "balance" st
                             (set_text "summary" "balance" (format_curr (VDec bal))
                                (totals_texts (default ∅ (mt !! k))
                                   (default zero (default ∅ m !! prev)) r))) <$> rows
        else
          fst (snd (company_step mt cur prev k (rows, m)))
          = totals_texts (default ∅ (mt !! k)) (default zero (default ∅ m !! prev))
              <$> rows).
Proof.
  unfold company_step. cbn [fst snd].
  destruct (net_vat _) as [net|e]; [|discriminate]. cbn [bind].
  destruct (add _ net) as [bal|e]; [|discriminate].
  destruct (has_balance_label rows).
  - destruct (balance_style bal) as [st|e] eqn:Hst; [|discriminate].
    destruct (Dec.lt bal zero) as [neg|e]; [|discriminate]. cbn [fst snd].
    intros _. exists bal. split; [reflexivity|]. exists st. split; [exact Hst|].
    destruct rows; reflexivity.
  - destruct (Dec.lt bal zero) as [neg|e]; [|discriminate]. cbn [fst snd].
    intros _. exists bal. split; [reflexivity|]. reflexivity.
Qed.

Lemma cell_alter (f : label -> label) (row column r c : string) (rows : label_rows) :
  cell (alter (alter f column) row rows) r c
  = if decide (r = row /\ c = column) then f <$> cell rows r c else cell rows r c.
Proof.
  unfold cell. rewrite lookup_alter.
  destruct (decide (row = r)) as [->|Hr].
  - destruct (rows !! r) as [columns|]; cbn [fmap option_fmap option_map].
    + rewrite lookup_alter. destruct (decide (column = c)) as [->|Hc].
      * rewrite decide_True by auto. reflexivity.
      * rewrite decide_False by (intros [_ E]; congruence). reflexivity.
    + destruct (decide _); reflexivity.
  - rewrite decide_False by (intros [E _]; congruence). reflexivity.
Qed.

Lemma cell_set_text (row column t r c : string) (rows : label_rows) :
  cell (set_text row column t rows) r c
  = if decide (r = row /\ c = column)
    then (fun l => {| text := t; bootstyle := bootstyle l |}) <$> cell rows r c
    else cell rows r c.
Proof. apply cell_alter. Qed.

Lemma cell_set_bootstyle (row column r c : string) (st : style) (rows : label_rows) :
  cell (set_bootstyle row column st rows) r c
  = if decide (r = row /\ c = column)
    then (fun l => {| text := text l; bootstyle := st |}) <$> cell rows r c
    else cell rows r c.
Proof. apply cell_alter. Qed.

Lemma label_at_cell (labels : gmap string label_rows) (k r c : string) :
  label_at labels k r c
  = match labels !! k with Some rows => cell rows r c | None => None end.
Proof. reflexivity. Qed.

Lemma format_curr_amount_of (o : option Decimal) :
  format_curr (amount_of o) = format_curr (VDec (default zero o)).
Proof. destruct o; [reflexivity | vm_compute; reflexivity]. Qed.

End LedgerView.

Ltac cells :=
  repeat (first [rewrite cell_set_text | rewrite cell_set_bootstyle];
          first [rewrite decide_True by (split; reflexivity)
                |rewrite decide_False by (intros [? ?]; discriminate)]).

Section LedgerView2.

(** The labels that the totals of a company are written on. *)
Lemma totals_texts_cell data prevv (rows : label_rows) (t col : string) (old : label) :
  t ∈ TRANSACTION_TYPES -> col ∈ AMOUNT_COLUMNS ->
  cell rows t col = Some old ->
  cell (totals_texts data prevv rows) t col
  = Some {| text := format_curr (VDec (column_of data t col)); bootstyle := bootstyle old |}.
Proof.
  intros Ht Hcol Hold. unfold column_of. rewrite <- format_curr_amount_of.
  apply list_elem_of_In in Ht, Hcol. cbn in Ht, Hcol.
  unfold totals_texts, type_texts.
  destruct Ht as [<- | [<- | [<- | []]]]; destruct Hcol as [<- | [<- | [<- | []]]];
    cells; rewrite Hold; reflexivity.
Qed.

Lemma totals_texts_prev data prevv (rows : label_rows) (old : label) :
  cell rows "summary" "prev_surplus" = Some old ->
  cell (totals_texts data prevv rows) "summary" "prev_surplus"
  = Some {| text := format_curr (VDec prevv); bootstyle := bootstyle old |}.
Proof.
  intros Hold. unfold totals_texts, type_texts. cells. rewrite Hold. reflexivity.
Qed.

(** The labels of a known company after a completed run. *)
Lemma recompute_rows (today : date) (s s' : app) (k : string) :
  recompute today s = (Ok tt, s') -> k ∈ COMPANIES ->
  exists prev bal,
    get_prev_month_year_str today (year_var s) (month_var s) = Ok prev
    /\ company_balance (totals_of today s) (carry_forward_data s) prev k = Ok bal
    /\ (if has_balance_label (live_labels s !! k) then
          exists st,
            balance_style bal = Ok st
            /\ live_labels s' !! k
               = (fun r => set_bootstyle "summary" "balance" st
                             (set_text "summary" "balance" (format_curr (VDec bal))
                                (totals_texts (default ∅ (totals_of today s !! k))
                                   (prev_surplus (carry_forward_data s) k prev) r)))
                   <$> live_labels s !! k
        else
          live_labels s' !! k
          = totals_texts (default ∅ (totals_of today s !! k))
              (prev_surplus (carry_forward_data s) k prev) <$> live_labels s !! k).
Proof.
  intros Hrun Hk.
  destruct (recompute_inputs _ _ _ Hrun) as (prev & mt & Hprev & Hmt).
  rewrite (totals_of_eq _ _ _ Hmt).
  rewrite recompute_eq, Hprev, Hmt in Hrun.
  destruct (for_each_completes _ _ _ _ _ _ NoDup_COMPANIES Hrun k Hk) as [Hok Hcomp].
  unfold component in Hok, Hcomp.
  destruct (company_step_rows _ _ _ _ _ _ Hok) as (bal & Hbal & Hrows).
  exists prev, bal. split; [exact Hprev|]. split; [exact Hbal|].
  replace (live_labels s' !! k)
    with (fst (snd (company_step mt (current_period today s) prev k
                      (live_labels s !! k, carry_forward_data s !! k))))
    by (rewrite <- Hcomp; reflexivity).
  exact Hrows.
Qed.

End LedgerView2.

(** X9: a run of the ledger recomputation, whether it completes or
    raises, changes nothing but the labels and the carry-forward store:
    the transactions, the selected company, year and month, the three
    amount fields, the VAT rate, the calculation flag and the focus are
    left as they were. *)
Theorem X9_recompute_leaves_form (today : date) (s : app) :
  same_form s (_update_live_data_display today s).
Proof.
  unfold _update_live_data_display. rewrite recompute_eq.
  destruct (get_prev_month_year_str _ _ _) as [prev|]; [|apply same_form_refl].
  destruct (recalculate_totals _ _ _) as [mt|]; [|apply same_form_refl].
  destruct (for_each COMPANIES _ s) as [r s'] eqn:E.
  apply (for_each_frame _ _ _ _ _ _ _ E).
Qed.

(** X10: after a completed run, every amount label of every known company
    shows the total of its transaction type and column for the selected
    period, and the label of the previous surplus shows the entry of the
    carry-forward store for the previous period (0.00 when there is
    none); the style of these labels is left as it was. *)
Theorem X10_labels_show_totals (today : date) (s s' : app) (k : string) :
  recompute today s = (Ok tt, s') -> k ∈ COMPANIES ->
  (forall t col old,
     t ∈ TRANSACTION_TYPES -> col ∈ AMOUNT_COLUMNS ->
     label_at (live_labels s) k t col = Some old ->
     label_at (live_labels s') k t col
     = Some {| text := format_curr (VDec (column (totals_of today s) k t col));
               bootstyle := bootstyle old |})
  /\ (forall prev old,
        get_prev_month_year_str today (year_var s) (month_var s) = Ok prev ->
        label_at (live_labels s) k "summary" "prev_surplus" = Some old ->
        label_at (live_labels s') k "summary" "prev_surplus"
        = Some {| text := format_curr (VDec (prev_surplus (carry_forward_data s) k prev));
                  bootstyle := bootstyle old |}).
Proof.
  intros Hrun Hk.
  destruct (recompute_rows _ _ _ _ Hrun Hk) as (prev & bal & Hprev & _ & Hrows).
  split.
  - intros t col old Ht Hcol Hold. rewrite label_at_cell in *.
    destruct (live_labels s !! k) as [rows|]; [|discriminate].
    pose proof (totals_texts_cell (default ∅ (totals_of today s !! k))
                  (prev_surplus (carry_forward_data s) k prev) rows t col old
                  Ht Hcol Hold) as Hcell.
    assert (Hne : t <> "summary").
    { apply list_elem_of_In in Ht. cbn in Ht.
      destruct Ht as [<- | [<- | [<- | []]]]; discriminate. }
    destruct (has_balance_label (Some rows)).
    + destruct Hrows as (st & _ & ->). cbn [fmap option_fmap option_map].
      rewrite cell_set_bootstyle, cell_set_text.
      rewrite !decide_False by (intros [? ?]; contradiction). exact Hcell.
    + rewrite Hrows. exact Hcell.
  - intros prev' old Hprev' Hold. rewrite Hprev in Hprev'. injection Hprev' as <-.
    rewrite label_at_cell in *.
    destruct (live_labels s !! k) as [rows|]; [|discriminate].
    pose proof (totals_texts_prev (default ∅ (totals_of today s !! k))
                  (prev_surplus (carry_forward_data s) k prev) rows old Hold) as Hcell.
    destruct (has_balance_label (Some rows)).
    + destruct Hrows as (st & _ & ->). cbn [fmap option_fmap option_map].
      rewrite cell_set_bootstyle, cell_set_text.
      rewrite !decide_False by (intros [? ?]; discriminate). exact Hcell.
    + rewrite Hrows. exact Hcell.
Qed.

(** X11: after a completed run, the balance label of every known company
    has the success style when the balance is negative (a surplus), the
    danger style when it is positive (an amount due) and the default
    style when it is zero. *)
Theorem X11_balance_style (today : date) (s s' : app) (k : string) (old : label) :
  recompute today s = (Ok tt, s') -> k ∈ COMPANIES ->
  label_at (live_labels s) k "summary" "balance" = Some old ->
  exists prev bal,
    get_prev_month_year_str today (year_var s) (month_var s) = Ok prev
    /\ company_balance (totals_of today s) (carry_forward_data s) prev k = Ok bal
    /\ label_at (live_labels s') k "summary" "balance"
       = Some {| text := format_curr (VDec bal); bootstyle := style_of_balance bal |}.
Proof.
  intros Hrun Hk Hold.
  destruct (recompute_rows _ _ _ _ Hrun Hk) as (prev & bal & Hprev & Hbal & Hrows).
  exists prev, bal. split; [exact Hprev|]. split; [exact Hbal|].
  rewrite label_at_cell in *.
  destruct (live_labels s !! k) as [rows|]; [|discriminate].
  assert (Hhas : has_balance_label (Some rows) = true).
  { unfold cell in Hold. cbn. destruct (rows !! "summary"); [|discriminate].
    rewrite Hold. reflexivity. }
  rewrite Hhas in Hrows. destruct Hrows as (st & Hst & ->).
  cbn [fmap option_fmap option_map].
  assert (Hcell : cell (totals_texts (default ∅ (totals_of today s !! k))
                          (prev_surplus (carry_forward_data s) k prev) rows)
                    "summary" "balance" = Some old).
  { unfold totals_texts, type_texts. cells. exact Hold. }
  cells. rewrite Hcell. cbn [fmap option_fmap option_map text bootstyle].
  f_equal. f_equal.
  unfold balance_style, Dec.lt, Dec.gt, compare_with in Hst. unfold style_of_balance.
  destruct (is_nan bal); [discriminate|]. cbn [orb is_nan zero bind] in Hst.
  fold zero in Hst. destruct (cmp bal zero); cbn [bind] in Hst; congruence.
Qed.

(** January 2024: the label of the VAT of the imports of company SOL. *)
Lemma X10_witness :
  recompute sample_day january_2024 = (Ok tt, snd (recompute sample_day january_2024))
  /\ "SOL" ∈ COMPANIES /\ "Imports" ∈ TRANSACTION_TYPES /\ "tvsh" ∈ AMOUNT_COLUMNS
  /\ label_at (live_labels january_2024) "SOL" "Imports" "tvsh" = Some new_label
  /\ label_at (live_labels (snd (recompute sample_day january_2024))) "SOL" "Imports" "tvsh"
     = Some {| text := format_curr
                         (VDec (column (totals_of sample_day january_2024)
                                  "SOL" "Imports" "tvsh"));
               bootstyle := bootstyle new_label |}.
Proof.
  set (s' := snd (recompute sample_day january_2024)).
  assert (Hrun : recompute sample_day january_2024 = (Ok tt, s'))
    by (vm_compute; reflexivity).
  assert (Hk : "SOL" ∈ COMPANIES) by (apply list_elem_of_In; cbn; auto).
  assert (Ht : "Imports" ∈ TRANSACTION_TYPES) by (apply list_elem_of_In; cbn; auto).
  assert (Hc : "tvsh" ∈ AMOUNT_COLUMNS) by (apply list_elem_of_In; cbn; auto).
  assert (Hold : label_at (live_labels january_2024) "SOL" "Imports" "tvsh" = Some new_label)
    by (vm_compute; reflexivity).
  split; [exact Hrun|]. split; [exact Hk|]. split; [exact Ht|]. split; [exact Hc|].
  split; [exact Hold|].
  exact (proj1 (X10_labels_show_totals sample_day january_2024 s' "SOL" Hrun Hk)
           "Imports" "tvsh" new_label Ht Hc Hold).
Defined.

(** January 2024: the balance label of company SOL. *)
Lemma X11_witness :
  recompute sample_day january_2024 = (Ok tt, snd (recompute sample_day january_2024))
  /\ "SOL" ∈ COMPANIES
  /\ label_at (live_labels january_2024) "SOL" "summary" "balance" = Some new_label
  /\ exists prev bal,
       get_prev_month_year_str sample_day (year_var january_2024) (month_var january_2024)
       = Ok prev
       /\ company_balance (totals_of sample_day january_2024)
            (carry_forward_data january_2024) prev "SOL" = Ok bal
       /\ label_at (live_labels (snd (recompute sample_day january_2024)))
            "SOL" "summary" "balance"
          = Some {| text := format_curr (VDec bal); bootstyle := style_of_balance bal |}.
Proof.
  set (s' := snd (recompute sample_day january_2024)).
  assert (Hrun : recompute sample_day january_2024 = (Ok tt, s'))
    by (vm_compute; reflexivity).
  assert (Hk : "SOL" ∈ COMPANIES) by (apply list_elem_of_In; cbn; auto).
  assert (Hold : label_at (live_labels january_2024) "SOL" "summary" "balance"
                 = Some new_label) by (vm_compute; reflexivity).
  split; [exact Hrun|]. split; [exact Hk|]. split; [exact Hold|].
  exact (X11_balance_style sample_day january_2024 s' "SOL" new_label Hrun Hk Hold).
Defined.

Section LabelStructure.

Lemma cell_alter_is_Some (f : label -> label) (row column r c : string)
    (rows : label_rows) :
  is_Some (cell (alter (alter f column) row rows) r c) <-> is_Some (cell rows r c).
Proof.
  rewrite cell_alter. destruct (decide _); [|reflexivity].
  rewrite fmap_is_Some. reflexivity.
Qed.

Lemma totals_texts_is_Some data prevv (rows : label_rows) (r c : string) :
  is_Some (cell (totals_texts data prevv rows) r c) <-> is_Some (cell rows r c).
Proof.
  unfold totals_texts, type_texts, set_text. rewrite !cell_alter_is_Some. reflexivity.
Qed.

(** The loop body never makes or removes a label. *)
Lemma company_step_is_Some (mt : totals) (cur prev k r c : string)
    (x : option label_rows * option months) :
  is_Some (fst (snd (company_step mt cur prev k x)) ≫= fun rows => cell rows r c)
  <-> is_Some (fst x ≫= fun rows => cell rows r c).
Proof.
  assert (H1 : forall data prevv,
             is_Some ((totals_texts data prevv <$> fst x) ≫= fun rows => cell rows r c)
             <-> is_Some (fst x ≫= fun rows => cell rows r c)).
  { intros data prevv. destruct (fst x) as [rows|]; [|reflexivity].
    apply totals_texts_is_Some. }
  assert (H2 : forall data prevv t,
             is_Some ((set_text "summary" "balance" t
                         <$> (totals_texts data prevv <$> fst x))
                      ≫= fun rows => cell rows r c)
             <-> is_Some (fst x ≫= fun rows => cell rows r c)).
  { intros data prevv t. rewrite <- (H1 data prevv).
    destruct (fst x) as [rows|]; [|reflexivity]. apply cell_alter_is_Some. }
  assert (H3 : forall data prevv t st,
             is_Some ((set_bootstyle "summary" "balance" st
                         <$> (set_text "summary" "balance" t
                                <$> (totals_texts data prevv <$> fst x)))
                      ≫= fun rows => cell rows r c)
             <-> is_Some (fst x ≫= fun rows => cell rows r c)).
  { intros data prevv t st. rewrite <- (H2 data prevv t).
    destruct (fst x) as [rows|]; [|reflexivity]. apply cell_alter_is_Some. }
  unfold company_step.
  destruct (net_vat _); [|reflexivity].
  destruct (add _ _) as [bal|]; [|reflexivity].
  destruct (has_balance_label (fst x)).
  - destruct (balance_style bal); [|apply H2].
    destruct (Dec.lt bal zero); apply H3.
  - destruct (Dec.lt bal zero); apply H1.
Qed.

Lemma for_each_is_Some (mt : totals) (cur prev : string) (l : list string)
    (s : app) res s' (k r c : string) :
  for_each l (update_company mt cur prev) s = (res, s') ->
  is_Some (label_at (live_labels s') k r c) <-> is_Some (label_at (live_labels s) k r c).
Proof.
  revert s. induction l as [|j l IH]; intros s.
  - intros [= <- <-]. reflexivity.
  - rewrite for_each_cons. destruct (update_company mt cur prev j s) as [r1 s1] eqn:E1.
    apply update_company_step in E1. destruct E1 as (_ & C1 & F1 & _).
    assert (H1 : is_Some (label_at (live_labels s1) k r c)
                 <-> is_Some (label_at (live_labels s) k r c)).
    { rewrite !label_at_cell. destruct (decide (k = j)) as [->|Hkj].
      - change (live_labels s1 !! j) with (fst (component j s1)). rewrite C1.
        apply (company_step_is_Some mt cur prev j r c (component j s)).
      - change (live_labels s1 !! k) with (fst (component k s1)).
        rewrite (F1 k Hkj). reflexivity. }
    destruct r1 as [[]|e].
    + intros E. rewrite (IH _ E). exact H1.
    + intros [= <- <-]. exact H1.
Qed.

End LabelStructure.

(** X12: a run of the ledger recomputation, whether it completes or
    raises, never makes or removes a label: a label is there after the run
    exactly when it was there before; and the labels made at start-up are
    complete: every known company has a label for every transaction type
    and amount column, one for the previous surplus and one for the
    balance, each showing 0.00 in the default style. *)
Theorem X12_labels_are_kept (today : date) (s : app) (k r c : string) :
  (is_Some (label_at (live_labels (_update_live_data_display today s)) k r c)
   <-> is_Some (label_at (live_labels s) k r c))
  /\ (k ∈ COMPANIES ->
      (r ∈ TRANSACTION_TYPES /\ c ∈ AMOUNT_COLUMNS)
      \/ (r = "summary" /\ (c = "prev_surplus" \/ c = "balance")) ->
      label_at initial_labels k r c
      = Some {| text := format_curr (VInt 0); bootstyle := DEFAULT |}).
Proof.
  split.
  - unfold _update_live_data_display. rewrite recompute_eq.
    destruct (get_prev_month_year_str _ _ _) as [prev|]; [|reflexivity].
    destruct (recalculate_totals _ _ _) as [mt|]; [|reflexivity].
    destruct (for_each COMPANIES _ s) as [res s'] eqn:E. cbn [snd].
    eapply for_each_is_Some, E.
  - intros Hk Hrc. apply list_elem_of_In in Hk. cbn in Hk.
    destruct Hk as [<- | [<- | []]];
      (destruct Hrc as [[Hr Hc] | [-> [-> | ->]]];
       [apply list_elem_of_In in Hr, Hc; cbn in Hr, Hc;
        destruct Hr as [<- | [<- | [<- | []]]]; destruct Hc as [<- | [<- | [<- | []]]]
       | | ]); vm_compute; reflexivity.
Qed.

Section EmptyMonth.



End EmptyMonth.



(** ** Stored records and the data file *)

Section Floats.

Lemma div_half_even_error (n d : Z) :
  0 <= n -> 0 < d ->
  0 <= div_half_even n d /\ 2 * Z.abs (d * div_half_even n d - n) <= d.
Proof.
  intros Hn Hd. unfold div_half_even.
  pose proof (Z.div_mod n d ltac:(lia)) as Hdm.
  pose proof (Z.mod_pos_bound n d Hd) as Hm.
  assert (Hq : 0 <= n / d) by (apply Z.div_pos; lia).
  set (q := n / d) in *. set (r := n mod d) in *.
  destruct (Z.ltb_spec d (2 * r)); cbn [orb].
  - split; nia.
  - destruct (Z.eqb_spec (2 * r) d); cbn [andb]; [destruct (Z.odd q)|]; split; nia.
Qed.

Lemma floor_log2_le (n d : Z) : floor_log2 n d <= Z.log2 n - Z.log2 d.
Proof. unfold floor_log2. destruct (if 0 <=? _ then _ else _); lia. Qed.

(** The double of an amount of cents below 10^15: its distance to the
    amount is less than a two-hundredth of a cent. *)
Lemma double_of_cents (c : Z) :
  0 < c < 10 ^ 15 ->
  exists m K,
    float_of_Decimal (Fin c (-2)) = Ok (FFin m (- (K + 2)))
    /\ 7 <= K /\ 0 <= m /\ Z.abs (25 * m - c * 2 ^ K) < 2 ^ (K - 1).
Proof.
  intros Hc. unfold float_of_Decimal.
  rewrite (proj2 (Z.eqb_neq c 0)) by lia. cbn [Z.leb Z.compare].
  rewrite Z.abs_eq by lia. change (10 ^ (- -2)) with 100.
  unfold double_of_ratio.
  set (e := Z.max (floor_log2 c 100 - 52) (-1074)).
  assert (He : -1074 <= e <= -9).
  { pose proof (floor_log2_le c 100) as Hl. change (Z.log2 100) with 6 in Hl.
    assert (Z.log2 c < 50).
    { apply Z.log2_lt_pow2; [lia|]. change (2 ^ 50) with 1125899906842624. lia. }
    unfold e. lia. }
  rewrite (proj2 (Z.leb_gt 0 e)) by lia.
  rewrite (proj2 (Z.ltb_ge 971 e)) by lia.
  rewrite (proj2 (Z.eqb_neq e 971)) by lia. cbn [orb andb].
  set (K := - e - 2). assert (HK : 7 <= K) by (unfold K; lia).
  assert (HP : 0 < 2 ^ K) by (apply Z.pow_pos_nonneg; lia).
  assert (H2 : 2 ^ (- e) = 4 * 2 ^ K).
  { replace (- e) with (2 + K) by (unfold K; lia). rewrite Z.pow_add_r by lia. reflexivity. }
  destruct (div_half_even_error (c * 2 ^ (- e)) 100 ltac:(nia) ltac:(lia)) as [Hm0 Herr].
  set (m := div_half_even (c * 2 ^ (- e)) 100) in *.
  exists m, K. replace (- (K + 2)) with e by (unfold K; lia).
  replace (Z.sgn c) with 1 by (symmetry; apply Z.sgn_pos; lia). rewrite Z.mul_1_l.
  split; [reflexivity|]. split; [exact HK|]. split; [exact Hm0|].
  rewrite H2 in Herr.
  assert (H64 : 64 <= 2 ^ (K - 1)).
  { change 64 with (2 ^ 6). apply Z.pow_le_mono_r; lia. }
  lia.
Qed.

(** A dyadic number that close to a number of cents rounds to it, ties
    being impossible. *)
Lemma round_dyadic_to_cents (m K c : Z) :
  0 <= K -> 0 <= m -> 0 <= c ->
  2 * Z.abs (25 * m - c * 2 ^ K) < 2 ^ K ->
  round_half_up (m * 5 ^ (K + 2)) K = c /\ round_half_even (m * 5 ^ (K + 2)) K = c.
Proof.
  intros HK Hm Hc Hnear.
  assert (HB : 0 < 2 ^ K) by (apply Z.pow_pos_nonneg; lia).
  assert (HF : 0 < 5 ^ K) by (apply Z.pow_pos_nonneg; lia).
  assert (HN : m * 5 ^ (K + 2) = (25 * m) * 5 ^ K).
  { rewrite Z.pow_add_r by lia. change (5 ^ 2) with 25. ring. }
  assert (HP : 10 ^ K = 2 ^ K * 5 ^ K).
  { change 10 with (2 * 5). apply Z.pow_mul_l. }
  set (a := 25 * m) in *. set (B := 2 ^ K) in *. set (F := 5 ^ K) in *.
  assert (Hq : (a * F) / (B * F) = a / B) by (apply Z.div_mul_cancel_r; lia).
  assert (Hr : (a * F) mod (B * F) = (a mod B) * F) by (apply Z.mul_mod_distr_r; lia).
  pose proof (Z.div_mod a B ltac:(lia)) as Hdm.
  pose proof (Z.mod_pos_bound a B HB) as Hmod.
  assert (Ha : 0 <= a) by (unfold a; lia).
  assert (Hcases : (a / B = c /\ 2 * (a mod B) < B)
                   \/ (a / B = c - 1 /\ B < 2 * (a mod B) /\ 0 < a)).
  { destruct (Z_le_gt_dec (c * B) a) as [Hle|Hgt].
    - left. assert (E : a / B = c)
        by (symmetry; apply (Z.div_unique a B c (a - c * B)); lia).
      split; [assumption|]. rewrite E in Hdm.
      replace (a mod B) with (a - c * B) by lia. lia.
    - right.
      assert (E : a / B = c - 1)
        by (symmetry; apply (Z.div_unique a B (c - 1) (a - (c - 1) * B)); lia).
      split; [assumption|]. rewrite E in Hdm.
      replace (a mod B) with (a - (c - 1) * B) by lia. split; [lia|].
      destruct (Z.eq_dec c 0) as [->|Hc0]; [lia|].
      assert (B * 1 <= B * c) by (apply Z.mul_le_mono_nonneg_l; lia). lia. }
  unfold round_half_up, round_half_even. rewrite HN, HP.
  assert (Habs : Z.abs (a * F) = a * F) by (apply Z.abs_eq; nia).
  rewrite Habs, Hq, Hr.
  destruct Hcases as [[Hqc Hlt] | (Hqc & Hgt & Hapos)].
  - rewrite Hqc.
    rewrite (proj2 (Z.leb_gt (B * F) (2 * (a mod B * F)))) by nia.
    rewrite (proj2 (Z.ltb_ge (B * F) (2 * (a mod B * F)))) by nia.
    rewrite (proj2 (Z.eqb_neq (2 * (a mod B * F)) (B * F))) by nia.
    cbn [orb andb].
    destruct (Z.eq_dec a 0) as [Ha0|Ha0].
    + rewrite Ha0 in *. rewrite Z.div_0_l in Hqc by lia. subst c. split; reflexivity.
    + replace (Z.sgn (a * F)) with 1 by (symmetry; apply Z.sgn_pos; nia). lia.
  - rewrite Hqc.
    rewrite (proj2 (Z.leb_le (B * F) (2 * (a mod B * F)))) by nia.
    rewrite (proj2 (Z.ltb_lt (B * F) (2 * (a mod B * F)))) by nia.
    cbn [orb].
    replace (Z.sgn (a * F)) with 1 by (symmetry; apply Z.sgn_pos; nia). lia.
Qed.

(** An amount of cents below 10^15, stored as a float, is read back and
    formatted as the same amount. *)
Lemma float_cents_read_back (c : Z) :
  0 <= c < 10 ^ 15 ->
  exists f,
    float_of_Decimal (Fin c (-2)) = Ok f
    /\ quantize_decimal (VFloat f) = Ok (Fin c (-2))
    /\ format_float_2f f = format_2f (Fin c (-2)).
Proof.
  intros Hc. destruct (Z.eq_dec c 0) as [->|Hnz].
  { exists (FFin 0 0). repeat split. }
  destruct (double_of_cents c ltac:(lia)) as (m & K & Hf & HK & Hm & Hnear).
  exists (FFin m (- (K + 2))). split; [exact Hf|].
  assert (H2 : 2 ^ K = 2 * 2 ^ (K - 1)).
  { replace K with (1 + (K - 1)) at 1 by lia. rewrite Z.pow_add_r by lia. reflexivity. }
  destruct (round_dyadic_to_cents m K c ltac:(lia) Hm ltac:(lia) ltac:(lia)) as [Hup Heven].
  assert (Hdec : Decimal_of_float (FFin m (- (K + 2))) = Fin (m * 5 ^ (K + 2)) (- (K + 2))).
  { unfold Decimal_of_float. rewrite (proj2 (Z.leb_gt 0 (- (K + 2)))) by lia.
    rewrite Z.opp_involutive. reflexivity. }
  split.
  - unfold quantize_decimal. cbn [Decimal_of bind]. rewrite Hdec, quantize_Fin.
    assert (Hcents : cents (m * 5 ^ (K + 2)) (- (K + 2)) = c).
    { unfold cents, rescale. rewrite (proj2 (Z.leb_gt (-2) (- (K + 2)))) by lia.
      replace (-2 - - (K + 2)) with K by lia. exact Hup. }
    rewrite Hcents. unfold fits. rewrite (proj2 (Z.ltb_lt _ _)) by (unfold prec; lia).
    reflexivity.
  - unfold format_float_2f. rewrite Hdec. unfold format_2f, format_fixed2.
    assert (Hr : rescale round_half_even (m * 5 ^ (K + 2)) (- (K + 2)) (-2) = c).
    { unfold rescale. rewrite (proj2 (Z.leb_gt (-2) (- (K + 2)))) by lia.
      replace (-2 - - (K + 2)) with K by lia. exact Heven. }
    rewrite Hr. unfold rescale. cbn [Z.leb Z.compare Z.sub Z.opp Z.add Z.pos_sub].
    rewrite Z.pow_0_r, Z.mul_1_r. reflexivity.
Qed.

End Floats.

(** X14: the record that the entry form makes of three validated amounts
    below 10^13 (in cents, below 10^15) stores them as floats; the ledger
    reads each of them back as exactly the validated amount, the record
    counts for its company, period and transaction type, and the table and
    the edit form show the amounts with the same two decimals. *)
Theorem X14_stored_amounts_read_back
    (company period t_type invoice_no counterparty : string) (b v t : Z) :
  0 <= b < 10 ^ 15 -> 0 <= v < 10 ^ 15 -> 0 <= t < 10 ^ 15 ->
  exists trans fb fv ft,
    entry_data company period t_type invoice_no counterparty
      (Fin b (-2)) (Fin v (-2)) (Fin t (-2)) = Ok trans
    /\ matches company period t_type trans = true
    /\ trans !! "base" = Some (VFloat fb) /\ trans !! "vat" = Some (VFloat fv)
    /\ trans !! "total" = Some (VFloat ft)
    /\ amount trans "base" = Ok (Fin b (-2))
    /\ amount trans "vat" = Ok (Fin v (-2))
    /\ amount trans "total" = Ok (Fin t (-2))
    /\ format_float_2f fb = format_2f (Fin b (-2))
    /\ format_float_2f fv = format_2f (Fin v (-2))
    /\ format_float_2f ft = format_2f (Fin t (-2)).
Proof.
  intros Hb Hv Ht.
  destruct (float_cents_read_back b Hb) as (fb & Hfb & Hqb & Hsb).
  destruct (float_cents_read_back v Hv) as (fv & Hfv & Hqv & Hsv).
  destruct (float_cents_read_back t Ht) as (ft & Hft & Hqt & Hst).
  unfold entry_data. rewrite Hfb, Hfv, Hft. cbn [bind].
  eexists _, fb, fv, ft. split; [reflexivity|].
  split.
  { unfold matches. rewrite !andb_true_iff. repeat split; apply eq_str_spec;
      repeat (rewrite lookup_insert_eq || rewrite lookup_insert_ne by discriminate);
      reflexivity. }
  unfold amount.
  repeat (rewrite lookup_insert_eq || rewrite lookup_insert_ne by discriminate).
  cbn [default from_option id]. repeat split; assumption.
Qed.

(** A sale of 100.00 with 18.00 of VAT. *)
Lemma X14_witness :
  exists trans fb fv ft,
    entry_data "SOL" "2024-01" "Sales" " 17 " "Shop"
      (Fin 10000 (-2)) (Fin 1800 (-2)) (Fin 11800 (-2)) = Ok trans
    /\ matches "SOL" "2024-01" "Sales" trans = true
    /\ trans !! "base" = Some (VFloat fb) /\ trans !! "vat" = Some (VFloat fv)
    /\ trans !! "total" = Some (VFloat ft)
    /\ amount trans "base" = Ok (Fin 10000 (-2))
    /\ amount trans "vat" = Ok (Fin 1800 (-2))
    /\ amount trans "total" = Ok (Fin 11800 (-2))
    /\ format_float_2f fb = format_2f (Fin 10000 (-2))
    /\ format_float_2f fv = format_2f (Fin 1800 (-2))
    /\ format_float_2f ft = format_2f (Fin 11800 (-2)).
Proof.
  apply (X14_stored_amounts_read_back "SOL" "2024-01" "Sales" " 17 " "Shop"
           10000 1800 11800); lia.
Defined.

Section DecimalStrings.

Lemma strip_no_space (a b : ascii) (r r' : list ascii) :
  a :: r = (r' ++ [b])%list -> is_space a = false -> is_space b = false ->
  strip (a :: r) = a :: r.
Proof.
  intros E Ha Hb. unfold strip. rewrite lstrip_head by exact Ha.
  rewrite E, rev_app_distr. cbn [rev List.app]. rewrite lstrip_head by exact Hb.
  change (b :: rev r') with (rev [b] ++ rev r')%list.
  rewrite <- rev_app_distr, rev_involutive. reflexivity.
Qed.

(** A sign and a text without white space or underscores that starts with
    a digit: the constructor reads the sign and parses the rest. *)
Lemma Decimal_of_str_body (s : string) (neg : bool) (d0 b : ascii) (r r' : list ascii)
    (c e : Z) :
  list_ascii_of_string s = ((if neg then ["-"%char] else []) ++ d0 :: r)%list ->
  d0 :: r = (r' ++ [b])%list ->
  is_digit d0 = true -> is_space b = false ->
  Forall (fun x => x <> "_"%char) (d0 :: r) ->
  parse_finite (d0 :: r) = Some (c, e) ->
  Decimal_of_str s = Some (Fin (if neg then - c else c) e).
Proof.
  intros Hs Hlast Hd0 Hb Hchars Hparse. unfold Decimal_of_str. rewrite Hs.
  destruct neg; cbn [List.app].
  - rewrite (strip_no_space "-"%char b (d0 :: r) ("-"%char :: r'))
      by (cbn [List.app]; auto; rewrite Hlast; reflexivity).
    rewrite filter_cons_True by discriminate.
    rewrite filter_all by exact Hchars. rewrite Hparse. reflexivity.
  - rewrite (strip_no_space d0 b r r') by (auto using digit_not_space).
    rewrite filter_all by exact Hchars.
    rewrite digit_not_sign by exact Hd0. rewrite Hparse. reflexivity.
Qed.

Lemma zeros_digits (k : Z) : forallb is_digit (zeros k) = true.
Proof.
  unfold zeros. induction (Z.to_nat k) as [|n IH]; [reflexivity|].
  cbn [repeat forallb]. rewrite IH. reflexivity.
Qed.

Lemma zeros_length (k : Z) : 0 <= k -> Z.of_nat (length (zeros k)) = k.
Proof. intros Hk. unfold zeros. rewrite repeat_length. lia. Qed.

Lemma int_of_digits_zeros (k : Z) (l : list ascii) :
  int_of_digits (zeros k ++ l) = int_of_digits l.
Proof.
  unfold zeros. induction (Z.to_nat k) as [|n IH]; [reflexivity|].
  cbn [repeat List.app]. change ("0"%char :: repeat "0"%char n ++ l)%list
    with (["0"%char] ++ (repeat "0"%char n ++ l))%list.
  rewrite int_of_digits_app, IH. reflexivity.
Qed.

(** The exponent that [str] writes is read back. *)
Lemma parse_exponent_signed (n : Z) :
  parse_exponent (list_ascii_of_string ((if 0 <=? n then "+" else "") +:+ pretty n))
  = Some n.
Proof.
  unfold parse_exponent. destruct (Z.leb_spec 0 n) as [Hn|Hn].
  - destruct (pretty_digits n Hn) as (Hd & Hint & Hne).
    rewrite list_of_append. cbn [list_ascii_of_string List.app].
    pose proof (span_digits_app (list_ascii_of_string (pretty n)) [] Hd I) as Hspan.
    rewrite app_nil_r in Hspan. rewrite Hspan.
    destruct (list_ascii_of_string (pretty n)); [contradiction|]. rewrite Hint. reflexivity.
  - destruct n as [|p|p]; try lia.
    destruct (pretty_digits (Z.pos p) ltac:(lia)) as (Hd & Hint & Hne).
    change (pretty (Z.neg p)) with ("-" +:+ pretty (Z.pos p)).
    rewrite !list_of_append. cbn [list_ascii_of_string List.app].
    pose proof (span_digits_app (list_ascii_of_string (pretty (Z.pos p))) [] Hd I) as Hspan.
    rewrite app_nil_r in Hspan. rewrite Hspan.
    destruct (list_ascii_of_string (pretty (Z.pos p))); [contradiction|].
    rewrite Hint. reflexivity.
Qed.

(** Digits, an optional fraction and an optional exponent. *)
Lemma parse_finite_sci (ip fp fr ex : list ascii) (n : Z) :
  forallb is_digit ip = true -> ip <> [] -> forallb is_digit fp = true ->
  (fr = [] /\ fp = []) \/ fr = "."%char :: fp ->
  (ex = [] /\ n = 0)
  \/ (exists X, ex = "E"%char :: X /\ parse_exponent X = Some n) ->
  parse_finite (ip ++ fr ++ ex)
  = Some (int_of_digits (ip ++ fp), n - Z.of_nat (length fp)).
Proof.
  intros HI Hne HF Hfr Hex. unfold parse_finite.
  assert (Hexhead : match ex with a :: _ => is_digit a = false | [] => True end).
  { destruct Hex as [[-> _] | (X & -> & _)]; [exact Logic.I | reflexivity]. }
  assert (Hexp : match ex with
                 | [] => Some 0
                 | a :: r => if Ascii.eqb (lower a) "e" then parse_exponent r else None
                 end = Some n).
  { destruct Hex as [[-> ->] | (X & -> & HX)]; [reflexivity | exact HX]. }
  assert (Hnonempty : forall l, (ip ++ l)%list <> []).
  { intros l E. apply app_eq_nil in E. destruct E. contradiction. }
  destruct Hfr as [[-> ->] | ->].
  - cbn [List.app]. rewrite (span_digits_app ip ex HI Hexhead).
    assert (Hr1 : match ex with
                  | "."%char :: r => span_digits r
                  | _ => ([], ex)
                  end = ([], ex)).
    { destruct Hex as [[-> _] | (X & -> & _)]; reflexivity. }
    rewrite Hr1. destruct (ip ++ [])%list eqn:E; [exact (False_ind _ (Hnonempty _ E))|].
    rewrite <- E, Hexp. cbn [length]. rewrite Z.sub_0_r. reflexivity.
  - cbn [List.app]. rewrite (span_digits_app ip) by (auto; reflexivity).
    rewrite (span_digits_app fp ex HF Hexhead).
    destruct (ip ++ fp)%list eqn:E; [exact (False_ind _ (Hnonempty _ E))|].
    rewrite <- E, Hexp. reflexivity.
Qed.

End DecimalStrings.

Section DecimalStrings2.

Let good (x : ascii) : Prop := is_space x = false /\ x <> "_"%char.

Lemma good_digits (l : list ascii) : forallb is_digit l = true -> Forall good l.
Proof.
  intros H. apply Forall_forall. intros a Ha. rewrite forallb_forall in H.
  apply list_elem_of_In in Ha. specialize (H a Ha).
  split; [apply digit_not_space, H | apply digit_not_underscore, H].
Qed.

Lemma good_pretty (n : Z) : Forall good (list_ascii_of_string (pretty n)).
Proof.
  destruct (Z.leb_spec 0 n) as [Hn|Hn].
  - apply good_digits, pretty_digits, Hn.
  - destruct n as [|p|p]; try lia.
    change (pretty (Z.neg p)) with ("-" +:+ pretty (Z.pos p)).
    rewrite list_of_append. cbn [list_ascii_of_string List.app].
    constructor; [split; [reflexivity | discriminate]|].
    apply good_digits, (pretty_digits (Z.pos p)). lia.
Qed.

Lemma Decimal_of_str_good (s : string) (neg : bool) (d0 : ascii) (r : list ascii)
    (c e : Z) :
  list_ascii_of_string s = ((if neg then ["-"%char] else []) ++ d0 :: r)%list ->
  is_digit d0 = true -> Forall good (d0 :: r) ->
  parse_finite (d0 :: r) = Some (c, e) ->
  Decimal_of_str s = Some (Fin (if neg then - c else c) e).
Proof.
  intros Hs Hd0 Hgood Hparse.
  destruct (exists_last (l := d0 :: r) ltac:(discriminate)) as (r' & b & Hlast).
  apply (Decimal_of_str_body s neg d0 b r r'); auto.
  - assert (Hb : good b).
    { rewrite Hlast in Hgood. apply Forall_app in Hgood. destruct Hgood as [_ Hg].
      inversion Hg; assumption. }
    apply Hb.
  - eapply Forall_impl; [exact Hgood|]. intros a [_ Ha]. exact Ha.
Qed.

(** The string of a Decimal reads back as the Decimal. *)
Lemma Decimal_of_str_Decimal_str (d : Decimal) : Decimal_of_str (Decimal_str d) = Some d.
Proof.
  destruct d as [c e|[|]|[|]]; try (vm_compute; reflexivity).
  unfold Decimal_str.
  destruct (pretty_digits (Z.abs c) ltac:(lia)) as (Hd & Hint & Hne).
  set (int := list_ascii_of_string (pretty (Z.abs c))) in *.
  assert (Hparts : forall n, forallb is_digit (take n int) = true
                             /\ forallb is_digit (drop n int) = true).
  { intros n. rewrite <- (take_drop n int), forallb_app in Hd.
    apply andb_prop in Hd. exact Hd. }
  set (len := Z.of_nat (length int)).
  assert (Hlen : 1 <= len) by (unfold len; destruct int; [contradiction | cbn; lia]).
  set (L := e + len).
  set (dp := if (e <=? 0) && (-6 <? L) then L else 1).
  set (intpart := if dp <=? 0 then ["0"%char]
                  else if len <=? dp then (int ++ zeros (dp - len))%list
                  else take (Z.to_nat dp) int).
  set (F := if dp <=? 0 then (zeros (- dp) ++ int)%list
            else if len <=? dp then [] else drop (Z.to_nat dp) int).
  set (fracpart := if dp <=? 0 then ("."%char :: zeros (- dp) ++ int)%list
                   else if len <=? dp then []
                   else "."%char :: drop (Z.to_nat dp) int).
  set (exp := if L =? dp then []
              else "E"%char :: list_ascii_of_string
                                 ((if 0 <=? L - dp then "+" else "") +:+ pretty (L - dp))).
  assert (Hip : forallb is_digit intpart = true /\ intpart <> []
                /\ exists d0 r0, intpart = d0 :: r0).
  { unfold intpart. destruct (Z.leb_spec dp 0).
    - split; [reflexivity|]. split; [discriminate | eauto].
    - destruct (Z.leb_spec len dp).
      + destruct int as [|a int']; [contradiction|].
        split; [rewrite forallb_app, Hd, zeros_digits; reflexivity|].
        split; [discriminate | cbn [List.app]; eauto].
      + split; [apply Hparts|].
        destruct int as [|a int']; [contradiction|].
        replace (Z.to_nat dp) with (S (Z.to_nat (dp - 1))) by lia. cbn [take].
        split; [discriminate | eauto]. }
  destruct Hip as (Hipd & Hipne & d0 & r0 & Hip0).
  assert (HF : forallb is_digit F = true).
  { unfold F. destruct (Z.leb_spec dp 0).
    - rewrite forallb_app, zeros_digits, Hd. reflexivity.
    - destruct (Z.leb_spec len dp); [reflexivity | apply Hparts]. }
  assert (Hfr : (fracpart = [] /\ F = []) \/ fracpart = "."%char :: F).
  { unfold fracpart, F. destruct (dp <=? 0); [right; reflexivity|].
    destruct (len <=? dp); [left; auto | right; reflexivity]. }
  assert (Hex : (exp = [] /\ (if L =? dp then 0 else L - dp) = 0)
                \/ exists X, exp = "E"%char :: X
                             /\ parse_exponent X = Some (if L =? dp then 0 else L - dp)).
  { unfold exp. destruct (L =? dp); [left; auto|]. right. eexists. split; [reflexivity|].
    apply parse_exponent_signed. }
  pose proof (parse_finite_sci intpart F fracpart exp _ Hipd Hipne HF Hfr Hex) as Hparse.
  assert (Hvalue : int_of_digits (intpart ++ F) = Z.abs c
                   /\ (if L =? dp then 0 else L - dp) - Z.of_nat (length F) = e).
  { unfold intpart, F, dp, L in *. clear Hparse Hex Hfr HF Hipd Hipne Hip0.
    destruct (Z.leb_spec e 0) as [He|He]; cbn [andb].
    - destruct (Z.ltb_spec (-6) (e + len)) as [H6|H6].
      + rewrite Z.eqb_refl. destruct (Z.leb_spec (e + len) 0) as [Hdp|Hdp].
        * cbn [List.app]. change ("0"%char :: zeros (- (e + len)) ++ int)%list
            with (zeros 1 ++ (zeros (- (e + len)) ++ int))%list.
          rewrite !int_of_digits_zeros, Hint. split; [reflexivity|].
          rewrite length_app, Nat2Z.inj_add, zeros_length by lia. fold len. lia.
        * destruct (Z.leb_spec len (e + len)) as [Hle|Hlt].
          -- assert (e = 0) by lia. subst e. rewrite app_nil_r.
             replace (0 + len - len) with 0 by lia. cbn [zeros Z.to_nat repeat].
             rewrite app_nil_r, Hint. split; reflexivity.
          -- rewrite take_drop, Hint. split; [reflexivity|].
             rewrite length_drop. fold len. lia.
      + assert (Hn1 : (e + len =? 1) = false) by (apply Z.eqb_neq; lia).
        rewrite Hn1. cbn [Z.leb Z.compare].
        destruct (Z.leb_spec len 1) as [Hle|Hlt].
        * rewrite app_nil_r. replace (1 - len) with 0 by lia. cbn [zeros Z.to_nat repeat].
          rewrite app_nil_r, Hint. cbn [length]. split; [reflexivity | lia].
        * rewrite take_drop, Hint. split; [reflexivity|].
          rewrite length_drop. fold len. lia.
    - assert (Hn1 : (e + len =? 1) = false) by (apply Z.eqb_neq; lia).
      rewrite Hn1. cbn [Z.leb Z.compare].
      destruct (Z.leb_spec len 1) as [Hle|Hlt].
      + rewrite app_nil_r. replace (1 - len) with 0 by lia. cbn [zeros Z.to_nat repeat].
        rewrite app_nil_r, Hint. cbn [length]. split; [reflexivity | lia].
      + rewrite take_drop, Hint. split; [reflexivity|].
        rewrite length_drop. fold len. lia. }
  destruct Hvalue as [Hv1 Hv2]. rewrite Hv1, Hv2 in Hparse.
  replace (Fin c e) with (Fin (if c <? 0 then - Z.abs c else Z.abs c) e)
    by (f_equal; destruct (Z.ltb_spec c 0); lia).
  rewrite Hip0 in Hparse. cbn [List.app] in Hparse.
  apply (Decimal_of_str_good _ (c <? 0) d0 (r0 ++ fracpart ++ exp)).
  - rewrite list_ascii_of_string_of_list_ascii. rewrite Hip0. reflexivity.
  - rewrite Hip0 in Hipd. cbn [forallb] in Hipd. apply andb_prop in Hipd. apply Hipd.
  - change (d0 :: r0 ++ fracpart ++ exp)%list
      with ((d0 :: r0) ++ fracpart ++ exp)%list.
    rewrite <- Hip0. apply Forall_app. split; [apply good_digits, Hipd|].
    apply Forall_app. split.
    + destruct Hfr as [[-> _] | ->]; [constructor|].
      constructor; [split; [reflexivity | discriminate] | apply good_digits, HF].
    + unfold exp. destruct (L =? dp); [constructor|].
      constructor; [split; [reflexivity | discriminate]|].
      rewrite list_of_append. apply Forall_app. split; [|apply good_pretty].
      destruct (0 <=? L - dp); cbn [list_ascii_of_string]; [|constructor].
      constructor; [split; [reflexivity | discriminate] | constructor].
  - exact Hparse.
Qed.

End DecimalStrings2.

Section SaveLoad.

Lemma load_months_saved (m : months) :
  load_months ((fun d => JStr (Decimal_str d)) <$> m) = m.
Proof.
  apply map_eq. intros i. unfold load_months.
  rewrite lookup_omap, lookup_fmap. destruct (m !! i) as [d|]; [|reflexivity].
  cbn [fmap option_fmap option_map mbind option_bind Decimal_of_json pyval_of_json
         Decimal_of].
  rewrite Decimal_of_str_Decimal_str. reflexivity.
Qed.

End SaveLoad.

(** X15: the string that [_save_data] writes for a surplus is read back
    by [Decimal] as the same number, whatever the number: finite with any
    exponent, infinite or NaN. *)
Theorem X15_decimal_string_round_trip (d : Decimal) :
  Decimal_of (VStr (Decimal_str d)) = Ok d.
Proof. cbn [Decimal_of]. rewrite Decimal_of_str_Decimal_str. reflexivity. Qed.

(** X16: the carry-forward store survives saving and loading: what
    [_load_data] builds from the ["carry_forward"] member that [_save_data]
    wrote is the store itself without the companies that have no month. *)
Theorem X16_carry_forward_round_trip (store : gmap string months) :
  load_carry_forward (save_carry_forward store)
  = filter (fun kv => kv.2 <> ∅) store.
Proof.
  unfold load_carry_forward, save_carry_forward. apply map_eq. intros k.
  rewrite lookup_omap, lookup_fmap.
  destruct (filter (fun kv : string * months => kv.2 <> ∅) store !! k) as [m|] eqn:E;
    [|reflexivity].
  cbn [fmap option_fmap option_map mbind option_bind].
  rewrite load_months_saved.
  apply map_lookup_filter_Some in E. destruct E as [_ Hne]. cbn [snd] in Hne.
  rewrite decide_False by exact Hne. reflexivity.
Qed.

